(** * BGP_Neighbors_Established_Revised.py: a shallow embedding

    The script is a pyATS/aetest test script with three sections:
    [CommonSetup.connect], [BGPNeighborsEstablished.learn_bgp] and
    [BGPNeighborsEstablished.check_bgp].

    Python values are embedded as a small JSON-like datatype,
    dictionaries as insertion-ordered association lists, and the sections
    as computations in a state-and-exception monad whose state is the
    part of the Python world the script touches: the log, the parameters
    handed from section to section, the attribute [all_bgp_sessions] and
    the calls made on the devices.

    [check_bgp] is embedded a second time over a store of objects, where
    a dictionary has an identity and assignment writes to the store.  That
    embedding is the one to speak about what the section does to the
    objects it is given; it is shown to compute what the first one
    computes. *)

From Stdlib Require Import String Ascii List ZArith Bool Arith Lia.
Import ListNotations.
Open Scope string_scope.
Set Warnings "-register-all".

(* ================================================================= *)
(** ** Python values, dictionaries and the string methods used *)

Module Py.

(** A [dict] keeps its items in insertion order.  Keys are strings: every
    key the script reads or writes is one. *)
Definition dict (V : Type) : Type := list (string * V).

(** The values found in a parsed BGP snapshot. *)
Inductive value : Type :=
| VNone
| VBool (b : bool)
| VInt (z : Z)
| VStr (s : string)
| VList (l : list value)
| VDict (d : list (string * value)).

(** [d.get(k)] / [k in d]: the first item with key [k]. *)
Fixpoint dict_get {V : Type} (k : string) (d : dict V) : option V :=
  match d with
  | [] => None
  | (k', v) :: d' => if String.eqb k k' then Some v else dict_get k d'
  end.

(** [d[k] = v]: an existing key keeps its position and gets the new
    value, a new key is appended. *)
Fixpoint dict_set {V : Type} (k : string) (v : V) (d : dict V) : dict V :=
  match d with
  | [] => [(k, v)]
  | (k', v') :: d' =>
      if String.eqb k k' then (k', v) :: d' else (k', v') :: dict_set k v d'
  end.

Definition keys {V : Type} (d : dict V) : list string := map fst d.

(** [d.get(k, default)]. *)
Definition get_default {V : Type} (k : string) (default : V) (d : dict V) : V :=
  match dict_get k d with
  | Some v => v
  | None => default
  end.

(** [d.setdefault(k, default)]: the value under [k], inserting [default]
    first when [k] is missing.  Returns the value and the dictionary. *)
Definition setdefault {V : Type} (k : string) (default : V) (d : dict V)
  : V * dict V :=
  match dict_get k d with
  | Some v => (v, d)
  | None => (default, dict_set k default d)
  end.

(** Truth value of a dictionary: [if d:]. *)
Definition truthy {V : Type} (d : dict V) : bool :=
  match d with
  | [] => false
  | _ :: _ => true
  end.

(** [str.lower] and [str.upper] on ASCII text: the letters A-Z and a-z
    are mapped, every other character is left alone. *)
Definition lower_char (c : ascii) : ascii :=
  let n := nat_of_ascii c in
  if ((65 <=? n) && (n <=? 90))%nat then ascii_of_nat (n + 32) else c.

Definition upper_char (c : ascii) : ascii :=
  let n := nat_of_ascii c in
  if ((97 <=? n) && (n <=? 122))%nat then ascii_of_nat (n - 32) else c.

Fixpoint lower (s : string) : string :=
  match s with
  | EmptyString => EmptyString
  | String c s' => String (lower_char c) (lower s')
  end.

(** [str.capitalize]: first character upper-cased, the rest lower-cased. *)
Definition capitalize (s : string) : string :=
  match s with
  | EmptyString => EmptyString
  | String c s' => String (upper_char c) (lower s')
  end.

End Py.

Import Py.

(* ================================================================= *)
(** ** Exceptions and the section monad *)

Module Aetest.

(** Result of a section. *)
Inductive result_code : Type := Passed | Failed | Errored.

(** What a section can raise: a result signal of the harness, raised by
    the result APIs [self.passed] / [self.failed] and carrying the reason
    and the [goto] targets, or an ordinary Python exception with its type
    name and [str(e)]. *)
Inductive exn : Type :=
| Signal (r : result_code) (reason : string) (goto : list string)
| PyException (type : string) (msg : string).

Inductive outcome (A : Type) : Type :=
| Return (a : A)
| Raise (e : exn).
Arguments Return {A} a.
Arguments Raise {A} e.

(** A computation over a world [W]: it returns or raises, and the world
    it leaves behind is kept in both cases. *)
Definition M (W A : Type) : Type := W -> outcome A * W.

Class Monad (m : Type -> Type) : Type := {
  ret : forall {A : Type}, A -> m A;
  bind : forall {A B : Type}, m A -> (A -> m B) -> m B
}.

#[export] Instance outcome_monad : Monad outcome := {
  ret := fun A a => Return a;
  bind := fun A B c k =>
    match c with
    | Return a => k a
    | Raise e => Raise e
    end
}.

#[export] Instance M_monad (W : Type) : Monad (M W) := {
  ret := fun A a w => (Return a, w);
  bind := fun A B c k w =>
    match c w with
    | (Return a, w') => k a w'
    | (Raise e, w') => (Raise e, w')
    end
}.

Declare Scope monad_scope.
Delimit Scope monad_scope with monad.
Notation "x <- c ;; k" := (bind c (fun x => k))
  (at level 61, c at next level, right associativity) : monad_scope.
Notation "' p <- c ;; k" := (bind c (fun x => match x with p => k end))
  (at level 61, p pattern, c at next level, right associativity) : monad_scope.
Notation "c ;; k" := (bind c (fun _ => k))
  (at level 61, right associativity) : monad_scope.

(** The body of a [for] loop that threads an accumulator. *)
Fixpoint foldM {m : Type -> Type} `{Monad m} {A B : Type}
    (f : B -> A -> m B) (l : list A) (b : B) : m B :=
  match l with
  | [] => ret b
  | x :: l' => bind (f b x) (fun b' => foldM f l' b')
  end.

Definition raise {W A : Type} (e : exn) : M W A := fun w => (Raise e, w).

(** A pure computation that may raise, run inside a section. *)
Definition lift {W A : Type} (c : outcome A) : M W A := fun w => (c, w).

(** [try: body  except Exception as e: handler e].  The handler sees
    Python exceptions; result signals are not [Exception]s and pass
    through. *)
Definition try_except {W A : Type} (body : M W A) (handler : string -> string -> M W A)
  : M W A :=
  fun w =>
    match body w with
    | (Raise (PyException type msg), w') => handler type msg w'
    | r => r
    end.

(** The result APIs: each raises its signal, which ends the section. *)
Definition passed {W A : Type} (reason : string) (goto : list string) : M W A :=
  raise (Signal Passed reason goto).

Definition failed {W A : Type} (reason : string) (goto : list string) : M W A :=
  raise (Signal Failed reason goto).

Definition attribute_error {A : Type} (attr : string) : outcome A :=
  Raise (PyException "AttributeError" attr).

Definition key_error {A : Type} (key : string) : outcome A :=
  Raise (PyException "KeyError" key).

End Aetest.

Import Aetest.
Open Scope monad_scope.

(* ================================================================= *)
(** ** The world of the script *)

(** What [bgp.learn()] leaves behind for a device. *)
Inductive learn_result : Type :=
| LearnInfo (info : value)          (* [bgp.info] holds the snapshot *)
| LearnNothing                      (* [bgp] has no attribute [info] *)
| LearnRaises (type msg : string).  (* the library call raised *)

(** A device of the testbed, with the behaviour of the two library calls
    the script makes on it. *)
Record Device : Type := mkDevice {
  name : string;
  connect_raises : option (string * string);  (* [Some (type, str(e))]: [connect()] raises *)
  learns : learn_result
}.

(** Arguments of the logging calls.  Formatting by the libraries is kept
    symbolic. *)
Inductive message : Type :=
| Text (s : string)
| Banner (s : string)
| Tabulate (rows : list (list string)) (headers : list string) (tablefmt : string)
| JsonDumps (obj : dict (dict value)) (indent : nat).

Inductive log_record : Type :=
| Info (m : message)
| Error (m : message).

Record world : Type := World {
  log : list log_record;                      (* oldest first *)
  connect_calls : list string;                (* devices [connect()] was called on *)
  learn_calls : list string;                  (* devices [learn()] was called on *)
  parameters_testbed : option (list Device);  (* [parameters['testbed']] *)
  parameters_devices : option (list Device);  (* [parameters['devices']] *)
  all_bgp_sessions : option (dict value)      (* [self.all_bgp_sessions] *)
}.

Definition log_info (m : message) : M world unit :=
  fun w => (Return tt,
            World (log w ++ [Info m]) (connect_calls w) (learn_calls w)
                  (parameters_testbed w) (parameters_devices w) (all_bgp_sessions w)).

Definition log_error (m : message) : M world unit :=
  fun w => (Return tt,
            World (log w ++ [Error m]) (connect_calls w) (learn_calls w)
                  (parameters_testbed w) (parameters_devices w) (all_bgp_sessions w)).

Definition set_parameters_testbed (t : list Device) : M world unit :=
  fun w => (Return tt,
            World (log w) (connect_calls w) (learn_calls w)
                  (Some t) (parameters_devices w) (all_bgp_sessions w)).

Definition set_parameters_devices (l : list Device) : M world unit :=
  fun w => (Return tt,
            World (log w) (connect_calls w) (learn_calls w)
                  (parameters_testbed w) (Some l) (all_bgp_sessions w)).

Definition get_parameters_devices : M world (list Device) :=
  fun w => match parameters_devices w with
           | Some l => (Return l, w)
           | None => (key_error "devices", w)
           end.

Definition set_all_bgp_sessions (d : dict value) : M world unit :=
  fun w => (Return tt,
            World (log w) (connect_calls w) (learn_calls w)
                  (parameters_testbed w) (parameters_devices w) (Some d)).

Definition get_all_bgp_sessions : M world (dict value) :=
  fun w => match all_bgp_sessions w with
           | Some d => (Return d, w)
           | None => (attribute_error "all_bgp_sessions", w)
           end.

(** [device.connect()]. *)
Definition device_connect (d : Device) : M world unit :=
  fun w =>
    let w' := World (log w) (connect_calls w ++ [name d]) (learn_calls w)
                    (parameters_testbed w) (parameters_devices w) (all_bgp_sessions w) in
    match connect_raises d with
    | None => (Return tt, w')
    | Some (type, msg) => (Raise (PyException type msg), w')
    end.

(** [Lookup.from_device(device)], [Bgp(device)] and [bgp.learn()],
    followed by [hasattr(bgp, 'info')]: the snapshot when there is one. *)
Definition bgp_learn (d : Device) : M world (option value) :=
  fun w =>
    let w' := World (log w) (connect_calls w) (learn_calls w ++ [name d])
                    (parameters_testbed w) (parameters_devices w) (all_bgp_sessions w) in
    match learns d with
    | LearnInfo info => (Return (Some info), w')
    | LearnNothing => (Return None, w')
    | LearnRaises type msg => (Raise (PyException type msg), w')
    end.

(* ================================================================= *)
(** ** CommonSetup.connect *)

Definition connect_device (device_list : list Device) (device : Device)
  : M world (list Device) :=
  log_info (Banner ("Connecting to device '" ++ name device ++ "'")) ;;
  try_except
    (device_connect device ;;
     ret (device_list ++ [device])%list)
    (fun _ str_e =>
       failed ("Failed to establish connection to '" ++ name device ++ "': " ++ str_e) []).

(** [testbed] is [genie_testbed.devices.values()]. *)
Definition connect (testbed : list Device) : M world unit :=
  set_parameters_testbed testbed ;;
  device_list <- foldM connect_device testbed [] ;;
  set_parameters_devices device_list.

(* ================================================================= *)
(** ** BGPNeighborsEstablished.learn_bgp *)

Definition learn_device (_ : unit) (device : Device) : M world unit :=
  log_info (Banner ("Gathering BGP Information from " ++ name device)) ;;
  bgp <- bgp_learn device ;;
  match bgp with
  | Some info =>
      sessions <- get_all_bgp_sessions ;;
      set_all_bgp_sessions (dict_set (name device) info sessions)
  | None =>
      failed ("Failed to learn BGP info from device " ++ name device) ["common_cleanup"]
  end.

Definition learn_bgp : M world unit :=
  set_all_bgp_sessions [] ;;
  devices <- get_parameters_devices ;;
  foldM learn_device devices tt.

(* ================================================================= *)
(** ** BGPNeighborsEstablished.check_bgp *)

(** [v.get(k, default)]: only a dictionary has [get]. *)
Definition py_get (k : string) (default : value) (v : value) : outcome value :=
  match v with
  | VDict d => Return (get_default k default d)
  | _ => attribute_error "get"
  end.

(** [v.items()]. *)
Definition py_items (v : value) : outcome (dict value) :=
  match v with
  | VDict d => Return d
  | _ => attribute_error "items"
  end.

(** [v.lower()]: only a string has [lower]. *)
Definition py_lower (v : value) : outcome string :=
  match v with
  | VStr s => Return (lower s)
  | _ => attribute_error "lower"
  end.

(** The two local variables of [check_bgp]. *)
Record locals : Type := Locals {
  failed_dict : dict (dict value);
  results_table : list (list string)
}.

(** [failed_dict.setdefault(device, {})[nbr] = props].  The dictionary
    returned by [setdefault] is the one stored under [device], so the
    assignment is seen through [failed_dict]. *)
Definition record_failure (device nbr : string) (props : value)
    (fd : dict (dict value)) : dict (dict value) :=
  let '(inner, fd') := setdefault device ([] : dict value) fd in
  dict_set device (dict_set nbr props inner) fd'.

(** Body of [for nbr, props in neighbors.items()]. *)
Definition check_neighbor (device vrf_name : string) (st : locals)
    (item : string * value) : outcome locals :=
  let '(nbr, props) := item in
  raw <- py_get "session_state" (VStr "Unknown") props ;;
  state <- py_lower raw ;;
  let result := if String.eqb state "established" then "Passed" else "Failed" in
  let failed_dict' :=
    if String.eqb result "Failed"
    then record_failure device nbr props (failed_dict st)
    else failed_dict st in
  ret (Locals failed_dict'
              (results_table st ++ [[vrf_name; nbr; capitalize state; result]])).

(** Body of [for vrf_name, vrf_data in vrfs_dict.items()]. *)
Definition check_vrf (device : string) (st : locals) (item : string * value)
  : outcome locals :=
  let '(vrf_name, vrf_data) := item in
  neighbors <- py_get "neighbor" (VDict []) vrf_data ;;
  nbrs <- py_items neighbors ;;
  foldM (check_neighbor device vrf_name) nbrs st.

(** The three chained lookups and the two inner loops for one device. *)
Definition check_snapshot (device : string) (bgp_info : value) (st : locals)
  : outcome locals :=
  instance <- py_get "instance" (VDict []) bgp_info ;;
  default <- py_get "default" (VDict []) instance ;;
  vrfs_dict <- py_get "vrf" (VDict []) default ;;
  vrfs <- py_items vrfs_dict ;;
  foldM (check_vrf device) vrfs st.

Definition newline : string := String (ascii_of_nat 10) EmptyString.

Definition table_headers : list string := ["VRF"; "Peer"; "State"; "Result"].

(** Body of [for device, bgp_info in self.all_bgp_sessions.items()]. *)
Definition check_device (st : locals) (item : string * value) : M world locals :=
  let '(device, bgp_info) := item in
  st' <- lift (check_snapshot device bgp_info st) ;;
  log_info (Text ("Device " ++ device ++ " BGP Neighbors:" ++ newline)) ;;
  log_info (Tabulate (results_table st') table_headers "orgtbl") ;;
  ret st'.

(** Lines 75-97 of [check_bgp]: the initialisation of the two locals and
    the loop over the devices, returning the locals as the loop leaves
    them. *)
Definition check_bgp_loop : M world locals :=
  sessions <- get_all_bgp_sessions ;;
  foldM check_device sessions (Locals [] []).

(** [check_bgp]: the loop, then the final verdict. *)
Definition check_bgp : M world unit :=
  st <- check_bgp_loop ;;
  if truthy (failed_dict st)
  then log_error (JsonDumps (failed_dict st) 3) ;;
       failed "Some BGP neighbors are not established." []
  else passed "All BGP neighbors are established." [].

(* ================================================================= *)
(** ** CommonCleanup.clean_up and the testcase as the harness runs it *)

Definition clean_up : M world unit :=
  log_info (Text "Aetest Common Cleanup").

(** Result the harness gives a section: a section that returns has
    passed, a result signal gives its result and [goto], any other
    exception is an error. *)
Definition section_result {A : Type} (o : outcome A)
  : result_code * string * list string :=
  match o with
  | Return _ => (Passed, "", [])
  | Raise (Signal r reason goto) => (r, reason, goto)
  | Raise (PyException type msg) => (Errored, msg, [])
  end.

(** The harness runs the test sections of a testcase in the order they
    are defined.  A section that ends with a [goto] stops the testcase:
    the sections after it are not run and the run resumes at the target.
    The result is the report, one line per section run, and the pending
    [goto]. *)
Fixpoint run_tests (tests : list (string * M world unit)) (w : world)
  : list (string * result_code * string) * list string * world :=
  match tests with
  | [] => ([], [], w)
  | (id, test) :: rest =>
      let '(o, w') := test w in
      let '(r, reason, goto) := section_result o in
      match goto with
      | [] =>
          let '(report, goto', w'') := run_tests rest w' in
          ((id, r, reason) :: report, goto', w'')
      | _ :: _ => ([(id, r, reason)], goto, w')
      end
  end.

Definition BGPNeighborsEstablished : list (string * M world unit) :=
  [("learn_bgp", learn_bgp); ("check_bgp", check_bgp)].

(* ================================================================= *)
(** ** What the specification says about a snapshot

    These definitions follow the wording of the specification, not the
    code: the neighbours of a snapshot, the state and verdict of one of
    them, and the row it is displayed as. *)

Module Spec.

(** The dictionary under [k], or no entries when [k] is missing (or [v]
    is not a dictionary at all). *)
Definition entries (k : string) (v : value) : dict value :=
  match v with
  | VDict d =>
      match dict_get k d with
      | Some (VDict d') => d'
      | _ => []
      end
  | _ => []
  end.

(** Neighbours of a snapshot as (VRF name, neighbour address, raw
    attributes), VRF by VRF, in the order of the snapshot.  A missing
    level contributes no neighbour. *)
Definition neighbors_of (bgp_info : value) : list (string * string * value) :=
  flat_map
    (fun '(vrf_name, vrf_data) =>
       map (fun '(nbr, props) => (vrf_name, nbr, props)) (entries "neighbor" vrf_data))
    (entries "vrf" (VDict (entries "default" (VDict (entries "instance" bgp_info))))).

(** The session state of a neighbour: its [session_state] field, or the
    sentinel when the field is missing. *)
Definition session_state (props : value) : string :=
  match props with
  | VDict d =>
      match dict_get "session_state" d with
      | Some (VStr s) => s
      | _ => "Unknown"
      end
  | _ => "Unknown"
  end.

Definition verdict (props : value) : string :=
  if String.eqb (lower (session_state props)) "established" then "Passed" else "Failed".

Definition row_of (n : string * string * value) : list string :=
  let '(vrf_name, nbr, props) := n in
  [vrf_name; nbr; capitalize (lower (session_state props)); verdict props].

Definition failing (n : string * string * value) : bool :=
  String.eqb (verdict (snd n)) "Failed".

(** Shape of a snapshot: each level that is present is a dictionary, and
    a [session_state] that is present is a string. *)
Definition wf_props (props : value) : bool :=
  match props with
  | VDict d =>
      match dict_get "session_state" d with
      | None | Some (VStr _) => true
      | Some _ => false
      end
  | _ => false
  end.

Definition wf_level (k : string) (wf_inner : dict value -> bool) (v : value) : bool :=
  match v with
  | VDict d =>
      match dict_get k d with
      | None => true
      | Some (VDict d') => wf_inner d'
      | Some _ => false
      end
  | _ => false
  end.

Definition wf_vrf (vrf_data : value) : bool :=
  wf_level "neighbor" (forallb (fun item => wf_props (snd item))) vrf_data.

Definition wf_snapshot (bgp_info : value) : bool :=
  wf_level "instance"
    (fun instance =>
       wf_level "default"
         (fun default =>
            wf_level "vrf" (forallb (fun item => wf_vrf (snd item))) (VDict default))
         (VDict instance))
    bgp_info.

Definition wf_sessions (sessions : dict value) : bool :=
  forallb (fun item => wf_snapshot (snd item)) sessions.

End Spec.

(** The failures recorded for [device] while the neighbours [ns] are
    walked in order, starting from the index [fd]. *)
Definition record_failures (device : string) (ns : list (string * string * value))
    (fd : dict (dict value)) : dict (dict value) :=
  fold_left
    (fun fd n => if Spec.failing n then record_failure device (snd (fst n)) (snd n) fd else fd)
    ns fd.

(** Rows of all the snapshots of [sessions], device by device. *)
Definition rows_of_sessions (sessions : dict value) : list (list string) :=
  flat_map (fun item => map Spec.row_of (Spec.neighbors_of (snd item))) sessions.

(** The failure index after all the snapshots of [sessions]. *)
Definition failures_of_sessions (sessions : dict value) (fd : dict (dict value))
  : dict (dict value) :=
  fold_left (fun fd item => record_failures (fst item) (Spec.neighbors_of (snd item)) fd)
    sessions fd.

(** What [check_bgp_loop] logs for [sessions] when the table holds
    [rows] on entry: for each device its heading and the table as it
    stands after the device. *)
Fixpoint device_reports (sessions : dict value) (rows : list (list string))
  : list log_record :=
  match sessions with
  | [] => []
  | (device, bgp_info) :: rest =>
      let rows' := (rows ++ map Spec.row_of (Spec.neighbors_of bgp_info))%list in
      Info (Text ("Device " ++ device ++ " BGP Neighbors:" ++ newline))
      :: Info (Tabulate rows' table_headers "orgtbl")
      :: device_reports rest rows'
  end.

(** The world with [records] appended to its log. *)
Definition logged (records : list log_record) (w : world) : world :=
  World (log w ++ records) (connect_calls w) (learn_calls w)
        (parameters_testbed w) (parameters_devices w) (all_bgp_sessions w).

(** The failing neighbours of [sessions] as (device, address, attributes),
    in the order the loops meet them. *)
Definition failure_events (sessions : dict value) : list (string * string * value) :=
  flat_map
    (fun item =>
       map (fun n => (fst item, snd (fst n), snd n))
           (filter Spec.failing (Spec.neighbors_of (snd item))))
    sessions.

Definition record_events (events : list (string * string * value))
    (fd : dict (dict value)) : dict (dict value) :=
  fold_left (fun fd e => record_failure (fst (fst e)) (snd (fst e)) (snd e) fd) events fd.

(** The assignments that reach the dictionary of [device]. *)
Definition assign_for (device : string) (inner : dict value)
    (e : string * string * value) : dict value :=
  if String.eqb device (fst (fst e)) then dict_set (snd (fst e)) (snd e) inner else inner.

(* ================================================================= *)
(** ** Example snapshots *)

Module Examples.

(** A snapshot with the given VRFs under the default instance. *)
Definition snapshot (vrfs : dict value) : value :=
  VDict [("instance", VDict [("default", VDict [("vrf", VDict vrfs)])])].

(** A VRF with one neighbour in the given session state. *)
Definition vrf_with (nbr state : string) : value :=
  VDict [("neighbor", VDict [(nbr, VDict [("session_state", VStr state)])])].

Definition R1_established : value := snapshot [("default", vrf_with "10.0.0.1" "Established")].
Definition R2_idle : value := snapshot [("default", vrf_with "10.0.0.2" "Idle")].

(** The world a testcase starts [check_bgp] in when [learn_bgp] has
    stored [sessions]. *)
Definition world_with (sessions : dict value) : world :=
  World [] [] [] None None (Some sessions).

End Examples.

Module Examples2.

Definition idle_props : value :=
  VDict [("session_state", VStr "Idle"); ("remote_as", VInt 65001)].

Definition active_props : value :=
  VDict [("session_state", VStr "Active"); ("remote_as", VInt 65002)].

(** One device, the address 10.0.0.9 under the VRFs default and blue. *)
Definition R1_two_vrfs : value :=
  Examples.snapshot
    [("default", VDict [("neighbor", VDict [("10.0.0.9", idle_props)])]);
     ("blue", VDict [("neighbor", VDict [("10.0.0.9", active_props)])])].

End Examples2.

Module Examples3.

Definition R1 : Device := mkDevice "R1" None (LearnInfo Examples.R1_established).

(** A device whose [connect()] raises. *)
Definition R2_unreachable : Device :=
  mkDevice "R2" (Some ("ConnectionError", "timed out")) LearnNothing.

(** A device that connects but for which [learn()] leaves no [info]. *)
Definition R2_silent : Device := mkDevice "R2" None LearnNothing.

Definition R3 : Device := mkDevice "R3" None (LearnInfo Examples.R2_idle).

Definition fresh_world : world := World [] [] [] None None None.

End Examples3.

(** The snapshots stored by [learn_bgp] for devices that all yield one. *)
Definition collect (devices : list Device) (sessions : dict value) : dict value :=
  fold_left
    (fun sessions d =>
       match learns d with
       | LearnInfo info => dict_set (name d) info sessions
       | _ => sessions
       end)
    devices sessions.

Definition connect_banner (d : Device) : log_record :=
  Info (Banner ("Connecting to device '" ++ name d ++ "'")).

Definition learn_banner (d : Device) : log_record :=
  Info (Banner ("Gathering BGP Information from " ++ name d)).

(* ================================================================= *)
(** ** [check_bgp] over a store of objects

    The embedding above treats a snapshot as a value.  To speak about
    what [check_bgp] does to the objects it is given, the same section is
    embedded a second time over a store: dictionaries and lists are
    objects with an identity, a dictionary holds references to them, and
    assignment writes to the store. *)

Module Store.

Definition ref : Type := nat.

(** What a variable or a dictionary slot holds: an immutable value, or a
    reference to an object of the store. *)
Inductive hvalue : Type :=
| HNone
| HBool (b : bool)
| HInt (z : Z)
| HStr (s : string)
| HRef (r : ref).

Inductive object : Type :=
| ODict (d : dict hvalue)
| OList (l : list hvalue).

(** The object with reference [r] is the [r]-th one. *)
Definition store : Type := list object.

(** Log records.  The argument of [json.dumps] is kept as the root
    reference together with the store it is read from. *)
Inductive record : Type :=
| LogInfo (m : message)
| LogErrorJson (obj : hvalue) (h : store) (indent : nat).

Record state : Type := State {
  heap : store;
  emitted : list record   (* oldest first *)
}.

Definition M (A : Type) : Type := Aetest.M state A.

Fixpoint update {A : Type} (i : nat) (x : A) (l : list A) : list A :=
  match l, i with
  | [], _ => []
  | _ :: l', O => x :: l'
  | y :: l', S i' => y :: update i' x l'
  end.

(** A new object; its reference is the next free one. *)
Definition alloc (o : object) : M hvalue :=
  fun s => (Return (HRef (length (heap s))), State (heap s ++ [o])%list (emitted s)).

(** The items of the dictionary [v] refers to.  Anything else has none of
    the dictionary methods: looking up [attr] on it fails. *)
Definition read_dict (attr : string) (v : hvalue) : M (dict hvalue) :=
  fun s =>
    match v with
    | HRef r =>
        match nth_error (heap s) r with
        | Some (ODict d) => (Return d, s)
        | _ => (attribute_error attr, s)
        end
    | _ => (attribute_error attr, s)
    end.

(** Replace the items of the dictionary [v] refers to. *)
Definition write_dict (v : hvalue) (d : dict hvalue) : M unit :=
  fun s =>
    match v with
    | HRef r => (Return tt, State (update r (ODict d) (heap s)) (emitted s))
    | _ => (Raise (PyException "TypeError" "item assignment"), s)
    end.

Definition log_info (m : message) : M unit :=
  fun s => (Return tt, State (heap s) (emitted s ++ [LogInfo m])).

Definition log_error_json (obj : hvalue) (indent : nat) : M unit :=
  fun s => (Return tt, State (heap s) (emitted s ++ [LogErrorJson obj (heap s) indent])).

(** [v.get(k, {})]: the method is looked up on [v], then the default, a
    new empty dictionary, is built, then the call is made. *)
Definition get_or_new (k : string) (v : hvalue) : M hvalue :=
  d <- read_dict "get" v ;;
  default <- alloc (ODict []) ;;
  ret (get_default k default d).

(** [for k, x in v.items(): body].  The iterator walks the positions of
    the dictionary as it is in the store at each step, and raises when
    the number of items is no longer [len], the number when the loop was
    entered. *)
Fixpoint for_items {B : Type} (fuel i len : nat) (v : hvalue)
    (body : B -> string * hvalue -> M B) (b : B) : M B :=
  match fuel with
  | O => ret b
  | S fuel' =>
      d <- read_dict "items" v ;;
      if Nat.eqb (length d) len
      then match nth_error d i with
           | Some item => b' <- body b item ;; for_items fuel' (S i) len v body b'
           | None => ret b
           end
      else raise (PyException "RuntimeError" "dictionary changed size during iteration")
  end.

Definition for_each_item {B : Type} (v : hvalue)
    (body : B -> string * hvalue -> M B) (b : B) : M B :=
  d <- read_dict "items" v ;;
  for_items (S (length d)) 0 (length d) v body b.

(** The locals of [check_bgp]: [failed_dict] refers to a dictionary of
    the store; [results_table] and its rows are lists of strings built by
    the section, kept as a value. *)
Record locals : Type := Locals {
  failed_dict : hvalue;
  results_table : list (list string)
}.

(** [failed_dict.setdefault(device, {})[nbr] = props]. *)
Definition record_failure (failed_dict : hvalue) (device nbr : string) (props : hvalue)
  : M unit :=
  fd <- read_dict "setdefault" failed_dict ;;
  default <- alloc (ODict []) ;;
  inner <- match dict_get device fd with
           | Some v => ret v
           | None => write_dict failed_dict (dict_set device default fd) ;; ret default
           end ;;
  inner_items <- read_dict "__setitem__" inner ;;
  write_dict inner (dict_set nbr props inner_items).

(** [props.get('session_state', 'Unknown').lower()]. *)
Definition session_state (props : hvalue) : M string :=
  d <- read_dict "get" props ;;
  match get_default "session_state" (HStr "Unknown") d with
  | HStr s => ret (lower s)
  | _ => lift (attribute_error "lower")
  end.

Definition check_neighbor (device vrf_name : string) (st : locals)
    (item : string * hvalue) : M locals :=
  let '(nbr, props) := item in
  state <- session_state props ;;
  let result := if String.eqb state "established" then "Passed" else "Failed" in
  (if String.eqb result "Failed"
   then record_failure (failed_dict st) device nbr props
   else ret tt) ;;
  ret (Locals (failed_dict st)
              (results_table st ++ [[vrf_name; nbr; capitalize state; result]])).

Definition check_vrf (device : string) (st : locals) (item : string * hvalue)
  : M locals :=
  let '(vrf_name, vrf_data) := item in
  neighbors <- get_or_new "neighbor" vrf_data ;;
  for_each_item neighbors (check_neighbor device vrf_name) st.

Definition check_device (st : locals) (item : string * hvalue) : M locals :=
  let '(device, bgp_info) := item in
  instance <- get_or_new "instance" bgp_info ;;
  default <- get_or_new "default" instance ;;
  vrfs_dict <- get_or_new "vrf" default ;;
  st' <- for_each_item vrfs_dict (check_vrf device) st ;;
  log_info (Text ("Device " ++ device ++ " BGP Neighbors:" ++ newline)) ;;
  log_info (Tabulate (results_table st') table_headers "orgtbl") ;;
  ret st'.

(** Lines 75-97, for [self.all_bgp_sessions] holding [all_bgp_sessions]. *)
Definition check_bgp_loop (all_bgp_sessions : hvalue) : M locals :=
  failed_dict <- alloc (ODict []) ;;
  for_each_item all_bgp_sessions check_device (Locals failed_dict []).

Definition check_bgp (all_bgp_sessions : hvalue) : M unit :=
  st <- check_bgp_loop all_bgp_sessions ;;
  fd <- read_dict "__bool__" (failed_dict st) ;;
  if truthy fd
  then log_error_json (failed_dict st) 3 ;;
       failed "Some BGP neighbors are not established." []
  else passed "All BGP neighbors are established." [].

(** A reference is old when it is below [n], the size of the store
    before the section ran. *)
Definition old (n : nat) (v : hvalue) : Prop :=
  match v with
  | HRef r => r < n
  | _ => True
  end.

Definition contents (o : object) : list hvalue :=
  match o with
  | ODict d => map snd d
  | OList l => l
  end.

(** A store without dangling references. *)
Definition closed (h : store) : Prop :=
  forall o v, In o h -> In v (contents o) -> old (length h) v.

(** Put a value into the store, object by object, and return what refers
    to it. *)
Fixpoint load (v : value) (h : store) : hvalue * store :=
  match v with
  | VNone => (HNone, h)
  | VBool b => (HBool b, h)
  | VInt z => (HInt z, h)
  | VStr s => (HStr s, h)
  | VList l =>
      let '(hl, h') :=
        (fix load_all (l : list value) (h : store) : list hvalue * store :=
           match l with
           | [] => ([], h)
           | x :: l' =>
               let '(hx, h1) := load x h in
               let '(hl, h2) := load_all l' h1 in
               (hx :: hl, h2)
           end) l h in
      (HRef (length h'), (h' ++ [OList hl])%list)
  | VDict d =>
      let '(hd, h') :=
        (fix load_items (d : list (string * value)) (h : store)
           : dict hvalue * store :=
           match d with
           | [] => ([], h)
           | (k, x) :: d' =>
               let '(hx, h1) := load x h in
               let '(hd, h2) := load_items d' h1 in
               ((k, hx) :: hd, h2)
           end) d h in
      (HRef (length h'), (h' ++ [ODict hd])%list)
  end.

(** The invariant of the section, relative to the store [h0] before it
    ran and the reference [fdr] of [failed_dict]: the objects of [h0] are
    untouched, and [failed_dict] is a new dictionary whose values are
    newer dictionaries that hold [Good] values only. *)
Definition Inv (h0 : store) (fdr : ref) (Good : hvalue -> Prop) (h : store) : Prop :=
  (forall r, r < length h0 -> nth_error h r = nth_error h0 r)
  /\ length h0 <= fdr
  /\ exists fd,
       nth_error h fdr = Some (ODict fd)
       /\ forall k v, In (k, v) fd ->
            exists r inner,
              v = HRef r /\ fdr < r
              /\ nth_error h r = Some (ODict inner)
              /\ forall k' p, In (k', p) inner -> Good p.

(** [c] keeps the invariant, also when it raises, and establishes [Q]
    when it returns from a state that satisfies [P]. *)
Definition triple (h0 : store) (fdr : ref) (Good : hvalue -> Prop) {A : Type}
    (P : state -> Prop) (c : M A) (Q : A -> state -> Prop) : Prop :=
  forall s, Inv h0 fdr Good (heap s) -> P s ->
    Inv h0 fdr Good (heap (snd (c s)))
    /\ forall a, fst (c s) = Return a -> Q a (snd (c s)).

(** A value that is good, or refers to a dictionary that is empty for
    the time being. *)
Definition good_or_empty (Good : hvalue -> Prop) (v : hvalue) (s : state) : Prop :=
  Good v \/ exists r, v = HRef r /\ nth_error (heap s) r = Some (ODict []).

(** [closed], as a test. *)
Definition closedb (h : store) : bool :=
  forallb
    (fun o =>
       forallb
         (fun v => match v with
                   | HRef r => Nat.ltb r (length h)
                   | _ => true
                   end)
         (contents o))
    h.

(** The snapshots of two devices in a store: R1 with an established
    neighbour, R2 with an idle one. *)
Definition example_sessions : hvalue * store :=
  Eval vm_compute in
    load (VDict [("R1", Examples.R1_established); ("R2", Examples.R2_idle)]) [].

Definition example_state : state := State (snd example_sessions) [].

(** [repr h pv v]: in the store [h], [v] holds the value [pv]. *)
Fixpoint repr (h : store) (pv : value) (v : hvalue) {struct pv} : Prop :=
  match pv with
  | VNone => v = HNone
  | VBool b => v = HBool b
  | VInt z => v = HInt z
  | VStr s => v = HStr s
  | VList l =>
      exists r hl,
        v = HRef r /\ nth_error h r = Some (OList hl)
        /\ (fix repr_all (l : list value) (hl : list hvalue) : Prop :=
              match l, hl with
              | [], [] => True
              | p :: l', x :: hl' => repr h p x /\ repr_all l' hl'
              | _, _ => False
              end) l hl
  | VDict d =>
      exists r hd,
        v = HRef r /\ nth_error h r = Some (ODict hd)
        /\ (fix repr_all (d : list (string * value)) (hd : dict hvalue) : Prop :=
              match d, hd with
              | [], [] => True
              | (k, p) :: d', (k', x) :: hd' => k = k' /\ repr h p x /\ repr_all d' hd'
              | _, _ => False
              end) d hd
  end.

(** The items [hd] hold the items [d]: same keys in the same order, and
    each slot holds the value. *)
Definition repr_items (h : store) (d : dict value) (hd : dict hvalue) : Prop :=
  Forall2 (fun a b => fst a = fst b /\ repr h (snd a) (snd b)) d hd.

(** A value met while a snapshot is walked: it is held by the store
    [h0] the section started in, or it is the default of a [get], an
    empty dictionary the section has just built. *)
Definition vrel (h0 : store) (s : state) (p : value) (x : hvalue) : Prop :=
  repr h0 p x
  \/ (p = VDict [] /\ exists r, x = HRef r /\ nth_error (heap s) r = Some (ODict [])).

(** An entry of the failure index as a value and in the store. *)
Definition entry_rel (h0 h : store) (fdr : ref)
    (a : string * dict value) (b : string * hvalue) : Prop :=
  fst a = fst b
  /\ exists r inner,
       snd b = HRef r /\ fdr < r
       /\ nth_error h r = Some (ODict inner)
       /\ repr_items h0 (snd a) inner.

(** The store [h] during the section, started in [h0], when the failure
    index is [fd] as a value: the objects of [h0] are untouched and the
    dictionary at [fdr] holds [fd], each device in a dictionary of its
    own. *)
Definition SInv (h0 : store) (fdr : ref) (fd : dict (dict value)) (h : store) : Prop :=
  (forall r, r < length h0 -> nth_error h r = nth_error h0 r)
  /\ length h0 <= fdr
  /\ exists fd_s,
       nth_error h fdr = Some (ODict fd_s)
       /\ Forall2 (entry_rel h0 h fdr) fd fd_s
       /\ NoDup (map snd fd_s).

End Store.

(* ================================================================= *)
(** ** The two embeddings of [check_bgp] side by side *)

(** The locals as values and in the store. *)
Definition lrel (h0 : Store.store) (fdr : Store.ref) (st : locals)
    (st_s : Store.locals) (s : Store.state) : Prop :=
  Store.failed_dict st_s = Store.HRef fdr
  /\ Store.results_table st_s = results_table st
  /\ Store.SInv h0 fdr (failed_dict st) (Store.heap s).

(** The outcome of a loop body over values and the result of the same
    body over the store: both return, with related locals, or both raise
    the same exception. *)
Definition simres (h0 : Store.store) (fdr : Store.ref) (o : outcome locals)
    (res : outcome Store.locals * Store.state) : Prop :=
  match o with
  | Return st => exists st_s, fst res = Return st_s /\ lrel h0 fdr st st_s (snd res)
  | Raise e => fst res = Raise e
  end.

(** After a run started in [h0] that left the store [h]: the locals in
    the store hold the rows and the failure index of the locals [st]. *)
Definition locals_held (h0 h : Store.store) (st : locals) (st_s : Store.locals) : Prop :=
  Store.results_table st_s = results_table st
  /\ Store.failed_dict st_s = Store.HRef (length h0)
  /\ exists fd_s,
       nth_error h (length h0) = Some (Store.ODict fd_s)
       /\ Forall2 (Store.entry_rel h0 h (length h0)) (failed_dict st) fd_s.

(** The loop of [check_bgp] over values without its logging: the
    outcome of the lookups and loops, device after device. *)
Definition check_snapshots (sessions : dict value) (st : locals) : outcome locals :=
  foldM (fun st item => check_snapshot (fst item) (snd item) st) sessions st.

(* ================================================================= *)
(** ** Further vocabulary for the properties of the sections *)

(** The snapshot [learn()] leaves for [d], when it leaves one. *)
Definition snapshot_of (d : Device) : value :=
  match learns d with
  | LearnInfo info => info
  | _ => VNone
  end.

(** The dictionary [learn_bgp] builds from devices with distinct names
    that all yield a snapshot. *)
Definition sessions_of (devices : list Device) : dict value :=
  map (fun d => (name d, snapshot_of d)) devices.

Definition is_dict (v : value) : bool :=
  match v with
  | VDict _ => true
  | _ => false
  end.

Definition is_str (v : value) : bool :=
  match v with
  | VStr _ => true
  | _ => false
  end.

(** A device of [all_bgp_sessions] with a failing neighbour. *)
Definition has_failure (item : string * value) : bool :=
  existsb Spec.failing (Spec.neighbors_of (snd item)).

(** The last cell of a row of the table. *)
Definition result_cell (row : list string) : string := last row "".

(** A device whose [learn()] raises. *)
Definition R2_broken : Device := mkDevice "R2" None (LearnRaises "SchemaError" "bad output").

Definition is_info (r : log_record) : bool :=
  match r with
  | Info _ => true
  | Error _ => false
  end.

Definition is_attribute_error (e : exn) : Prop :=
  exists attr, e = PyException "AttributeError" attr.

(** A loop body whose raising depends on the item only: for an item it
    raises the same exception from every accumulator, or returns from
    every accumulator. *)
Definition steady {A B : Type} (f : B -> A -> outcome B) : Prop :=
  forall x, (exists e, forall b, f b x = Raise e) \/ (forall b, exists b', f b x = Return b').

(** Snapshots that break the lookups of [check_bgp]: a level that is
    present but holds no dictionary. *)
Definition instance_is_none : value := VDict [("instance", VNone)].
Definition state_is_none : value :=
  Examples.snapshot
    [("default", VDict [("neighbor", VDict [("10.0.0.3", VDict [("session_state", VNone)])])])].

(* ================================================================= *)
(** ** Facts about dictionaries *)

Open Scope list_scope.

Section DictFacts.
Context {V : Type}.
Implicit Types (d : dict V) (k : string) (v : V).

Lemma dict_get_set_same k v d :
  dict_get k (dict_set k v d) = Some v.
Proof.
  induction d as [|[k' v'] d IH]; simpl.
  - now rewrite String.eqb_refl.
  - destruct (String.eqb k k') eqn:E; simpl; rewrite E; auto.
Qed.

Lemma dict_get_set_other k k' v d :
  k <> k' -> dict_get k (dict_set k' v d) = dict_get k d.
Proof.
  intros Hne. induction d as [|[k0 v0] d IH]; simpl.
  - apply String.eqb_neq in Hne. now rewrite Hne.
  - destruct (String.eqb k' k0) eqn:E; simpl.
    + apply String.eqb_eq in E. subst k0.
      apply String.eqb_neq in Hne. now rewrite Hne.
    + now rewrite IH.
Qed.

Lemma dict_get_set k k' v d :
  dict_get k (dict_set k' v d)
  = if String.eqb k k' then Some v else dict_get k d.
Proof.
  destruct (String.eqb k k') eqn:E.
  - apply String.eqb_eq in E. subst. apply dict_get_set_same.
  - apply String.eqb_neq in E. now apply dict_get_set_other.
Qed.

Lemma dict_get_None k d : dict_get k d = None <-> ~ In k (keys d).
Proof.
  induction d as [|[k' v'] d IH]; simpl.
  - tauto.
  - destruct (String.eqb k k') eqn:E.
    + apply String.eqb_eq in E. subst. split; [discriminate | tauto].
    + apply String.eqb_neq in E. rewrite IH. split.
      * intros H [H1 | H1]; [now subst | tauto].
      * tauto.
Qed.

Lemma dict_get_Some_In k v d : dict_get k d = Some v -> In (k, v) d.
Proof.
  induction d as [|[k' v'] d IH]; simpl; [discriminate|].
  destruct (String.eqb k k') eqn:E.
  - apply String.eqb_eq in E. intros [= ->]. subst. now left.
  - intros H. right. auto.
Qed.

Lemma dict_get_In_keys k d : In k (keys d) <-> exists v, dict_get k d = Some v.
Proof.
  destruct (dict_get k d) eqn:E.
  - split; [eauto|]. intros _. apply dict_get_Some_In in E.
    unfold keys. apply in_map_iff. now exists (k, v).
  - apply dict_get_None in E. split; [tauto|]. intros [v Hv]. discriminate.
Qed.

Lemma keys_dict_set k k' v d :
  In k (keys (dict_set k' v d)) <-> k = k' \/ In k (keys d).
Proof.
  rewrite !dict_get_In_keys, dict_get_set.
  destruct (String.eqb k k') eqn:E.
  - apply String.eqb_eq in E. split; eauto.
  - apply String.eqb_neq in E. split; [eauto|]. intros [H | H]; [contradiction | assumption].
Qed.

Lemma keys_dict_set_present k v d :
  In k (keys d) -> keys (dict_set k v d) = keys d.
Proof.
  induction d as [|[k' v'] d IH]; simpl; [tauto|].
  destruct (String.eqb k k') eqn:E; simpl; [reflexivity|].
  apply String.eqb_neq in E.
  intros [H | H]; [congruence|]. now rewrite IH.
Qed.

Lemma keys_dict_set_absent k v d :
  ~ In k (keys d) -> keys (dict_set k v d) = (keys d ++ [k])%list.
Proof.
  induction d as [|[k' v'] d IH]; simpl; [reflexivity|].
  intros H. destruct (String.eqb k k') eqn:E.
  - apply String.eqb_eq in E. subst. tauto.
  - simpl. rewrite IH; tauto.
Qed.

(** Assignment keeps the keys of a dictionary distinct. *)
Lemma NoDup_keys_dict_set k v d :
  NoDup (keys d) -> NoDup (keys (dict_set k v d)).
Proof.
  intros Hnd. destruct (in_dec string_dec k (keys d)) as [Hin | Hnin].
  - now rewrite keys_dict_set_present.
  - rewrite keys_dict_set_absent by assumption.
    apply NoDup_app; repeat split; auto.
    + constructor; [simpl; tauto | constructor].
    + intros x Hx [<- | []]. contradiction.
Qed.

Lemma truthy_true d : truthy d = true <-> d <> [].
Proof. destruct d; simpl; split; congruence. Qed.

Lemma dict_set_not_empty k v d : dict_set k v d <> [].
Proof.
  destruct d as [|[k' v'] d]; simpl; [discriminate|].
  destruct (String.eqb k k'); discriminate.
Qed.

Lemma in_dict_set k v k' v' d :
  In (k, v) (dict_set k' v' d) -> (k = k' /\ v = v') \/ In (k, v) d.
Proof.
  induction d as [|[k0 v0] d IH]; simpl.
  - intros [[= -> ->] | []]. now left.
  - destruct (String.eqb k' k0) eqn:E; simpl.
    + apply String.eqb_eq in E. subst k0.
      intros [[= -> ->] | H]; [now left | right; now right].
    + intros [H | H]; [right; now left|].
      destruct (IH H) as [H' | H']; [now left | right; now right].
Qed.

End DictFacts.

(* ================================================================= *)
(** ** The loops of [check_bgp] on well-formed snapshots *)

Section CheckLoops.
Variable device : string.

Lemma wf_props_state props :
  Spec.wf_props props = true ->
  (raw <- py_get "session_state" (VStr "Unknown") props ;; py_lower raw)
  = Return (lower (Spec.session_state props)).
Proof.
  destruct props as [| | | | |d]; simpl; try discriminate.
  unfold get_default.
  destruct (dict_get "session_state" d) as [[]|]; simpl; congruence.
Qed.

Lemma check_neighbor_wf vrf_name st nbr props :
  Spec.wf_props props = true ->
  check_neighbor device vrf_name st (nbr, props)
  = Return (Locals (record_failures device [(vrf_name, nbr, props)] (failed_dict st))
                   (results_table st ++ [Spec.row_of (vrf_name, nbr, props)])).
Proof.
  intros Hwf. unfold check_neighbor.
  pose proof (wf_props_state props Hwf) as Hs. simpl in Hs.
  destruct props as [| | | | |d]; simpl in *; try discriminate.
  destruct (get_default "session_state" (VStr "Unknown") d); simpl in *; try discriminate.
  injection Hs as Hs. rewrite Hs.
  unfold Spec.failing, Spec.verdict, Spec.session_state; simpl.
  destruct (String.eqb (lower _) "established"); reflexivity.
Qed.

Lemma record_failures_app ns1 ns2 fd :
  record_failures device (ns1 ++ ns2) fd
  = record_failures device ns2 (record_failures device ns1 fd).
Proof. unfold record_failures. apply fold_left_app. Qed.

Lemma check_neighbors_wf vrf_name nbrs : forall st,
  forallb (fun item => Spec.wf_props (snd item)) nbrs = true ->
  foldM (check_neighbor device vrf_name) nbrs st
  = Return (Locals
      (record_failures device
         (map (fun '(nbr, props) => (vrf_name, nbr, props)) nbrs) (failed_dict st))
      (results_table st
         ++ map Spec.row_of (map (fun '(nbr, props) => (vrf_name, nbr, props)) nbrs))).
Proof.
  induction nbrs as [|[nbr props] nbrs IH]; intros st Hwf.
  - simpl. rewrite app_nil_r. now destruct st.
  - simpl in Hwf. apply andb_prop in Hwf as [Hp Hrest].
    cbn [foldM bind outcome_monad].
    rewrite check_neighbor_wf by assumption.
    rewrite IH by assumption. cbn [failed_dict results_table].
    cbn [map]. rewrite <- app_assoc. reflexivity.
Qed.

Lemma check_vrf_wf vrf_name vrf_data st :
  Spec.wf_vrf vrf_data = true ->
  check_vrf device st (vrf_name, vrf_data)
  = Return (Locals
      (record_failures device
         (map (fun '(nbr, props) => (vrf_name, nbr, props))
              (Spec.entries "neighbor" vrf_data)) (failed_dict st))
      (results_table st
         ++ map Spec.row_of
              (map (fun '(nbr, props) => (vrf_name, nbr, props))
                   (Spec.entries "neighbor" vrf_data)))).
Proof.
  unfold Spec.wf_vrf, Spec.wf_level, check_vrf.
  destruct vrf_data as [| | | | |d]; try discriminate.
  cbn [py_get bind outcome_monad Spec.entries]. unfold get_default.
  destruct (dict_get "neighbor" d) as [[| | | | |nbrs]|]; try discriminate.
  - intros Hwf. cbn [py_items]. now apply check_neighbors_wf.
  - intros _. simpl. rewrite app_nil_r. now destruct st.
Qed.

Lemma check_vrfs_wf vrfs : forall st,
  forallb (fun item => Spec.wf_vrf (snd item)) vrfs = true ->
  let ns :=
    flat_map
      (fun '(vrf_name, vrf_data) =>
         map (fun '(nbr, props) => (vrf_name, nbr, props))
             (Spec.entries "neighbor" vrf_data)) vrfs in
  foldM (check_vrf device) vrfs st
  = Return (Locals (record_failures device ns (failed_dict st))
                   (results_table st ++ map Spec.row_of ns)).
Proof.
  induction vrfs as [|[vrf_name vrf_data] vrfs IH]; intros st Hwf.
  - simpl. rewrite app_nil_r. now destruct st.
  - simpl in Hwf. apply andb_prop in Hwf as [Hv Hrest].
    cbn [foldM bind outcome_monad].
    rewrite check_vrf_wf by assumption.
    cbv zeta in IH. rewrite IH by assumption.
    cbn [failed_dict results_table flat_map].
    rewrite record_failures_app, map_app, <- app_assoc. reflexivity.
Qed.

(** On a well-formed snapshot the lookups and loops for a device
    return, having appended the rows of its neighbours and recorded
    the failing ones. *)
Lemma check_snapshot_wf bgp_info st :
  Spec.wf_snapshot bgp_info = true ->
  check_snapshot device bgp_info st
  = Return (Locals (record_failures device (Spec.neighbors_of bgp_info) (failed_dict st))
                   (results_table st ++ map Spec.row_of (Spec.neighbors_of bgp_info))).
Proof.
  unfold Spec.wf_snapshot, Spec.wf_level, check_snapshot, Spec.neighbors_of.
  destruct bgp_info as [| | | | |d]; try discriminate.
  cbn [py_get bind outcome_monad Spec.entries]. unfold get_default.
  assert (Hempty : Return (A := locals) st
            = Return (Locals (record_failures device [] (failed_dict st))
                             (results_table st ++ map Spec.row_of []))).
  { simpl. rewrite app_nil_r. now destruct st. }
  destruct (dict_get "instance" d) as [[| | | | |inst]|]; try discriminate;
    [|intros _; exact Hempty].
  cbn [py_get]. unfold get_default.
  destruct (dict_get "default" inst) as [[| | | | |dflt]|]; try discriminate;
    [|intros _; exact Hempty].
  cbn [py_get]. unfold get_default.
  destruct (dict_get "vrf" dflt) as [[| | | | |vrfs]|]; try discriminate;
    [|intros _; exact Hempty].
  intros Hwf. cbn [py_items]. now apply check_vrfs_wf.
Qed.

End CheckLoops.

Lemma logged_nil w : logged [] w = w.
Proof. destruct w. unfold logged. simpl. now rewrite app_nil_r. Qed.

Lemma logged_logged r1 r2 w : logged r2 (logged r1 w) = logged (r1 ++ r2) w.
Proof. unfold logged. simpl. now rewrite app_assoc. Qed.

Lemma log_info_logged m w : log_info m w = (Return tt, logged [Info m] w).
Proof. reflexivity. Qed.

Lemma log_error_logged m w : log_error m w = (Return tt, logged [Error m] w).
Proof. reflexivity. Qed.

Lemma check_device_wf st device bgp_info w :
  Spec.wf_snapshot bgp_info = true ->
  check_device st (device, bgp_info) w
  = (Return (Locals (record_failures device (Spec.neighbors_of bgp_info) (failed_dict st))
                    (results_table st ++ map Spec.row_of (Spec.neighbors_of bgp_info))),
     logged (device_reports [(device, bgp_info)] (results_table st)) w).
Proof.
  intros Hwf. unfold check_device.
  cbn [bind M_monad]. unfold lift.
  rewrite check_snapshot_wf by assumption.
  rewrite !log_info_logged, logged_logged. reflexivity.
Qed.

Lemma device_reports_app s1 s2 rows :
  device_reports (s1 ++ s2) rows
  = (device_reports s1 rows ++ device_reports s2 (rows ++ rows_of_sessions s1))%list.
Proof.
  revert rows. induction s1 as [|[device bgp_info] s1 IH]; intros rows.
  - simpl. now rewrite app_nil_r.
  - cbn [app device_reports]. rewrite IH. unfold rows_of_sessions.
    cbn [flat_map snd]. now rewrite app_assoc.
Qed.

(** The loop over the devices on well-formed snapshots: it returns, with
    the rows of every device appended in order and the failures of every
    device recorded, and logs one heading and one table per device. *)
Lemma check_devices_wf sessions : forall st w,
  Spec.wf_sessions sessions = true ->
  foldM check_device sessions st w
  = (Return (Locals (failures_of_sessions sessions (failed_dict st))
                    (results_table st ++ rows_of_sessions sessions)),
     logged (device_reports sessions (results_table st)) w).
Proof.
  induction sessions as [|[device bgp_info] sessions IH]; intros st w Hwf.
  - simpl. rewrite app_nil_r, logged_nil. now destruct st.
  - simpl in Hwf. apply andb_prop in Hwf as [Hd Hrest].
    cbn [foldM bind M_monad].
    rewrite check_device_wf by assumption.
    rewrite IH by assumption. rewrite logged_logged.
    cbn [failed_dict results_table]. unfold rows_of_sessions, failures_of_sessions.
    cbn [flat_map fold_left fst snd device_reports app].
    now rewrite app_assoc.
Qed.

Lemma check_bgp_loop_wf sessions w :
  all_bgp_sessions w = Some sessions ->
  Spec.wf_sessions sessions = true ->
  check_bgp_loop w
  = (Return (Locals (failures_of_sessions sessions []) (rows_of_sessions sessions)),
     logged (device_reports sessions []) w).
Proof.
  intros Hs Hwf. unfold check_bgp_loop, get_all_bgp_sessions.
  cbn [bind M_monad]. rewrite Hs.
  now rewrite check_devices_wf.
Qed.

(* ================================================================= *)
(** ** The failure index *)

Lemma record_failure_get device' device nbr props fd :
  dict_get device' (record_failure device nbr props fd)
  = if String.eqb device' device
    then Some (dict_set nbr props (get_default device ([] : dict value) fd))
    else dict_get device' fd.
Proof.
  unfold record_failure, setdefault, get_default.
  destruct (dict_get device fd) as [inner|] eqn:E; cbv beta iota.
  - now rewrite dict_get_set.
  - rewrite !dict_get_set. now destruct (String.eqb device' device).
Qed.

Lemma record_failure_keys device' device nbr props fd :
  In device' (keys (record_failure device nbr props fd))
  <-> device' = device \/ In device' (keys fd).
Proof.
  rewrite !dict_get_In_keys, record_failure_get.
  destruct (String.eqb device' device) eqn:E.
  - apply String.eqb_eq in E. split; eauto.
  - apply String.eqb_neq in E. split; [eauto|]. intros [H | H]; [contradiction | assumption].
Qed.

Lemma record_failure_NoDup device nbr props fd :
  NoDup (keys fd) -> NoDup (keys (record_failure device nbr props fd)).
Proof.
  intros H. unfold record_failure, setdefault.
  destruct (dict_get device fd); cbv beta iota; now repeat apply NoDup_keys_dict_set.
Qed.

Lemma record_failures_events device ns : forall fd,
  record_failures device ns fd
  = record_events (map (fun n => (device, snd (fst n), snd n)) (filter Spec.failing ns)) fd.
Proof.
  induction ns as [|n ns IH]; intros fd; [reflexivity|].
  unfold record_failures in *. cbn [fold_left filter].
  destruct (Spec.failing n); rewrite IH; reflexivity.
Qed.

Lemma record_events_app es1 es2 fd :
  record_events (es1 ++ es2) fd = record_events es2 (record_events es1 fd).
Proof. unfold record_events. apply fold_left_app. Qed.

Lemma failures_of_sessions_events sessions : forall fd,
  failures_of_sessions sessions fd = record_events (failure_events sessions) fd.
Proof.
  induction sessions as [|[device info] sessions IH]; intros fd; [reflexivity|].
  unfold failures_of_sessions in *. cbn [fold_left failure_events flat_map fst snd].
  rewrite IH, record_events_app, record_failures_events. reflexivity.
Qed.

Lemma in_failure_events sessions device nbr props :
  In (device, nbr, props) (failure_events sessions)
  <-> exists info vrf_name,
        In (device, info) sessions
        /\ In (vrf_name, nbr, props) (Spec.neighbors_of info)
        /\ Spec.verdict props = "Failed".
Proof.
  unfold failure_events. rewrite in_flat_map. split.
  - intros [[device' info] [Hin He]]. cbn [fst snd] in He.
    apply in_map_iff in He as [[[vrf_name nbr'] props'] [Heq Hn]].
    cbn [fst snd] in Heq. injection Heq as -> -> ->.
    apply filter_In in Hn as [Hn Hf].
    exists info, vrf_name. repeat split; auto.
    unfold Spec.failing in Hf. now apply String.eqb_eq in Hf.
  - intros (info & vrf_name & Hin & Hn & Hf).
    exists (device, info). split; [assumption|]. cbn [fst snd].
    apply in_map_iff. exists (vrf_name, nbr, props). split; [reflexivity|].
    apply filter_In. split; [assumption|].
    unfold Spec.failing. cbn [snd]. now apply String.eqb_eq.
Qed.

(** The index seen from one device: its dictionary receives, in order,
    the assignments of the events of that device. *)
Lemma record_events_inner device es : forall fd,
  get_default device ([] : dict value) (record_events es fd)
  = fold_left (assign_for device) es (get_default device ([] : dict value) fd).
Proof.
  induction es as [|[[device' nbr] props] es IH]; intros fd; [reflexivity|].
  unfold record_events in *. cbn [fold_left fst snd]. rewrite IH. f_equal.
  unfold assign_for, get_default at 1. cbn [fst snd].
  rewrite record_failure_get.
  destruct (String.eqb device device') eqn:E; [|reflexivity].
  apply String.eqb_eq in E. now subst.
Qed.

Lemma record_events_keys device es : forall fd,
  In device (keys (record_events es fd))
  <-> In device (keys fd) \/ exists nbr props, In (device, nbr, props) es.
Proof.
  induction es as [|[[device' nbr] props] es IH]; intros fd.
  - simpl. split; [tauto|]. intros [H | (? & ? & [])]. assumption.
  - unfold record_events in *. cbn [fold_left fst snd]. rewrite IH, record_failure_keys.
    split.
    + intros [[-> | H] | (n & p & H)]; [right | now left | right].
      * exists nbr, props. now left.
      * exists n, p. now right.
    + intros [H | (n & p & [H | H])]; [tauto | | ].
      * injection H as -> -> ->. tauto.
      * right. eauto.
Qed.

Lemma record_events_empty es :
  record_events es [] = [] <-> es = [].
Proof.
  split; [|now intros ->].
  destruct es as [|e es]; [reflexivity|]. intros H. exfalso.
  assert (Hin : In (fst (fst e)) (keys (record_events (e :: es) []))).
  { apply record_events_keys. right. exists (snd (fst e)), (snd e).
    left. now destruct e as [[? ?] ?]. }
  rewrite H in Hin. exact Hin.
Qed.

Section AssignFacts.
Variable device : string.

Lemma assign_keys a es : forall inner,
  In a (keys (fold_left (assign_for device) es inner))
  <-> In a (keys inner) \/ exists props, In (device, a, props) es.
Proof.
  induction es as [|[[device' nbr] props] es IH]; intros inner.
  - simpl. split; [tauto|]. intros [H | (? & [])]. assumption.
  - cbn [fold_left]. rewrite IH. unfold assign_for. cbn [fst snd].
    destruct (String.eqb device device') eqn:E.
    + apply String.eqb_eq in E. subst device'. rewrite keys_dict_set. split.
      * intros [[-> | H] | (p & H)]; [right | now left | right].
        -- exists props. now left.
        -- exists p. now right.
      * intros [H | (p & [H | H])]; [tauto | | ].
        -- injection H as -> ->. tauto.
        -- right. eauto.
    + apply String.eqb_neq in E. split.
      * intros [H | (p & H)]; [now left | right]. exists p. now right.
      * intros [H | (p & [H | H])]; [now left | | ].
        -- injection H as -> _ _. contradiction.
        -- right. eauto.
Qed.

Lemma assign_NoDup es : forall inner,
  NoDup (keys inner) -> NoDup (keys (fold_left (assign_for device) es inner)).
Proof.
  induction es as [|e es IH]; intros inner H; [assumption|].
  cbn [fold_left]. apply IH. unfold assign_for.
  destruct (String.eqb device _); [now apply NoDup_keys_dict_set | assumption].
Qed.

(** Events that do not assign to [a] leave its value alone. *)
Lemma assign_get_untouched a es : forall inner,
  (forall props, ~ In (device, a, props) es) ->
  dict_get a (fold_left (assign_for device) es inner) = dict_get a inner.
Proof.
  induction es as [|[[device' nbr] props] es IH]; intros inner Hno; [reflexivity|].
  cbn [fold_left]. rewrite IH.
  - unfold assign_for. cbn [fst snd].
    destruct (String.eqb device device') eqn:E; [|reflexivity].
    apply String.eqb_eq in E. subst device'.
    apply dict_get_set_other. intros ->. apply (Hno props). now left.
  - intros p Hp. apply (Hno p). now right.
Qed.

(** The last assignment to [a] is the one that is read back. *)
Lemma assign_get_last a props es1 es2 inner :
  (forall props', ~ In (device, a, props') es2) ->
  dict_get a (fold_left (assign_for device) (es1 ++ (device, a, props) :: es2) inner)
  = Some props.
Proof.
  intros Hno. rewrite fold_left_app. cbn [fold_left].
  rewrite assign_get_untouched by assumption.
  unfold assign_for. cbn [fst snd]. rewrite String.eqb_refl.
  apply dict_get_set_same.
Qed.

(** Every value read back was assigned by some event, or was there. *)
Lemma assign_get_source a props es : forall inner,
  dict_get a (fold_left (assign_for device) es inner) = Some props ->
  dict_get a inner = Some props \/ In (device, a, props) es.
Proof.
  induction es as [|[[device' nbr] props'] es IH]; intros inner H; [now left|].
  cbn [fold_left] in H. apply IH in H as [H | H]; [|right; now right].
  unfold assign_for in H. cbn [fst snd] in H.
  destruct (String.eqb device device') eqn:E; [|now left].
  apply String.eqb_eq in E. subst device'.
  rewrite dict_get_set in H.
  destruct (String.eqb a nbr) eqn:E'; [|now left].
  apply String.eqb_eq in E'. subst nbr. injection H as ->. right. now left.
Qed.

End AssignFacts.

(* ================================================================= *)
(** ** The verdict of a neighbour *)

Lemma lower_examples_established :
  forall s, In s ["Established"; "ESTABLISHED"; "established"] -> lower s = "established".
Proof. intros s [<- | [<- | [<- | []]]]; reflexivity. Qed.

Lemma lower_examples_other :
  forall s, In s ["idle"; "active"; ""; "Idle"; "Active"; "Unknown"] ->
            lower s <> "established".
Proof. intros s [<- | [<- | [<- | [<- | [<- | [<- | []]]]]]]; discriminate. Qed.

(** C3.  The verdict of a neighbour is [Passed] exactly when its
    [session_state], lower-cased, is the string [established], and
    [Failed] for every other string; without a [session_state] field the
    state is the sentinel [Unknown] and the verdict is [Failed].  In both
    cases the neighbour gets its row, and a failing one is recorded.
    The strings Established, ESTABLISHED and established lower-case to
    [established]; idle, active and the empty string do not. *)
Theorem verdict_passed_iff_established
    (device vrf_name nbr : string) (st : locals) (d : dict value) :
  (forall s, dict_get "session_state" d = Some (VStr s) ->
     exists verdict,
       check_neighbor device vrf_name st (nbr, VDict d)
       = Return (Locals
           (if String.eqb verdict "Failed"
            then record_failure device nbr (VDict d) (failed_dict st)
            else failed_dict st)
           (results_table st ++ [[vrf_name; nbr; capitalize (lower s); verdict]]))
       /\ (verdict = "Passed" <-> lower s = "established")
       /\ (verdict = "Failed" <-> lower s <> "established"))
  /\ (dict_get "session_state" d = None ->
      check_neighbor device vrf_name st (nbr, VDict d)
      = Return (Locals
          (record_failure device nbr (VDict d) (failed_dict st))
          (results_table st ++ [[vrf_name; nbr; "Unknown"; "Failed"]])))
  /\ (forall s, In s ["Established"; "ESTABLISHED"; "established"] ->
        lower s = "established")
  /\ (forall s, In s ["idle"; "active"; ""] -> lower s <> "established").
Proof.
  split; [|split; [|split]].
  - intros s Hs.
    exists (if String.eqb (lower s) "established" then "Passed" else "Failed").
    split; [|split].
    + unfold check_neighbor. cbn [py_get bind outcome_monad]. unfold get_default.
      rewrite Hs. cbn [py_lower ret].
      destruct (String.eqb (lower s) "established"); reflexivity.
    + destruct (String.eqb (lower s) "established") eqn:E.
      * apply String.eqb_eq in E. tauto.
      * apply String.eqb_neq in E. split; [discriminate | contradiction].
    + destruct (String.eqb (lower s) "established") eqn:E.
      * apply String.eqb_eq in E. split; [discriminate | contradiction].
      * apply String.eqb_neq in E. tauto.
  - intros Hs. unfold check_neighbor. cbn [py_get bind outcome_monad].
    unfold get_default. rewrite Hs. reflexivity.
  - apply lower_examples_established.
  - intros s Hs. apply lower_examples_other. simpl in *. tauto.
Qed.

Lemma verdict_passed_iff_established_witness :
  exists verdict,
    check_neighbor "R1" "default" (Locals [] [])
      ("10.0.0.2", VDict [("session_state", VStr "Idle")])
    = Return (Locals
        (if String.eqb verdict "Failed"
         then record_failure "R1" "10.0.0.2" (VDict [("session_state", VStr "Idle")]) []
         else [])
        ([] ++ [["default"; "10.0.0.2"; capitalize (lower "Idle"); verdict]]))
    /\ (verdict = "Passed" <-> lower "Idle" = "established")
    /\ (verdict = "Failed" <-> lower "Idle" <> "established").
Proof.
  exact (proj1 (verdict_passed_iff_established "R1" "default" "10.0.0.2" (Locals [] [])
                  [("session_state", VStr "Idle")]) "Idle" eq_refl).
Defined.

(* ================================================================= *)
(** ** Missing levels of a snapshot *)

(** C5.  A snapshot without the [instance] key, without the default
    routing instance or without its [vrf] dictionary makes the lookups and
    loops of its device return with both locals untouched; a VRF without
    [neighbor] dictionary makes its loop body return with both locals
    untouched.  No exception is raised in any of the four cases. *)
Theorem missing_level_is_zero_neighbors (device : string) (st : locals) :
  (forall d,
     dict_get "instance" d = None ->
     check_snapshot device (VDict d) st = Return st)
  /\ (forall d instance,
        dict_get "instance" d = Some (VDict instance) ->
        dict_get "default" instance = None ->
        check_snapshot device (VDict d) st = Return st)
  /\ (forall d instance default,
        dict_get "instance" d = Some (VDict instance) ->
        dict_get "default" instance = Some (VDict default) ->
        dict_get "vrf" default = None ->
        check_snapshot device (VDict d) st = Return st)
  /\ (forall vrf_name d,
        dict_get "neighbor" d = None ->
        check_vrf device st (vrf_name, VDict d) = Return st).
Proof.
  repeat split.
  - intros d H. unfold check_snapshot. cbn [py_get bind outcome_monad].
    unfold get_default. rewrite H. reflexivity.
  - intros d instance H1 H2. unfold check_snapshot. cbn [py_get bind outcome_monad].
    unfold get_default. rewrite H1. cbn [py_get]. unfold get_default. rewrite H2.
    reflexivity.
  - intros d instance default H1 H2 H3. unfold check_snapshot.
    cbn [py_get bind outcome_monad]. unfold get_default. rewrite H1.
    cbn [py_get]. unfold get_default. rewrite H2.
    cbn [py_get]. unfold get_default. rewrite H3. reflexivity.
  - intros vrf_name d H. unfold check_vrf. cbn [py_get bind outcome_monad].
    unfold get_default. rewrite H. reflexivity.
Qed.

Lemma missing_level_is_zero_neighbors_witness :
  check_snapshot "R1" (VDict [("hostname", VStr "R1")]) (Locals [] []) = Return (Locals [] [])
  /\ check_snapshot "R1" (VDict [("instance", VDict [])]) (Locals [] []) = Return (Locals [] [])
  /\ check_snapshot "R1" (VDict [("instance", VDict [("default", VDict [])])]) (Locals [] [])
     = Return (Locals [] [])
  /\ check_vrf "R1" (Locals [] []) ("default", VDict [("router_id", VStr "1.1.1.1")])
     = Return (Locals [] []).
Proof.
  destruct (missing_level_is_zero_neighbors "R1" (Locals [] [])) as (H1 & H2 & H3 & H4).
  split; [|split; [|split]].
  - apply H1. reflexivity.
  - apply (H2 _ []); reflexivity.
  - apply (H3 _ [("default", VDict [])] []); reflexivity.
  - apply H4. reflexivity.
Defined.

(* ================================================================= *)
(** ** The failure index after the loop *)

(** C4.  On well-formed snapshots the loop of [check_bgp] returns, and in
    the failure index it leaves: a device has an entry exactly when one of
    its neighbours has the verdict [Failed]; the addresses under a device
    are exactly the addresses of its failing neighbours; and the
    attributes stored under an address are those of a failing neighbour
    with that address. *)
Theorem failure_index_exact (w : world) (sessions : dict value) :
  all_bgp_sessions w = Some sessions ->
  Spec.wf_sessions sessions = true ->
  exists st w',
    check_bgp_loop w = (Return st, w')
    /\ (forall device,
          In device (keys (failed_dict st))
          <-> exists info vrf_name nbr props,
                In (device, info) sessions
                /\ In (vrf_name, nbr, props) (Spec.neighbors_of info)
                /\ Spec.verdict props = "Failed")
    /\ (forall device inner nbr,
          dict_get device (failed_dict st) = Some inner ->
          (In nbr (keys inner)
           <-> exists info vrf_name props,
                 In (device, info) sessions
                 /\ In (vrf_name, nbr, props) (Spec.neighbors_of info)
                 /\ Spec.verdict props = "Failed"))
    /\ (forall device inner nbr props,
          dict_get device (failed_dict st) = Some inner ->
          dict_get nbr inner = Some props ->
          exists info vrf_name,
            In (device, info) sessions
            /\ In (vrf_name, nbr, props) (Spec.neighbors_of info)
            /\ Spec.verdict props = "Failed").
Proof.
  intros Hs Hwf. eexists _, _. split; [exact (check_bgp_loop_wf _ _ Hs Hwf)|].
  cbn [failed_dict]. rewrite failures_of_sessions_events.
  assert (Hinner : forall device inner,
             dict_get device (record_events (failure_events sessions) []) = Some inner ->
             inner = fold_left (assign_for device) (failure_events sessions) []).
  { intros device inner H.
    pose proof (record_events_inner device (failure_events sessions) []) as E.
    unfold get_default at 1 in E. rewrite H in E. exact E. }
  split; [|split].
  - intros device. rewrite record_events_keys. split.
    + intros [[] | (nbr & props & H)].
      apply in_failure_events in H as (info & vrf_name & H).
      now exists info, vrf_name, nbr, props.
    + intros (info & vrf_name & nbr & props & H). right. exists nbr, props.
      apply in_failure_events. eauto.
  - intros device inner nbr H. rewrite (Hinner _ _ H), assign_keys. split.
    + intros [[] | (props & Hp)].
      apply in_failure_events in Hp as (info & vrf_name & Hp).
      now exists info, vrf_name, props.
    + intros (info & vrf_name & props & Hp). right. exists props.
      apply in_failure_events. eauto.
  - intros device inner nbr props H Hg. rewrite (Hinner _ _ H) in Hg.
    apply assign_get_source in Hg as [Hg | Hg]; [discriminate|].
    now apply in_failure_events in Hg.
Qed.

Lemma failure_index_exact_witness :
  let sessions := [("R1", Examples.R1_established); ("R2", Examples.R2_idle)] in
  all_bgp_sessions (Examples.world_with sessions) = Some sessions
  /\ Spec.wf_sessions sessions = true
  /\ exists st w',
       check_bgp_loop (Examples.world_with sessions) = (Return st, w')
       /\ keys (failed_dict st) = ["R2"].
Proof.
  intros sessions. split; [reflexivity|]. split; [reflexivity|].
  destruct (failure_index_exact (Examples.world_with sessions) sessions eq_refl eq_refl)
    as (st & w' & Hrun & _).
  exists st, w'. split; [exact Hrun|].
  vm_compute in Hrun. injection Hrun as <- _. reflexivity.
Defined.

(* ================================================================= *)
(** ** The final verdict *)

Lemma failures_of_sessions_empty sessions :
  failures_of_sessions sessions [] = [] <-> failure_events sessions = [].
Proof. rewrite failures_of_sessions_events. apply record_events_empty. Qed.

Lemma failure_events_no_neighbors sessions :
  (forall device info, In (device, info) sessions -> Spec.neighbors_of info = []) ->
  failure_events sessions = [].
Proof.
  intros H. destruct (failure_events sessions) as [|[[device nbr] props] es] eqn:E;
    [reflexivity|]. exfalso.
  assert (Hin : In (device, nbr, props) (failure_events sessions))
    by (rewrite E; now left).
  apply in_failure_events in Hin as (info & vrf_name & Hd & Hn & _).
  rewrite (H _ _ Hd) in Hn. exact Hn.
Qed.

(** C6.  On well-formed snapshots [check_bgp] runs its loop over every
    device before it issues the verdict: the loop returns with the rows of
    all the devices and has logged a heading and a table for each of them.
    The section then ends [Failed] exactly when the failure index is not
    empty, after logging the dump of the whole index as an error record,
    and ends [Passed] otherwise, logging nothing more.  When no snapshot
    has a neighbour the index is empty and the section ends [Passed]. *)
Theorem final_verdict (w : world) (sessions : dict value) :
  all_bgp_sessions w = Some sessions ->
  Spec.wf_sessions sessions = true ->
  exists st w1,
    check_bgp_loop w = (Return st, w1)
    /\ results_table st = rows_of_sessions sessions
    /\ w1 = logged (device_reports sessions []) w
    /\ (failed_dict st <> [] ->
        check_bgp w
        = (Raise (Signal Failed "Some BGP neighbors are not established." []),
           logged [Error (JsonDumps (failed_dict st) 3)] w1))
    /\ (failed_dict st = [] ->
        check_bgp w
        = (Raise (Signal Passed "All BGP neighbors are established." []), w1))
    /\ (failed_dict st <> []
        <-> exists device info vrf_name nbr props,
              In (device, info) sessions
              /\ In (vrf_name, nbr, props) (Spec.neighbors_of info)
              /\ Spec.verdict props = "Failed")
    /\ ((forall device info, In (device, info) sessions -> Spec.neighbors_of info = []) ->
        failed_dict st = []
        /\ check_bgp w
           = (Raise (Signal Passed "All BGP neighbors are established." []), w1)).
Proof.
  intros Hs Hwf. pose proof (check_bgp_loop_wf _ _ Hs Hwf) as Hloop.
  eexists _, _. split; [exact Hloop|]. cbn [failed_dict results_table].
  assert (Hfail : failures_of_sessions sessions [] <> [] ->
            check_bgp w
            = (Raise (Signal Failed "Some BGP neighbors are not established." []),
               logged [Error (JsonDumps (failures_of_sessions sessions []) 3)]
                 (logged (device_reports sessions []) w))).
  { intros Hne. unfold check_bgp. cbn [bind M_monad]. rewrite Hloop.
    cbn [failed_dict]. apply truthy_true in Hne. rewrite Hne.
    rewrite log_error_logged. reflexivity. }
  assert (Hpass : failures_of_sessions sessions [] = [] ->
            check_bgp w
            = (Raise (Signal Passed "All BGP neighbors are established." []),
               logged (device_reports sessions []) w)).
  { intros He. unfold check_bgp. cbn [bind M_monad]. rewrite Hloop.
    cbn [failed_dict]. rewrite He. reflexivity. }
  split; [reflexivity|]. split; [reflexivity|].
  split; [exact Hfail|]. split; [exact Hpass|]. split; [split|split].
  - intros Hne.
    destruct (failure_events sessions) as [|[[device nbr] props] es] eqn:E.
    + apply failures_of_sessions_empty in E. contradiction.
    + assert (Hin : In (device, nbr, props) (failure_events sessions))
        by (rewrite E; now left).
      apply in_failure_events in Hin as (info & vrf_name & Hin).
      now exists device, info, vrf_name, nbr, props.
  - intros (device & info & vrf_name & nbr & props & Hd & Hn & Hv) He.
    apply failures_of_sessions_empty in He.
    assert (Hin : In (device, nbr, props) (failure_events sessions))
      by (apply in_failure_events; eauto).
    rewrite He in Hin. exact Hin.
  - apply failures_of_sessions_empty. now apply failure_events_no_neighbors.
  - apply Hpass, failures_of_sessions_empty.
    now apply failure_events_no_neighbors.
Qed.

Lemma final_verdict_witness :
  let sessions := [("R1", Examples.R1_established); ("R2", Examples.R2_idle)] in
  all_bgp_sessions (Examples.world_with sessions) = Some sessions
  /\ Spec.wf_sessions sessions = true
  /\ fst (check_bgp (Examples.world_with sessions))
     = Raise (Signal Failed "Some BGP neighbors are not established." []).
Proof.
  intros sessions. split; [reflexivity|]. split; [reflexivity|].
  destruct (final_verdict (Examples.world_with sessions) sessions eq_refl eq_refl)
    as (st & w1 & Hrun & _ & _ & Hfail & _).
  rewrite Hfail; [reflexivity|].
  vm_compute in Hrun. injection Hrun as <- _. discriminate.
Defined.

(* ================================================================= *)
(** ** The tables that are logged *)

(** On well-formed snapshots, the table logged after a device holds the
    rows of every device evaluated so far, the rows of that device
    last. *)
Lemma table_logged_for_device (w : world) (before after : dict value)
    (device : string) (info : value) :
  all_bgp_sessions w = Some (before ++ (device, info) :: after) ->
  Spec.wf_sessions (before ++ (device, info) :: after) = true ->
  exists st w' records,
    check_bgp_loop w = (Return st, w')
    /\ log w'
       = log w ++ device_reports before []
         ++ Info (Text ("Device " ++ device ++ " BGP Neighbors:" ++ newline)%string)
         :: Info (Tabulate
                    (rows_of_sessions before ++ map Spec.row_of (Spec.neighbors_of info))
                    table_headers "orgtbl")
         :: records.
Proof.
  intros Hs Hwf. eexists _, _, _. split; [exact (check_bgp_loop_wf _ _ Hs Hwf)|].
  cbn [logged log]. rewrite device_reports_app. cbn [device_reports app].
  reflexivity.
Qed.

(** C2 at a concrete input: two devices with one neighbour each.  The
    loop logs one heading and one table per device, in the order of the
    devices, but the table logged under the heading of R2 starts with the
    row of the neighbour of R1: the table is not emptied between
    devices.  The rows of the neighbours of R2 alone are the single row
    for 10.0.0.2. *)
Theorem table_of_R2_keeps_rows_of_R1 :
  let sessions := [("R1", Examples.R1_established); ("R2", Examples.R2_idle)] in
  exists st w',
    check_bgp_loop (Examples.world_with sessions) = (Return st, w')
    /\ log w'
       = [ Info (Text ("Device R1 BGP Neighbors:" ++ newline)%string);
           Info (Tabulate [["default"; "10.0.0.1"; "Established"; "Passed"]]
                          ["VRF"; "Peer"; "State"; "Result"] "orgtbl");
           Info (Text ("Device R2 BGP Neighbors:" ++ newline)%string);
           Info (Tabulate [["default"; "10.0.0.1"; "Established"; "Passed"];
                           ["default"; "10.0.0.2"; "Idle"; "Failed"]]
                          ["VRF"; "Peer"; "State"; "Result"] "orgtbl") ]
    /\ map Spec.row_of (Spec.neighbors_of Examples.R2_idle)
       = [["default"; "10.0.0.2"; "Idle"; "Failed"]].
Proof.
  intros sessions. eexists _, _. split; [vm_compute; reflexivity|].
  split; reflexivity.
Qed.

(* ================================================================= *)
(** ** One address under two VRFs *)

Lemma failure_events_app s1 s2 :
  failure_events (s1 ++ s2) = failure_events s1 ++ failure_events s2.
Proof. unfold failure_events. apply flat_map_app. Qed.

Lemma failure_events_other_device device sessions :
  ~ In device (keys sessions) ->
  forall nbr props, ~ In (device, nbr, props) (failure_events sessions).
Proof.
  intros Hk nbr props Hin.
  apply in_failure_events in Hin as (info & _ & Hin & _).
  apply Hk. unfold keys. apply in_map_iff. now exists (device, info).
Qed.

Lemma rows_of_sessions_app s1 s2 :
  rows_of_sessions (s1 ++ s2) = rows_of_sessions s1 ++ rows_of_sessions s2.
Proof. unfold rows_of_sessions. apply flat_map_app. Qed.

Lemma row_of_failing vrf_name nbr props :
  Spec.verdict props = "Failed" ->
  Spec.row_of (vrf_name, nbr, props)
  = [vrf_name; nbr; capitalize (lower (Spec.session_state props)); "Failed"].
Proof. intros H. unfold Spec.row_of. now rewrite H. Qed.

(** C10.  A device whose snapshot has the address [nbr] under two
    different VRFs, failing under both, the second being the last failing
    occurrence of the address: the table gets a row for each occurrence,
    the failure index has exactly one entry for the address under the
    device, and the attributes stored there are those of the second
    occurrence. *)
Theorem same_address_two_vrfs (w : world) (before after : dict value)
    (device : string) (info : value)
    (n1 n2 n3 : list (string * string * value))
    (vrf1 vrf2 nbr : string) (props1 props2 : value) :
  all_bgp_sessions w = Some (before ++ (device, info) :: after) ->
  Spec.wf_sessions (before ++ (device, info) :: after) = true ->
  NoDup (keys (before ++ (device, info) :: after)) ->
  Spec.neighbors_of info = n1 ++ (vrf1, nbr, props1) :: n2 ++ (vrf2, nbr, props2) :: n3 ->
  vrf1 <> vrf2 ->
  Spec.verdict props1 = "Failed" ->
  Spec.verdict props2 = "Failed" ->
  (forall vrf_name props, In (vrf_name, nbr, props) n3 -> Spec.verdict props <> "Failed") ->
  exists st w' inner,
    check_bgp_loop w = (Return st, w')
    /\ results_table st
       = rows_of_sessions before
         ++ (map Spec.row_of n1
             ++ [vrf1; nbr; capitalize (lower (Spec.session_state props1)); "Failed"]
             :: map Spec.row_of n2
             ++ [vrf2; nbr; capitalize (lower (Spec.session_state props2)); "Failed"]
             :: map Spec.row_of n3)
         ++ rows_of_sessions after
    /\ dict_get device (failed_dict st) = Some inner
    /\ count_occ string_dec (keys inner) nbr = 1
    /\ dict_get nbr inner = Some props2.
Proof.
  intros Hs Hwf Hnd Hn Hvrf Hf1 Hf2 Hlast.
  pose proof (check_bgp_loop_wf _ _ Hs Hwf) as Hloop.
  set (events := failure_events (before ++ (device, info) :: after)).
  set (inner := fold_left (assign_for device) events []).
  assert (Hev : exists es1 es2,
             events = es1 ++ (device, nbr, props2) :: es2
             /\ forall props', ~ In (device, nbr, props') es2).
  { exists (failure_events before
            ++ map (fun n => (device, snd (fst n), snd n))
                 (filter Spec.failing (n1 ++ (vrf1, nbr, props1) :: n2))),
           (map (fun n => (device, snd (fst n), snd n)) (filter Spec.failing n3)
            ++ failure_events after).
    split.
    - unfold events. rewrite failure_events_app.
      change (failure_events ((device, info) :: after))
        with (map (fun n => (device, snd (fst n), snd n))
                  (filter Spec.failing (Spec.neighbors_of info))
              ++ failure_events after).
      rewrite Hn.
      replace (n1 ++ (vrf1, nbr, props1) :: n2 ++ (vrf2, nbr, props2) :: n3)
        with ((n1 ++ (vrf1, nbr, props1) :: n2) ++ (vrf2, nbr, props2) :: n3)
        by (rewrite <- app_assoc; reflexivity).
      rewrite filter_app. cbn [filter]. unfold Spec.failing at 2. cbn [snd].
      rewrite Hf2. cbn [String.eqb Ascii.eqb Bool.eqb].
      rewrite map_app. cbn [map fst snd]. rewrite <- !app_assoc. reflexivity.
    - intros props' Hin. apply in_app_or in Hin as [Hin | Hin].
      + apply in_map_iff in Hin as [[[v a] p] [Heq Hin]]. cbn [fst snd] in Heq.
        injection Heq as -> ->. apply filter_In in Hin as [Hin Hfl].
        apply (Hlast _ _ Hin). unfold Spec.failing in Hfl. now apply String.eqb_eq in Hfl.
      + revert Hin. apply failure_events_other_device.
        unfold keys in Hnd. rewrite map_app in Hnd. apply NoDup_remove_2 in Hnd.
        intros Hin. apply Hnd. apply in_or_app. now right. }
  destruct Hev as (es1 & es2 & Hev & Hno).
  assert (Hget : dict_get nbr inner = Some props2).
  { unfold inner. rewrite Hev. now apply assign_get_last. }
  assert (Hdev : dict_get device (record_events events []) = Some inner).
  { pose proof (record_events_inner device events []) as E.
    assert (Hin : In device (keys (record_events events []))).
    { apply record_events_keys. right. exists nbr, props2. rewrite Hev.
      apply in_or_app. right. now left. }
    apply dict_get_In_keys in Hin as [inner' Hin'].
    unfold get_default at 1 in E. rewrite Hin' in E. now rewrite Hin', E. }
  eexists _, _, inner. split; [exact Hloop|]. cbn [failed_dict results_table].
  split; [|split; [|split]].
  - rewrite rows_of_sessions_app. f_equal.
    change (rows_of_sessions ((device, info) :: after))
      with (map Spec.row_of (Spec.neighbors_of info) ++ rows_of_sessions after).
    f_equal. rewrite Hn.
    rewrite map_app. cbn [map]. rewrite map_app. cbn [map].
    now rewrite !row_of_failing by assumption.
  - rewrite failures_of_sessions_events. exact Hdev.
  - apply NoDup_count_occ'.
    + unfold inner. apply assign_NoDup. constructor.
    + apply dict_get_In_keys. eauto.
  - exact Hget.
Qed.

Lemma same_address_two_vrfs_witness :
  let sessions := [("R1", Examples2.R1_two_vrfs)] in
  Spec.neighbors_of Examples2.R1_two_vrfs
  = [("default", "10.0.0.9", Examples2.idle_props);
     ("blue", "10.0.0.9", Examples2.active_props)]
  /\ exists st w' inner,
       check_bgp_loop (Examples.world_with sessions) = (Return st, w')
       /\ results_table st
          = [["default"; "10.0.0.9"; "Idle"; "Failed"];
             ["blue"; "10.0.0.9"; "Active"; "Failed"]]
       /\ dict_get "R1" (failed_dict st) = Some inner
       /\ count_occ string_dec (keys inner) "10.0.0.9" = 1
       /\ dict_get "10.0.0.9" inner = Some Examples2.active_props.
Proof.
  intros sessions. split; [reflexivity|].
  destruct (same_address_two_vrfs (Examples.world_with sessions) [] [] "R1"
              Examples2.R1_two_vrfs [] [] [] "default" "blue" "10.0.0.9"
              Examples2.idle_props Examples2.active_props)
    as (st & w' & inner & Hrun & Hrows & Hdev & Hcount & Hget).
  - reflexivity.
  - reflexivity.
  - simpl. constructor; [simpl; tauto | constructor].
  - reflexivity.
  - discriminate.
  - reflexivity.
  - reflexivity.
  - intros vrf_name props [].
  - exists st, w', inner. repeat split; assumption.
Defined.

(* ================================================================= *)
(** ** CommonSetup.connect *)

Lemma connect_device_ok device_list d w :
  connect_raises d = None ->
  connect_device device_list d w
  = (Return (device_list ++ [d]),
     World (log w ++ [connect_banner d]) (connect_calls w ++ [name d]) (learn_calls w)
           (parameters_testbed w) (parameters_devices w) (all_bgp_sessions w)).
Proof.
  intros H. unfold connect_device, try_except, device_connect, log_info.
  cbn [bind M_monad ret]. cbn [log connect_calls learn_calls parameters_testbed
    parameters_devices all_bgp_sessions]. rewrite H. reflexivity.
Qed.


Lemma connect_devices_ok devices : forall device_list w,
  (forall d, In d devices -> connect_raises d = None) ->
  foldM connect_device devices device_list w
  = (Return (device_list ++ devices),
     World (log w ++ map connect_banner devices)
           (connect_calls w ++ map name devices) (learn_calls w)
           (parameters_testbed w) (parameters_devices w) (all_bgp_sessions w)).
Proof.
  induction devices as [|d devices IH]; intros device_list w Hok.
  - destruct w. simpl. now rewrite !app_nil_r.
  - cbn [foldM bind M_monad]. rewrite connect_device_ok by (apply Hok; now left).
    rewrite IH by (intros; apply Hok; now right).
    cbn [log connect_calls learn_calls parameters_testbed parameters_devices
         all_bgp_sessions map].
    now rewrite <- !app_assoc.
Qed.

(** When every device connects, the section returns and hands the whole
    inventory, in order, to the testcases. *)
Lemma connect_all_succeed testbed w :
  (forall d, In d testbed -> connect_raises d = None) ->
  connect testbed w
  = (Return tt,
     World (log w ++ map connect_banner testbed)
           (connect_calls w ++ map name testbed) (learn_calls w)
           (Some testbed) (Some testbed) (all_bgp_sessions w)).
Proof.
  intros Hok. unfold connect. cbn [bind M_monad set_parameters_testbed].
  rewrite connect_devices_ok by assumption. reflexivity.
Qed.


(** C1 at a concrete inventory: R1 connects, [connect()] of R2 raises
    with the text [timed out], R3 would connect.  The section ends
    [Failed] with a reason that names R2 and carries the error text, but
    [connect()] is never called on R3 and [parameters['devices']] is left
    unassigned: no working set is passed on. *)
Theorem connect_failure_ends_section :
  exists w',
    connect [Examples3.R1; Examples3.R2_unreachable; Examples3.R3] Examples3.fresh_world
    = (Raise (Signal Failed "Failed to establish connection to 'R2': timed out" []), w')
    /\ connect_calls w' = ["R1"; "R2"]
    /\ parameters_devices w' = None.
Proof. eexists. split; [vm_compute; reflexivity|]. split; reflexivity. Qed.

(* ================================================================= *)
(** ** BGPNeighborsEstablished.learn_bgp *)

Lemma learn_device_info d info sessions w :
  learns d = LearnInfo info ->
  all_bgp_sessions w = Some sessions ->
  learn_device tt d w
  = (Return tt,
     World (log w ++ [learn_banner d]) (connect_calls w) (learn_calls w ++ [name d])
           (parameters_testbed w) (parameters_devices w)
           (Some (dict_set (name d) info sessions))).
Proof.
  intros Hl Hs. unfold learn_device, bgp_learn, log_info, get_all_bgp_sessions,
    set_all_bgp_sessions.
  cbn [bind M_monad]. cbn [log connect_calls learn_calls parameters_testbed
    parameters_devices all_bgp_sessions]. rewrite Hl, Hs. reflexivity.
Qed.

Lemma learn_device_nothing d w :
  learns d = LearnNothing ->
  learn_device tt d w
  = (Raise (Signal Failed ("Failed to learn BGP info from device " ++ name d)%string
              ["common_cleanup"]),
     World (log w ++ [learn_banner d]) (connect_calls w) (learn_calls w ++ [name d])
           (parameters_testbed w) (parameters_devices w) (all_bgp_sessions w)).
Proof.
  intros Hl. unfold learn_device, bgp_learn, log_info.
  cbn [bind M_monad]. cbn [log connect_calls learn_calls parameters_testbed
    parameters_devices all_bgp_sessions]. rewrite Hl. reflexivity.
Qed.

(** Only devices that were asked get an entry. *)
Lemma collect_keys devices : forall sessions k,
  In k (keys (collect devices sessions)) ->
  In k (keys sessions) \/ In k (map name devices).
Proof.
  induction devices as [|d devices IH]; intros sessions k H; [now left|].
  unfold collect in *. cbn [fold_left] in H. apply IH in H as [H | H].
  - destruct (learns d); try (now left).
    apply keys_dict_set in H as [-> | H]; [right; now left | now left].
  - right. now right.
Qed.

(** The loop of [learn_bgp] over devices that all yield a snapshot. *)
Lemma learn_devices_info devices : forall sessions w,
  (forall d, In d devices -> exists info, learns d = LearnInfo info) ->
  all_bgp_sessions w = Some sessions ->
  foldM learn_device devices tt w
  = (Return tt,
     World (log w ++ map learn_banner devices) (connect_calls w)
           (learn_calls w ++ map name devices)
           (parameters_testbed w) (parameters_devices w)
           (Some (collect devices sessions))).
Proof.
  induction devices as [|d devices IH]; intros sessions w Hok Hs.
  - destruct w. simpl in *. now rewrite !app_nil_r, Hs.
  - destruct (Hok d (or_introl eq_refl)) as [info Hinfo].
    cbn [foldM bind M_monad]. rewrite (learn_device_info _ _ _ _ Hinfo Hs).
    rewrite (IH (dict_set (name d) info sessions))
      by (try reflexivity; intros; apply Hok; now right).
    cbn [log connect_calls learn_calls parameters_testbed parameters_devices
         all_bgp_sessions map].
    unfold collect. cbn [fold_left]. rewrite Hinfo.
    now rewrite <- !app_assoc.
Qed.

(** [learn_bgp] up to the first device without a snapshot. *)
Lemma learn_bgp_stops before d after w :
  parameters_devices w = Some (before ++ d :: after) ->
  (forall x, In x before -> exists info, learns x = LearnInfo info) ->
  learns d = LearnNothing ->
  learn_bgp w
  = (Raise (Signal Failed ("Failed to learn BGP info from device " ++ name d)%string
              ["common_cleanup"]),
     World (log w ++ map learn_banner (before ++ [d])) (connect_calls w)
           (learn_calls w ++ map name (before ++ [d]))
           (parameters_testbed w) (parameters_devices w)
           (Some (collect before []))).
Proof.
  intros Hp Hok Hd. unfold learn_bgp, get_parameters_devices.
  cbn [bind M_monad set_all_bgp_sessions parameters_devices]. rewrite Hp.
  set (w0 := World _ _ _ _ _ _).
  assert (Hfold : forall sessions w1,
            all_bgp_sessions w1 = Some sessions ->
            foldM learn_device (before ++ d :: after) tt w1
            = (Raise (Signal Failed
                        ("Failed to learn BGP info from device " ++ name d)%string
                        ["common_cleanup"]),
               World (log w1 ++ map learn_banner (before ++ [d])) (connect_calls w1)
                     (learn_calls w1 ++ map name (before ++ [d]))
                     (parameters_testbed w1) (parameters_devices w1)
                     (Some (collect before sessions)))).
  { clear w w0 Hp. induction before as [|x before IH]; intros sessions w1 Hs.
    - cbn [app foldM bind M_monad]. rewrite (learn_device_nothing _ _ Hd).
      now rewrite Hs.
    - destruct (Hok x (or_introl eq_refl)) as [info Hinfo].
      cbn [app foldM bind M_monad]. rewrite (learn_device_info _ _ _ _ Hinfo Hs).
      rewrite (IH (fun y Hy => Hok y (or_intror Hy)) (dict_set (name x) info sessions))
        by reflexivity.
      cbn [log connect_calls learn_calls parameters_testbed parameters_devices
           all_bgp_sessions map app].
      unfold collect. cbn [fold_left]. rewrite Hinfo.
      now rewrite <- !app_assoc. }
  rewrite (Hfold []) by reflexivity. reflexivity.
Qed.

(** C7.  When the devices before [d] all yield a snapshot and [d] yields
    none, the testcase runs [learn_bgp] only: the section ends [Failed]
    with a reason naming [d] and the [goto] target [common_cleanup],
    [check_bgp] is not run, [learn()] has been called on the devices up to
    [d] and on none after it, and the snapshots stored are those of the
    devices before [d]. *)
Theorem learn_failure_goes_to_cleanup (w : world) (before after : list Device)
    (d : Device) :
  parameters_devices w = Some (before ++ d :: after) ->
  (forall x, In x before -> exists info, learns x = LearnInfo info) ->
  learns d = LearnNothing ->
  exists w',
    run_tests BGPNeighborsEstablished w
    = ([("learn_bgp", Failed, ("Failed to learn BGP info from device " ++ name d)%string)],
       ["common_cleanup"], w')
    /\ learn_calls w' = learn_calls w ++ map name before ++ [name d]
    /\ all_bgp_sessions w' = Some (collect before [])
    /\ (forall k, In k (keys (collect before [])) -> In k (map name before))
    /\ log w' = log w ++ map learn_banner before ++ [learn_banner d].
Proof.
  intros Hp Hok Hd. eexists. split.
  - unfold BGPNeighborsEstablished. cbn [run_tests].
    rewrite (learn_bgp_stops _ _ _ _ Hp Hok Hd). cbn [section_result]. reflexivity.
  - cbn [learn_calls all_bgp_sessions log]. rewrite !map_app. cbn [map].
    repeat split.
    intros k Hk. apply collect_keys in Hk as [[] | Hk]. exact Hk.
Qed.

Lemma learn_failure_goes_to_cleanup_witness :
  let w := World [] ["R1"; "R2"; "R3"] [] None
                 (Some [Examples3.R1; Examples3.R2_silent; Examples3.R3]) None in
  parameters_devices w = Some ([Examples3.R1] ++ Examples3.R2_silent :: [Examples3.R3])
  /\ learns Examples3.R2_silent = LearnNothing
  /\ exists w',
       run_tests BGPNeighborsEstablished w
       = ([("learn_bgp", Failed, "Failed to learn BGP info from device R2")],
          ["common_cleanup"], w')
       /\ learn_calls w' = ["R1"; "R2"]
       /\ all_bgp_sessions w' = Some [("R1", Examples.R1_established)].
Proof.
  intros w. split; [reflexivity|]. split; [reflexivity|].
  destruct (learn_failure_goes_to_cleanup w [Examples3.R1] [Examples3.R3]
              Examples3.R2_silent eq_refl) as (w' & Hrun & Hcalls & Hs & _).
  - intros x [<- | []]. now exists Examples.R1_established.
  - reflexivity.
  - exists w'. repeat split; assumption.
Defined.

(* ================================================================= *)
(** ** Running the evaluation twice *)

Lemma check_device_any_world st item :
  exists o records, forall w, check_device st item w = (o, logged records w).
Proof.
  destruct item as [device bgp_info]. unfold check_device, lift.
  destruct (check_snapshot device bgp_info st) as [st'|e] eqn:E.
  - eexists _, _. intros w. cbn [bind M_monad].
    rewrite !log_info_logged, logged_logged. reflexivity.
  - exists (Raise e), []. intros w. cbn [bind M_monad].
    now rewrite logged_nil.
Qed.

(** The loop over the devices reads nothing from the world: its outcome
    and the records it logs depend on the snapshots and the locals
    only. *)
Lemma check_devices_any_world sessions : forall st,
  exists o records, forall w, foldM check_device sessions st w = (o, logged records w).
Proof.
  induction sessions as [|item sessions IH]; intros st.
  - exists (Return st), []. intros w. simpl. now rewrite logged_nil.
  - destruct (check_device_any_world st item) as (o & r & H).
    destruct o as [st'|e].
    + destruct (IH st') as (o' & r' & H').
      exists o', (r ++ r'). intros w. cbn [foldM bind M_monad].
      rewrite H, H', logged_logged. reflexivity.
    + exists (Raise e), r. intros w. cbn [foldM bind M_monad]. now rewrite H.
Qed.

Lemma check_bgp_loop_any_world sessions :
  exists o records, forall w,
    all_bgp_sessions w = Some sessions ->
    check_bgp_loop w = (o, logged records w).
Proof.
  destruct (check_devices_any_world sessions (Locals [] [])) as (o & r & H).
  exists o, r. intros w Hs. unfold check_bgp_loop, get_all_bgp_sessions.
  cbn [bind M_monad]. rewrite Hs. apply H.
Qed.

Lemma check_bgp_loop_no_sessions w :
  all_bgp_sessions w = None ->
  check_bgp_loop w = (attribute_error "all_bgp_sessions", w).
Proof.
  intros Hs. unfold check_bgp_loop, get_all_bgp_sessions.
  cbn [bind M_monad]. now rewrite Hs.
Qed.

(** C8.  Running the loop of [check_bgp] a second time, in the world the
    first run left, gives the same outcome as the first run: the same rows
    in the same order and the same failure index when the first run
    returned (which it does on well-formed snapshots), and it logs the
    same records again.  The final verdict of [check_bgp] is the same in
    both runs as well. *)
Theorem check_bgp_twice (w : world) :
  fst (check_bgp_loop (snd (check_bgp_loop w))) = fst (check_bgp_loop w)
  /\ (exists records,
        snd (check_bgp_loop w) = logged records w
        /\ snd (check_bgp_loop (snd (check_bgp_loop w)))
           = logged records (snd (check_bgp_loop w)))
  /\ fst (check_bgp (snd (check_bgp w))) = fst (check_bgp w)
  /\ (forall sessions,
        all_bgp_sessions w = Some sessions ->
        Spec.wf_sessions sessions = true ->
        exists st,
          fst (check_bgp_loop w) = Return st
          /\ fst (check_bgp_loop (snd (check_bgp_loop w))) = Return st).
Proof.
  assert (Hloop : exists o records,
            check_bgp_loop w = (o, logged records w)
            /\ forall records',
                 check_bgp_loop (logged records' w)
                 = (o, logged records (logged records' w))).
  { destruct (all_bgp_sessions w) as [sessions|] eqn:Hs.
    - destruct (check_bgp_loop_any_world sessions) as (o & r & H).
      exists o, r. split; [now apply H|]. intros r'. now apply H.
    - exists (attribute_error "all_bgp_sessions"), []. split.
      + now rewrite logged_nil, check_bgp_loop_no_sessions.
      + intros r'. now rewrite logged_nil, check_bgp_loop_no_sessions. }
  destruct Hloop as (o & r & H1 & H2).
  assert (Hfirst : fst (check_bgp_loop (snd (check_bgp_loop w))) = fst (check_bgp_loop w)).
  { rewrite H1. cbn [fst snd]. now rewrite H2. }
  split; [exact Hfirst|]. split; [|split].
  - exists r. rewrite H1. cbn [snd]. split; [reflexivity|]. now rewrite H2.
  - unfold check_bgp. cbn [bind M_monad]. rewrite H1.
    destruct o as [st|e]; cbn [fst snd].
    + destruct (truthy (failed_dict st)) eqn:Ht.
      * rewrite log_error_logged. unfold failed, raise. cbn [fst snd].
        rewrite logged_logged, H2. now rewrite Ht.
      * unfold passed, raise. cbn [fst snd]. rewrite H2. now rewrite Ht.
    + now rewrite H2.
  - intros sessions Hs Hwf. rewrite Hfirst.
    rewrite (check_bgp_loop_wf _ _ Hs Hwf). cbn [fst]. eauto.
Qed.

Lemma check_bgp_twice_witness :
  let sessions := [("R1", Examples.R1_established); ("R2", Examples.R2_idle)] in
  let w := Examples.world_with sessions in
  all_bgp_sessions w = Some sessions
  /\ Spec.wf_sessions sessions = true
  /\ exists st,
       fst (check_bgp_loop w) = Return st
       /\ fst (check_bgp_loop (snd (check_bgp_loop w))) = Return st.
Proof.
  intros sessions w. split; [reflexivity|]. split; [reflexivity|].
  exact (proj2 (proj2 (proj2 (check_bgp_twice w))) sessions eq_refl eq_refl).
Defined.

(* ================================================================= *)
(** ** What [check_bgp] does to the store *)

Module StoreFacts.
Import Store.

Lemma nth_error_update {A : Type} (l : list A) : forall i j x,
  nth_error (update i x l) j
  = if Nat.eqb i j then option_map (fun _ => x) (nth_error l j) else nth_error l j.
Proof.
  induction l as [|y l IH]; intros [|i] [|j] x; simpl; auto;
    now destruct (Nat.eqb _ _).
Qed.

Lemma nth_error_update_same {A : Type} (l : list A) i x y :
  nth_error l i = Some y -> nth_error (update i x l) i = Some x.
Proof. intros H. now rewrite nth_error_update, Nat.eqb_refl, H. Qed.

Lemma nth_error_update_other {A : Type} (l : list A) i j x :
  i <> j -> nth_error (update i x l) j = nth_error l j.
Proof. intros H. rewrite nth_error_update. apply Nat.eqb_neq in H. now rewrite H. Qed.

Lemma nth_error_alloc {A : Type} (l : list A) x j y :
  nth_error l j = Some y -> nth_error (l ++ [x]) j = Some y.
Proof.
  intros H. rewrite nth_error_app1; [assumption|].
  apply nth_error_Some. congruence.
Qed.

Lemma nth_error_alloc_new {A : Type} (l : list A) x :
  nth_error (l ++ [x]) (length l) = Some x.
Proof. rewrite nth_error_app2, Nat.sub_diag; [reflexivity | lia]. Qed.

(** The proofs below run over a store [h0], the store before the section,
    and the reference [fdr] of the dictionary [failed_dict].  [Good]
    marks the values the section may store into the failure index. *)
Section Frame.
Variable h0 : store.
Variable fdr : ref.
Variable Good : hvalue -> Prop.

(** The items of a good dictionary are good, as long as the objects of
    [h0] are as they were. *)
Hypothesis Good_items : forall h r d item,
  (forall r', r' < length h0 -> nth_error h r' = nth_error h0 r') ->
  Good (HRef r) ->
  nth_error h r = Some (ODict d) ->
  In item d ->
  Good (snd item).

Local Abbreviation Inv := (Store.Inv h0 fdr Good).
Local Abbreviation triple := (Store.triple h0 fdr Good).
Local Abbreviation good_or_empty := (Store.good_or_empty Good).

Lemma triple_ret {A : Type} (P : state -> Prop) (a : A) (Q : A -> state -> Prop) :
  (forall s, P s -> Q a s) -> triple P (ret a) Q.
Proof.
  intros H s Hinv HP. cbn. split; [assumption|].
  intros a' [= <-]. now apply H.
Qed.

Lemma triple_bind {A B : Type} (P : state -> Prop) (c : M A) (R : A -> state -> Prop)
    (k : A -> M B) (Q : B -> state -> Prop) :
  triple P c R ->
  (forall a, triple (R a) (k a) Q) ->
  triple P (bind c k) Q.
Proof.
  intros Hc Hk s Hinv HP. destruct (Hc s Hinv HP) as [Hinv' HR].
  cbn [bind M_monad]. destruct (c s) as [[a|e] s'] eqn:E; cbn [fst snd] in *.
  - apply Hk; auto.
  - split; [assumption | discriminate].
Qed.

Lemma triple_weaken {A : Type} (P P' : state -> Prop) (c : M A)
    (Q Q' : A -> state -> Prop) :
  triple P c Q ->
  (forall s, P' s -> P s) ->
  (forall a s, Q a s -> Q' a s) ->
  triple P' c Q'.
Proof.
  intros H HP HQ s Hinv HP'. destruct (H s Hinv (HP _ HP')) as [Hinv' HQ'].
  split; auto.
Qed.

Lemma Inv_alloc h o : Inv h -> Inv (h ++ [o]).
Proof.
  intros (Hframe & Hle & fd & Hfd & Hvals). split; [|split; [assumption|]].
  - intros r Hr. rewrite <- (Hframe r Hr).
    destruct (nth_error h r) eqn:E.
    + now apply nth_error_alloc.
    + exfalso. rewrite (Hframe r Hr) in E. apply nth_error_None in E. lia.
  - exists fd. split; [now apply nth_error_alloc|].
    intros k v Hin. destruct (Hvals k v Hin) as (r & inner & -> & Hlt & Hr & Hg).
    exists r, inner. repeat split; auto. now apply nth_error_alloc.
Qed.

Lemma get_or_new_spec k v :
  triple (good_or_empty v) (get_or_new k v) (fun x s' => good_or_empty x s').
Proof.
  intros s Hinv Hv. unfold get_or_new, read_dict, alloc.
  cbn [bind M_monad ret].
  destruct v as [| | | |r]; try (cbn; split; [assumption | discriminate]).
  destruct (nth_error (heap s) r) as [[d|l]|] eqn:Hr;
    try (cbn; split; [assumption | discriminate]).
  cbn [fst snd heap]. split; [now apply Inv_alloc|].
  intros x [= <-]. unfold get_default, good_or_empty. cbn [heap].
  destruct (dict_get k d) as [x|] eqn:Hk.
  - left. destruct Hv as [Hg | (r' & [= <-] & He)].
    + apply dict_get_Some_In in Hk.
      apply (Good_items (heap s) r d (k, x) (proj1 Hinv) Hg Hr Hk).
    + rewrite Hr in He. injection He as ->. discriminate.
  - right. exists (length (heap s)). split; [reflexivity|].
    apply nth_error_alloc_new.
Qed.

Lemma session_state_spec props (P : state -> Prop) :
  triple P (Store.session_state props) (fun _ _ => True).
Proof.
  intros s Hinv _. unfold Store.session_state, read_dict. cbn [bind M_monad].
  destruct props as [| | | |r]; try (cbn; split; [assumption | discriminate]).
  destruct (nth_error (heap s) r) as [[d|l]|];
    try (cbn; split; [assumption | discriminate]).
  destruct (get_default "session_state" (HStr "Unknown") d); cbn; auto.
Qed.

(** Writing good items into a dictionary stored in [failed_dict]. *)
Lemma Inv_write_inner h fd k r d :
  Inv h ->
  nth_error h fdr = Some (ODict fd) ->
  In (k, HRef r) fd ->
  (forall k' p, In (k', p) d -> Good p) ->
  Inv (update r (ODict d) h).
Proof.
  intros (Hframe & Hle & fd' & Hfd' & Hvals) Hfd Hin Hd.
  rewrite Hfd in Hfd'. injection Hfd' as <-.
  destruct (Hvals _ _ Hin) as (r0 & inner & [= <-] & Hlt & Hr & _).
  split; [|split; [assumption|]].
  - intros r' Hr'. rewrite nth_error_update_other by lia. now apply Hframe.
  - exists fd. split; [rewrite nth_error_update_other by lia; assumption|].
    intros k1 v1 Hin1.
    destruct (Hvals _ _ Hin1) as (r1 & inner1 & -> & Hlt1 & Hr1 & Hg1).
    destruct (Nat.eq_dec r r1) as [<- | Hne].
    + exists r, d. repeat split; auto. now apply (nth_error_update_same _ _ _ (ODict inner)).
    + exists r1, inner1. repeat split; auto.
      now rewrite nth_error_update_other.
Qed.

(** Storing a new, empty dictionary into [failed_dict]. *)
Lemma Inv_write_new h fd device new :
  Inv h ->
  nth_error h fdr = Some (ODict fd) ->
  nth_error h new = Some (ODict []) ->
  fdr < new ->
  Inv (update fdr (ODict (dict_set device (HRef new) fd)) h).
Proof.
  intros (Hframe & Hle & fd' & Hfd' & Hvals) Hfd Hnew Hlt.
  rewrite Hfd in Hfd'. injection Hfd' as <-.
  split; [|split; [assumption|]].
  - intros r' Hr'. rewrite nth_error_update_other by lia. now apply Hframe.
  - exists (dict_set device (HRef new) fd). split.
    + now apply (nth_error_update_same _ _ _ (ODict fd)).
    + intros k v Hin. apply in_dict_set in Hin as [[-> ->] | Hin].
      * exists new, []. repeat split; auto.
        -- rewrite nth_error_update_other by lia. assumption.
        -- intros k' p [].
      * destruct (Hvals _ _ Hin) as (r1 & inner1 & -> & Hlt1 & Hr1 & Hg1).
        exists r1, inner1. repeat split; auto.
        rewrite nth_error_update_other by lia. assumption.
Qed.

Lemma good_dict_set nbr props (inner : dict hvalue) :
  Good props ->
  (forall k p, In (k, p) inner -> Good p) ->
  forall k p, In (k, p) (dict_set nbr props inner) -> Good p.
Proof.
  intros Hg Hinner k p Hin. apply in_dict_set in Hin as [[-> ->] | Hin]; eauto.
Qed.

(** Recording a failure writes to [failed_dict] and to the dictionary
    stored in it for the device, nowhere else. *)
Lemma record_failure_spec device nbr props :
  triple (fun _ => Good props) (Store.record_failure (HRef fdr) device nbr props)
         (fun _ _ => True).
Proof.
  intros s Hinv Hg. split; [|auto].
  pose proof Hinv as (Hframe & Hle & fd & Hfd & Hvals).
  pose proof (Inv_alloc _ (ODict []) Hinv) as Hinv1.
  pose proof (nth_error_alloc _ (ODict []) _ _ Hfd) as Hfd1.
  unfold Store.record_failure, read_dict, alloc, write_dict.
  cbn [bind M_monad ret]. rewrite Hfd. cbn [heap].
  destruct (dict_get device fd) as [v|] eqn:Hdev.
  - (* the device has its dictionary already *)
    apply dict_get_Some_In in Hdev.
    destruct (Hvals _ _ Hdev) as (r & inner & -> & Hlt & Hr & Hgood).
    cbn [heap]. rewrite (nth_error_alloc _ _ _ _ Hr). cbn [snd heap].
    apply (Inv_write_inner _ fd device); auto.
    now apply good_dict_set.
  - (* a new dictionary is stored for the device *)
    cbn [heap fst snd].
    set (new := length (heap s)).
    assert (Hlt : fdr < new) by (apply nth_error_Some; congruence).
    pose proof (nth_error_alloc_new (heap s) (ODict [])) as Hnew. fold new in Hnew.
    pose proof (Inv_write_new _ fd device new Hinv1 Hfd1 Hnew Hlt) as Hinv2.
    set (h2 := update fdr _ _) in *.
    assert (Hnew2 : nth_error h2 new = Some (ODict [])).
    { unfold h2. rewrite nth_error_update_other by lia. exact Hnew. }
    rewrite Hnew2. cbn [snd heap].
    apply (Inv_write_inner _ (dict_set device (HRef new) fd) device); auto.
    + unfold h2. now apply (nth_error_update_same _ _ _ (ODict fd)).
    + apply dict_get_Some_In. apply dict_get_set_same.
    + apply good_dict_set; [assumption | intros k p []].
Qed.

Lemma check_neighbor_spec device vrf_name st item :
  Store.failed_dict st = HRef fdr ->
  Good (snd item) ->
  triple (fun _ => True) (Store.check_neighbor device vrf_name st item)
         (fun st' _ => Store.failed_dict st' = HRef fdr).
Proof.
  intros Hfd Hg. destruct item as [nbr props]. unfold Store.check_neighbor.
  eapply triple_bind; [apply session_state_spec|]. intros state.
  eapply triple_bind with (R := fun _ _ => True).
  - destruct (String.eqb (if String.eqb state "established" then _ else _) "Failed").
    + rewrite Hfd. eapply triple_weaken; [apply record_failure_spec | | auto].
      intros s _. exact Hg.
    + now apply triple_ret.
  - intros _. now apply triple_ret.
Qed.

(** A loop over the items of a dictionary that is good, or was empty
    when the loop was entered, hands good items to its body. *)
Lemma for_items_spec {B : Type} (J : B -> Prop) body v len :
  Good v \/ len = 0 ->
  (forall b item, J b -> Good (snd item) ->
     triple (fun _ => True) (body b item) (fun b' _ => J b')) ->
  forall fuel i b, J b ->
    triple (fun _ => True) (for_items fuel i len v body b) (fun b' _ => J b').
Proof.
  intros Hv Hbody. induction fuel as [|fuel IH]; intros i b HJ.
  - now apply triple_ret.
  - intros s Hinv _. cbn [for_items bind M_monad]. unfold read_dict.
    destruct v as [| | | |r]; try (cbn; split; [assumption | discriminate]).
    destruct (nth_error (heap s) r) as [[d|l]|] eqn:Hr;
      try (cbn; split; [assumption | discriminate]).
    destruct (Nat.eqb (length d) len) eqn:Hlen;
      [|cbn; split; [assumption | discriminate]].
    destruct (nth_error d i) as [item|] eqn:Hi.
    + assert (Hgood : Good (snd item)).
      { destruct Hv as [Hg | ->].
        - apply (Good_items (heap s) r d item (proj1 Hinv) Hg Hr).
          eapply nth_error_In. eassumption.
        - apply Nat.eqb_eq in Hlen. destruct d; [|discriminate].
          now destruct i. }
      destruct (Hbody b item HJ Hgood s Hinv I) as [Hinv' HJ'].
      cbn [bind M_monad].
      destruct (body b item s) as [[b'|e] s'] eqn:E; cbn [fst snd] in *.
      * apply IH; auto.
      * split; [assumption | discriminate].
    + cbn. split; [assumption|]. now intros a [= <-].
Qed.

Lemma for_each_item_spec {B : Type} (J : B -> Prop) body v b :
  (forall b item, J b -> Good (snd item) ->
     triple (fun _ => True) (body b item) (fun b' _ => J b')) ->
  J b ->
  triple (good_or_empty v) (for_each_item v body b) (fun b' _ => J b').
Proof.
  intros Hbody HJ s Hinv Hv. unfold for_each_item, read_dict.
  cbn [bind M_monad].
  destruct v as [| | | |r]; try (cbn; split; [assumption | discriminate]).
  destruct (nth_error (heap s) r) as [[d|l]|] eqn:Hr;
    try (cbn; split; [assumption | discriminate]).
  apply for_items_spec; auto.
  destruct Hv as [Hg | (r' & [= <-] & He)]; [now left | right].
  rewrite Hr in He. now injection He as ->.
Qed.

Lemma check_vrf_spec device st item :
  Store.failed_dict st = HRef fdr ->
  Good (snd item) ->
  triple (fun _ => True) (Store.check_vrf device st item)
         (fun st' _ => Store.failed_dict st' = HRef fdr).
Proof.
  intros Hfd Hg. destruct item as [vrf_name vrf_data]. unfold Store.check_vrf.
  eapply triple_bind.
  - eapply triple_weaken; [apply get_or_new_spec | | intros a s H; exact H].
    intros s _. now left.
  - intros neighbors.
    apply (for_each_item_spec (fun st' => Store.failed_dict st' = HRef fdr)); auto.
    intros b item Hb Hitem. now apply check_neighbor_spec.
Qed.

Lemma check_device_spec st item :
  Store.failed_dict st = HRef fdr ->
  Good (snd item) ->
  triple (fun _ => True) (Store.check_device st item)
         (fun st' _ => Store.failed_dict st' = HRef fdr).
Proof.
  intros Hfd Hg. destruct item as [device bgp_info]. unfold Store.check_device.
  eapply triple_bind.
  { eapply triple_weaken; [apply get_or_new_spec | | intros a s H; exact H].
    intros s _. now left. }
  intros instance. eapply triple_bind; [apply get_or_new_spec|].
  intros default. eapply triple_bind; [apply get_or_new_spec|].
  intros vrfs_dict. eapply triple_bind.
  { apply (for_each_item_spec (fun st' => Store.failed_dict st' = HRef fdr)); auto.
    intros b item Hb Hitem. now apply check_vrf_spec. }
  intros st'. cbv beta.
  eapply triple_bind with (R := fun _ _ => Store.failed_dict st' = HRef fdr).
  { intros s Hinv H. cbn. auto. }
  intros u1.
  eapply triple_bind with (R := fun _ _ => Store.failed_dict st' = HRef fdr).
  { intros s Hinv H. cbn. auto. }
  intros u2. apply triple_ret. intros s H. apply H.
Qed.

(** The loop of [check_bgp], started in the store [h0]. *)
Lemma check_bgp_loop_spec all_bgp_sessions s :
  heap s = h0 ->
  fdr = length h0 ->
  Good all_bgp_sessions ->
  Inv (heap (snd (Store.check_bgp_loop all_bgp_sessions s)))
  /\ forall st, fst (Store.check_bgp_loop all_bgp_sessions s) = Return st ->
                Store.failed_dict st = HRef fdr.
Proof.
  intros Hs Hfdr Hg. unfold Store.check_bgp_loop, alloc. cbn [bind M_monad].
  rewrite Hs, <- Hfdr.
  apply (for_each_item_spec (fun st' => Store.failed_dict st' = HRef fdr)).
  - intros b item Hb Hitem. now apply check_device_spec.
  - reflexivity.
  - cbn [heap]. split; [|split; [lia|]].
    + intros r Hr. now apply nth_error_app1.
    + exists []. split; [subst fdr; apply nth_error_alloc_new | intros k v []].
  - now left.
Qed.

Lemma check_bgp_spec all_bgp_sessions s :
  heap s = h0 ->
  fdr = length h0 ->
  Good all_bgp_sessions ->
  Inv (heap (snd (Store.check_bgp all_bgp_sessions s))).
Proof.
  intros Hs Hfdr Hg.
  destruct (check_bgp_loop_spec all_bgp_sessions s Hs Hfdr Hg) as [Hinv _].
  unfold Store.check_bgp. cbn [bind M_monad].
  destruct (Store.check_bgp_loop all_bgp_sessions s) as [[st|e] s1];
    cbn [fst snd] in *; [|assumption].
  unfold read_dict. destruct (Store.failed_dict st) as [| | | |r]; try assumption.
  destruct (nth_error (heap s1) r) as [[d|l]|]; try assumption.
  destruct (truthy d); cbn; assumption.
Qed.

End Frame.

Lemma closedb_closed h : closedb h = true -> closed h.
Proof.
  unfold closedb, closed. intros H o v Ho Hv.
  rewrite forallb_forall in H. specialize (H o Ho).
  rewrite forallb_forall in H. specialize (H v Hv).
  destruct v; cbn; auto. now apply Nat.ltb_lt.
Qed.

Lemma old_items h : closed h ->
  forall h' r d item,
    (forall r', r' < length h -> nth_error h' r' = nth_error h r') ->
    old (length h) (HRef r) ->
    nth_error h' r = Some (ODict d) ->
    In item d ->
    old (length h) (snd item).
Proof.
  intros Hclosed h' r d item Hframe Hr Hd Hin. cbn in Hr.
  rewrite (Hframe r Hr) in Hd. apply nth_error_In in Hd.
  apply (Hclosed (ODict d)); [assumption|]. cbn. now apply in_map.
Qed.

(** Every object that was in the store before [check_bgp] ran is as it
    was afterwards. *)
Lemma check_bgp_frame all_bgp_sessions s r :
  r < length (heap s) ->
  nth_error (heap (snd (Store.check_bgp all_bgp_sessions s))) r = nth_error (heap s) r.
Proof.
  intros Hr.
  assert (Hinv : Inv (heap s) (length (heap s)) (fun _ => True)
                   (heap (snd (Store.check_bgp all_bgp_sessions s)))).
  { apply check_bgp_spec; auto. }
  now apply (proj1 Hinv).
Qed.

(** C9.  [check_bgp] leaves every object that was in the store before it
    ran as it was, whether it ends by a verdict or by an exception: the
    dictionary of snapshots, the snapshots and everything inside them are
    unchanged.  What it writes to are the dictionary [failed_dict] and the
    dictionaries stored in it, all of them new.  In a store without
    dangling references, the values the loop leaves in those dictionaries
    are old: the attributes recorded for a neighbour are the neighbour's
    own dictionary, by reference, not a copy of it. *)
Theorem check_bgp_leaves_input (all_bgp_sessions : hvalue) (s : state) :
  (forall r, r < length (heap s) ->
     nth_error (heap (snd (Store.check_bgp all_bgp_sessions s))) r
     = nth_error (heap s) r)
  /\ (closed (heap s) ->
      old (length (heap s)) all_bgp_sessions ->
      forall st s',
        Store.check_bgp_loop all_bgp_sessions s = (Return st, s') ->
        exists fd,
          Store.failed_dict st = HRef (length (heap s))
          /\ nth_error (heap s') (length (heap s)) = Some (ODict fd)
          /\ forall device v, In (device, v) fd ->
               exists r inner,
                 v = HRef r /\ length (heap s) < r
                 /\ nth_error (heap s') r = Some (ODict inner)
                 /\ forall nbr p, In (nbr, p) inner -> old (length (heap s)) p).
Proof.
  split.
  - intros r Hr. now apply check_bgp_frame.
  - intros Hclosed Hroot st s' Hrun.
    destruct (check_bgp_loop_spec (heap s) (length (heap s)) (old (length (heap s)))
                (old_items _ Hclosed) all_bgp_sessions s eq_refl eq_refl Hroot)
      as [Hinv Hfd].
    rewrite Hrun in Hinv, Hfd. cbn [fst snd] in Hinv, Hfd.
    destruct Hinv as (_ & _ & fd & Hfdr & Hvals).
    exists fd. repeat split; auto.
Qed.

Lemma check_bgp_leaves_input_witness :
  closed (heap example_state)
  /\ old (length (heap example_state)) (fst example_sessions)
  /\ exists st s' fd,
       Store.check_bgp_loop (fst example_sessions) example_state = (Return st, s')
       /\ nth_error (heap example_state) 8 = Some (ODict [("10.0.0.2", HRef 7)])
       /\ nth_error (heap s') 8 = Some (ODict [("10.0.0.2", HRef 7)])
       /\ Store.failed_dict st = HRef 15
       /\ nth_error (heap s') 15 = Some (ODict fd)
       /\ forall device v, In (device, v) fd ->
            exists r inner,
              v = HRef r /\ 15 < r
              /\ nth_error (heap s') r = Some (ODict inner)
              /\ forall nbr p, In (nbr, p) inner -> old 15 p.
Proof.
  assert (Hclosed : closed (heap example_state))
    by (apply closedb_closed; reflexivity).
  assert (Hroot : old (length (heap example_state)) (fst example_sessions))
    by (cbn; lia).
  split; [exact Hclosed|]. split; [exact Hroot|].
  destruct (Store.check_bgp_loop (fst example_sessions) example_state)
    as [[st|e] s'] eqn:Hrun; [|vm_compute in Hrun; discriminate].
  destruct (proj2 (check_bgp_leaves_input (fst example_sessions) example_state)
              Hclosed Hroot st s' Hrun) as (fd & Hst & Hfd & Hvals).
  exists st, s', fd. split; [reflexivity|]. split; [reflexivity|].
  split; [vm_compute in Hrun; injection Hrun as <- <-; reflexivity|].
  repeat split; assumption.
Defined.

End StoreFacts.

(* ================================================================= *)
(** ** The store embedding computes what the value embedding computes *)

Module StoreSim.
Import Store(ref, hvalue(..), object(..), store, state(..), heap, emitted,
             alloc, read_dict, write_dict, get_or_new, for_items, for_each_item,
             update, repr, repr_items, entry_rel).
Import StoreFacts.

Lemma repr_VDict h d v :
  repr h (VDict d) v
  <-> exists r hd, v = HRef r /\ nth_error h r = Some (ODict hd) /\ repr_items h d hd.
Proof.
  assert (Hall : forall d hd,
    (fix repr_all (d : list (string * value)) (hd : dict hvalue) : Prop :=
       match d, hd with
       | [], [] => True
       | (k, p) :: d', (k', x) :: hd' => k = k' /\ repr h p x /\ repr_all d' hd'
       | _, _ => False
       end) d hd <-> repr_items h d hd).
  { clear. unfold repr_items.
    induction d as [|[k p] d IH]; destruct hd as [|[k' x] hd]; split; intros H.
    - constructor.
    - exact I.
    - destruct H.
    - inversion H.
    - destruct H.
    - inversion H.
    - destruct H as (-> & Hp & Hrest). constructor; [now split | now apply IH].
    - inversion H as [|? ? ? ? [Hk Hp] Hrest]; subst.
      cbn [fst snd] in *. subst. repeat split; auto. now apply IH. }
  cbn [repr]. split; intros (r & hd & Hv & Hr & H); exists r, hd;
    repeat split; auto; now apply Hall.
Qed.

Lemma repr_not_dict h p v :
  repr h p v ->
  (forall d, p <> VDict d) ->
  forall h', (forall r, r < length h -> nth_error h' r = nth_error h r) ->
  forall attr s, heap s = h' -> read_dict attr v s = (attribute_error attr, s).
Proof.
  intros Hp Hnd h' Hframe attr s Hs. unfold read_dict.
  destruct p as [| | | |l|d]; cbn [repr] in Hp; subst; try reflexivity.
  - destruct Hp as (r & hl & -> & Hr & _).
    rewrite Hframe, Hr; [reflexivity|]. apply nth_error_Some. congruence.
  - now destruct (Hnd d).
Qed.

Lemma repr_items_get h d hd k :
  repr_items h d hd ->
  match dict_get k d, dict_get k hd with
  | Some p, Some x => repr h p x
  | None, None => True
  | _, _ => False
  end.
Proof.
  unfold repr_items. induction 1 as [|[k1 p] [k2 x] d hd [Hk Hp] Hrest IH]; cbn; auto.
  cbn in Hk. subst k2. destruct (String.eqb k k1); auto.
Qed.

Lemma dict_set_absent {V : Type} k (v : V) d :
  dict_get k d = None -> dict_set k v d = d ++ [(k, v)].
Proof.
  induction d as [|[k' v'] d IH]; cbn; [reflexivity|].
  destruct (String.eqb k k'); [discriminate|]. intros H. now rewrite IH.
Qed.

Lemma dict_set_last {V : Type} k (v v0 : V) d :
  dict_get k d = None -> dict_set k v (d ++ [(k, v0)]) = d ++ [(k, v)].
Proof.
  induction d as [|[k' v'] d IH]; cbn.
  - now rewrite String.eqb_refl.
  - destruct (String.eqb k k'); [discriminate|]. intros H. now rewrite IH.
Qed.

Lemma dict_get_in_values {V : Type} k (v : V) d :
  dict_get k d = Some v -> In v (map snd d).
Proof. intros H. apply dict_get_Some_In in H. now apply (in_map snd) in H. Qed.

Lemma repr_items_set h d hd k p x :
  repr_items h d hd -> repr h p x ->
  repr_items h (dict_set k p d) (dict_set k x hd).
Proof.
  unfold repr_items. intros H Hp.
  induction H as [|[k1 p1] [k2 x1] d hd [Hk Hp1] Hrest IH]; cbn.
  - constructor; [now split | constructor].
  - cbn in Hk. subst k2. destruct (String.eqb k k1).
    + constructor; [now split | assumption].
    + constructor; [now split | assumption].
Qed.

Section Sim.
Variable h0 : store.
Variable fdr : ref.

Local Abbreviation sinv := (Store.SInv h0 fdr).
Local Abbreviation held := (Store.vrel h0).
Local Abbreviation related := (lrel h0 fdr).
Local Abbreviation sim := (simres h0 fdr).

Lemma frame_alloc (h : store) o :
  (forall r, r < length h0 -> nth_error h r = nth_error h0 r) ->
  forall r, r < length h0 -> nth_error (h ++ [o]) r = nth_error h0 r.
Proof.
  intros Hframe r Hr. rewrite <- (Hframe r Hr). apply nth_error_app1.
  apply nth_error_Some. rewrite (Hframe r Hr). now apply nth_error_Some.
Qed.

Lemma entry_rel_alloc h o a b :
  entry_rel h0 h fdr a b -> entry_rel h0 (h ++ [o]) fdr a b.
Proof.
  intros (Hk & r & inner & Hb & Hlt & Hr & Hitems). split; [assumption|].
  exists r, inner. repeat split; auto. now apply nth_error_alloc.
Qed.

Lemma SInv_alloc fd h o : sinv fd h -> sinv fd (h ++ [o]).
Proof.
  intros (Hframe & Hle & fd_s & Hfd & Hrel & Hnd).
  split; [now apply frame_alloc|]. split; [assumption|].
  exists fd_s. split; [now apply nth_error_alloc|]. split; [|assumption].
  eapply Forall2_impl; [|exact Hrel]. intros a b. apply entry_rel_alloc.
Qed.

(** Reading a dictionary of [h0] during the section gives its items. *)
Lemma read_old_dict fd s attr d x :
  sinv fd (heap s) ->
  repr h0 (VDict d) x ->
  exists r hd,
    x = HRef r /\ nth_error h0 r = Some (ODict hd)
    /\ nth_error (heap s) r = Some (ODict hd)
    /\ read_dict attr x s = (Return hd, s)
    /\ repr_items h0 d hd.
Proof.
  intros (Hframe & _) Hx. apply repr_VDict in Hx as (r & hd & -> & Hr & Hitems).
  assert (Hs : nth_error (heap s) r = Some (ODict hd)).
  { rewrite Hframe; [assumption|]. apply nth_error_Some. congruence. }
  exists r, hd. repeat split; auto. unfold read_dict. now rewrite Hs.
Qed.

Lemma get_or_new_sim k p x fd s :
  sinv fd (heap s) ->
  held s p x ->
  match py_get k (VDict []) p with
  | Return p' =>
      exists x' s',
        get_or_new k x s = (Return x', s')
        /\ held s' p' x' /\ sinv fd (heap s') /\ emitted s' = emitted s
  | Raise e => exists s', get_or_new k x s = (Raise e, s')
  end.
Proof.
  intros Hinv [Hrepr | (-> & r & -> & He)].
  - destruct p as [| | | |l|d];
      try (cbn [py_get]; exists s; unfold get_or_new; cbn [bind M_monad];
           rewrite (repr_not_dict _ _ _ Hrepr) with (h' := heap s);
           [reflexivity | intros d'; discriminate | apply Hinv | reflexivity]).
    destruct (read_old_dict fd s "get" d x Hinv Hrepr)
      as (r & hd & -> & Hr0 & Hr & Hread & Hitems).
    cbn [py_get]. unfold get_or_new. cbn [bind M_monad]. rewrite Hread.
    unfold alloc. cbn [heap emitted ret M_monad].
    eexists _, _. split; [reflexivity|]. cbn [heap emitted].
    split; [|split; [now apply SInv_alloc | reflexivity]].
    unfold get_default. pose proof (repr_items_get h0 d hd k Hitems) as Hget.
    destruct (dict_get k d) as [p'|], (dict_get k hd) as [x'|]; try contradiction.
    + now left.
    + right. split; [reflexivity|]. exists (length (heap s)). split; [reflexivity|].
      cbn [heap]. apply nth_error_alloc_new.
  - cbn [py_get get_default dict_get]. unfold get_or_new, read_dict, alloc.
    cbn [bind M_monad ret]. rewrite He. cbn [heap emitted].
    eexists _, _. split; [reflexivity|]. cbn [heap emitted get_default dict_get].
    split; [|split; [now apply SInv_alloc | reflexivity]].
    right. split; [reflexivity|]. exists (length (heap s)). split; [reflexivity|].
    apply nth_error_alloc_new.
Qed.

Section Loop.
Variable body_p : locals -> string * value -> outcome locals.
Variable body_s : Store.locals -> string * hvalue -> Store.M Store.locals.

Hypothesis body_sim : forall st_p st_s s item_p item_s,
  related st_p st_s s ->
  fst item_p = fst item_s ->
  repr h0 (snd item_p) (snd item_s) ->
  sim (body_p st_p item_p) (body_s st_s item_s s).

Lemma for_items_sim r hd :
  nth_error h0 r = Some (ODict hd) ->
  forall hd2 d2 hd1 st_p st_s s,
    hd = hd1 ++ hd2 ->
    repr_items h0 d2 hd2 ->
    related st_p st_s s ->
    sim (foldM body_p d2 st_p)
           (for_items (S (length hd2)) (length hd1) (length hd) (HRef r) body_s st_s s).
Proof.
  intros Hr0. induction hd2 as [|item_s hd2 IH]; intros d2 hd1 st_p st_s s Hhd Hitems Hl.
  - inversion Hitems; subst. cbn [foldM ret outcome_monad for_items bind M_monad].
    unfold read_dict.
    assert (Hs : nth_error (heap s) r = Some (ODict (hd1 ++ []))).
    { destruct Hl as (_ & _ & Hframe & _). rewrite Hframe; [assumption|].
      apply nth_error_Some. congruence. }
    rewrite Hs, Nat.eqb_refl.
    assert (Hn : nth_error (hd1 ++ []) (length hd1) = None).
    { apply nth_error_None. rewrite app_nil_r. lia. }
    rewrite Hn. cbn. exists st_s. auto.
  - inversion Hitems as [|item_p ? d2' ? [Hk Hp] Hrest]; subst.
    cbn [foldM bind outcome_monad]. cbn [for_items bind M_monad].
    unfold read_dict.
    assert (Hs : nth_error (heap s) r = Some (ODict (hd1 ++ item_s :: hd2))).
    { destruct Hl as (_ & _ & Hframe & _). rewrite Hframe; [assumption|].
      apply nth_error_Some. congruence. }
    rewrite Hs, Nat.eqb_refl.
    assert (Hn : nth_error (hd1 ++ item_s :: hd2) (length hd1) = Some item_s).
    { rewrite nth_error_app2, Nat.sub_diag; [reflexivity | lia]. }
    rewrite Hn.
    pose proof (body_sim st_p st_s s item_p item_s Hl Hk Hp) as Hb.
    destruct (body_p st_p item_p) as [st_p'|e]; cbn [simres] in Hb |- *.
    + destruct Hb as (st_s' & Hfst & Hl').
      destruct (body_s st_s item_s s) as [o s'] eqn:E. cbn [fst snd] in *. subst o.
      specialize (IH d2' (hd1 ++ [item_s]) st_p' st_s' s').
      rewrite length_app in IH. cbn [length] in IH.
      rewrite Nat.add_1_r in IH. apply IH; auto.
      now rewrite <- app_assoc.
    + destruct (body_s st_s item_s s) as [o s'] eqn:E. cbn [fst snd] in *. now subst o.
Qed.

Lemma for_each_item_sim p x st_p st_s s :
  related st_p st_s s ->
  held s p x ->
  sim (d <- py_items p ;; foldM body_p d st_p)
         (for_each_item x body_s st_s s).
Proof.
  intros Hl [Hrepr | (-> & r & -> & He)].
  - destruct p as [| | | |l|d];
      try (cbn [py_items bind outcome_monad attribute_error];
           unfold for_each_item; cbn [bind M_monad];
           rewrite (repr_not_dict _ _ _ Hrepr) with (h' := heap s);
           [reflexivity | intros d'; discriminate | apply Hl | reflexivity]).
    destruct (read_old_dict _ s "items" d x (proj2 (proj2 Hl)) Hrepr)
      as (r & hd & -> & Hr0 & Hr & Hread & Hitems).
    cbn [py_items bind outcome_monad]. unfold for_each_item. cbn [bind M_monad].
    rewrite Hread. now apply (for_items_sim r hd Hr0 hd d []).
  - cbn [py_items bind outcome_monad foldM ret].
    unfold for_each_item, read_dict. cbn [bind M_monad]. rewrite He.
    cbn [length for_items bind M_monad]. unfold read_dict. rewrite He.
    cbn. exists st_s. auto.
Qed.

End Loop.

Lemma Forall2_right {A B : Type} (R : A -> B -> Prop) l1 l2 b :
  Forall2 R l1 l2 -> In b l2 -> exists a, In a l1 /\ R a b.
Proof.
  induction 1 as [|a0 b0 l1 l2 H0 Hrest IH]; intros Hin; [destruct Hin|].
  destruct Hin as [<- | Hin].
  - exists a0. split; [now left | assumption].
  - destruct (IH Hin) as (a & Ha & HR). exists a. split; [now right | assumption].
Qed.

Lemma Forall2_impl_right {A B : Type} (R R' : A -> B -> Prop) l1 l2 :
  Forall2 R l1 l2 ->
  (forall a b, In b l2 -> R a b -> R' a b) ->
  Forall2 R' l1 l2.
Proof.
  induction 1 as [|a0 b0 l1 l2 H0 Hrest IH]; intros Himp; constructor.
  - apply Himp; [now left | assumption].
  - apply IH. intros a b Hin. apply Himp. now right.
Qed.

Lemma entry_rel_update h a b r o :
  entry_rel h0 h fdr a b ->
  snd b <> HRef r ->
  entry_rel h0 (update r o h) fdr a b.
Proof.
  intros (Hk & r1 & inner & Hb & Hlt & Hr & Hitems) Hne. split; [assumption|].
  exists r1, inner. repeat split; auto.
  rewrite nth_error_update_other; [assumption|]. intros ->. now apply Hne.
Qed.

Lemma index_get h fd fd_s device :
  Forall2 (entry_rel h0 h fdr) fd fd_s ->
  match dict_get device fd, dict_get device fd_s with
  | Some inner_p, Some v => entry_rel h0 h fdr (device, inner_p) (device, v)
  | None, None => True
  | _, _ => False
  end.
Proof.
  induction 1 as [|[k1 ip] [k2 v] fd fd_s Hhead Hrest IH]; cbn; auto.
  pose proof Hhead as (Hk & Hex). cbn in Hk. subst k2.
  destruct (String.eqb device k1) eqn:E; [|assumption].
  apply String.eqb_eq in E. subst k1. exact Hhead.
Qed.

(** Writing to the dictionary of one device leaves the other entries of
    the index as they are. *)
Lemma index_write_inner h r inner_s inner_p' inner_s' device :
  nth_error h r = Some (ODict inner_s) ->
  fdr < r ->
  repr_items h0 inner_p' inner_s' ->
  forall fd fd_s,
    Forall2 (entry_rel h0 h fdr) fd fd_s ->
    NoDup (map snd fd_s) ->
    dict_get device fd_s = Some (HRef r) ->
    Forall2 (entry_rel h0 (update r (ODict inner_s') h) fdr)
            (dict_set device inner_p' fd) fd_s.
Proof.
  intros Hr Hlt Hitems.
  induction 1 as [|[k1 ip] [k2 v] fd fd_s Hhead Hrest IH]; intros Hnd Hget;
    [discriminate|].
  pose proof Hhead as (Hk & Hex). cbn in Hk. subst k2.
  cbn [map snd] in Hnd. apply NoDup_cons_iff in Hnd as [Hnotin Hnd].
  cbn [dict_get] in Hget. cbn [dict_set].
  destruct (String.eqb device k1) eqn:E.
  - injection Hget as ->. constructor.
    + split; [reflexivity|]. exists r, inner_s'. repeat split; auto.
      now apply (nth_error_update_same _ _ _ (ODict inner_s)).
    + eapply Forall2_impl_right; [exact Hrest|].
      intros a b Hin Hab. apply entry_rel_update; [assumption|].
      intros Heq. apply Hnotin. rewrite <- Heq. now apply in_map.
  - constructor.
    + apply entry_rel_update; [assumption|]. cbn [snd]. intros ->.
      apply Hnotin. eapply dict_get_in_values. eassumption.
    + now apply IH.
Qed.

Lemma record_failure_unfold_some device nbr props (fd : dict (dict value)) inner :
  dict_get device fd = Some inner ->
  record_failure device nbr props fd = dict_set device (dict_set nbr props inner) fd.
Proof. intros H. unfold record_failure, setdefault. now rewrite H. Qed.

Lemma record_failure_unfold_none device nbr props (fd : dict (dict value)) :
  dict_get device fd = None ->
  record_failure device nbr props fd = fd ++ [(device, [(nbr, props)])].
Proof.
  intros H. unfold record_failure, setdefault. rewrite H. cbv beta iota.
  rewrite (dict_set_absent device ([] : dict value) fd H). now apply dict_set_last.
Qed.

(** Recording a failure in the store records it in the index as a
    value. *)
Lemma record_failure_sim device nbr props_p props_s fd s :
  sinv fd (heap s) ->
  repr h0 props_p props_s ->
  exists s',
    Store.record_failure (HRef fdr) device nbr props_s s = (Return tt, s')
    /\ sinv (record_failure device nbr props_p fd) (heap s')
    /\ emitted s' = emitted s.
Proof.
  intros Hinv Hp.
  pose proof (SInv_alloc _ _ (ODict []) Hinv) as Hinv1.
  destruct Hinv as (Hframe & Hle & fd_s & Hfd & Hrel & Hnd).
  destruct Hinv1 as (Hframe1 & _ & fd_s1 & Hfd1 & Hrel1 & _).
  rewrite (nth_error_alloc _ _ _ _ Hfd) in Hfd1. injection Hfd1 as <-.
  assert (Hfdr : fdr < length (heap s)) by (apply nth_error_Some; congruence).
  unfold Store.record_failure, read_dict, alloc, write_dict.
  cbn [bind M_monad ret]. rewrite Hfd. cbn [heap emitted].
  pose proof (index_get _ _ _ device Hrel1) as Hget.
  destruct (dict_get device fd) as [inner_p|] eqn:Hdp,
           (dict_get device fd_s) as [v|] eqn:Hds; try contradiction.
  - (* the device has its dictionary *)
    destruct Hget as (_ & r & inner_s & Hv & Hlt & Hr & Hitems). cbn [snd] in Hv.
    subst v. cbn [heap emitted]. rewrite Hr. cbn [heap emitted fst snd].
    eexists. split; [reflexivity|]. cbn [heap emitted]. split; [|reflexivity].
    rewrite (record_failure_unfold_some _ _ _ _ _ Hdp).
    split; [|split; [assumption|]].
    + intros r' Hr'. rewrite nth_error_update_other by lia. now apply Hframe1.
    + exists fd_s. split; [|split; [|assumption]].
      * rewrite nth_error_update_other by lia. now apply nth_error_alloc.
      * apply (index_write_inner _ _ inner_s); auto.
        now apply repr_items_set.
  - (* a dictionary is made for the device *)
    cbn [heap emitted fst snd].
    set (new := length (heap s)).
    rewrite (dict_set_absent device (HRef new) fd_s Hds).
    set (h2 := update fdr _ _).
    assert (Hnew2 : nth_error h2 new = Some (ODict [])).
    { unfold h2. rewrite nth_error_update_other by (unfold new; lia).
      apply nth_error_alloc_new. }
    rewrite Hnew2. cbn [heap emitted fst snd dict_set].
    eexists. split; [reflexivity|]. cbn [heap emitted]. split; [|reflexivity].
    rewrite (record_failure_unfold_none _ _ _ _ Hdp).
    assert (Hold : forall b, In b fd_s -> exists r', snd b = HRef r' /\ fdr < r' < new).
    { intros b Hb. destruct (Forall2_right _ _ _ _ Hrel Hb)
        as (a & _ & _ & r' & inner & Hsb & Hlt & Hr' & _).
      exists r'. repeat split; auto. apply nth_error_Some. congruence. }
    split; [|split; [assumption|]].
    + intros r' Hr'. unfold h2. rewrite !nth_error_update_other by (unfold new; lia).
      now apply Hframe1.
    + exists (fd_s ++ [(device, HRef new)]). split; [|split].
      * rewrite nth_error_update_other by (unfold new; lia).
        unfold h2. apply (nth_error_update_same _ _ _ (ODict fd_s)).
        now apply nth_error_alloc.
      * apply Forall2_app.
        -- eapply Forall2_impl_right; [exact Hrel1|].
           intros a b Hin Hab. destruct (Hold b Hin) as (r' & Hsb & Hlt').
           apply entry_rel_update; [|rewrite Hsb; intros [= ->]; lia].
           unfold h2. apply entry_rel_update; [assumption|].
           rewrite Hsb. intros [= ->]. lia.
        -- constructor; [|constructor]. split; [reflexivity|].
           exists new, [(nbr, props_s)]. repeat split; auto.
           ++ apply (nth_error_update_same _ _ _ (ODict [])). exact Hnew2.
           ++ constructor; [now split | constructor].
      * rewrite map_app. cbn [map snd]. apply NoDup_app; repeat split; auto.
        -- constructor; [intros [] | constructor].
        -- intros x Hx [<- | []]. apply in_map_iff in Hx as (b & Hsb & Hb).
           destruct (Hold b Hb) as (r' & Hsb' & Hlt'). rewrite Hsb in Hsb'.
           injection Hsb' as <-. lia.
Qed.

Lemma session_state_sim fd s props_p props_s :
  sinv fd (heap s) ->
  repr h0 props_p props_s ->
  Store.session_state props_s s
  = (raw <- py_get "session_state" (VStr "Unknown") props_p ;; py_lower raw, s).
Proof.
  intros Hinv Hp.
  destruct props_p as [| | | |l|d];
    try (cbn [py_get bind outcome_monad attribute_error];
         unfold Store.session_state; cbn [bind M_monad];
         rewrite (repr_not_dict _ _ _ Hp) with (h' := heap s);
         [reflexivity | intros d'; discriminate | apply Hinv | reflexivity]).
  destruct (read_old_dict fd s "get" d props_s Hinv Hp)
    as (r & hd & -> & Hr0 & Hr & Hread & Hitems).
  unfold Store.session_state. cbn [bind M_monad py_get outcome_monad]. rewrite Hread.
  unfold get_default.
  pose proof (repr_items_get h0 d hd "session_state" Hitems) as Hget.
  destruct (dict_get "session_state" d) as [p'|],
           (dict_get "session_state" hd) as [x'|]; try contradiction; [|reflexivity].
  destruct p' as [| | | |l'|d']; cbn [repr] in Hget; subst; try reflexivity.
  - now destruct Hget as (r' & hl & -> & _).
  - now destruct Hget as (r' & hd' & -> & _).
Qed.

Lemma check_neighbor_sim device vrf_name st_p st_s s item_p item_s :
  related st_p st_s s ->
  fst item_p = fst item_s ->
  repr h0 (snd item_p) (snd item_s) ->
  sim (check_neighbor device vrf_name st_p item_p)
      (Store.check_neighbor device vrf_name st_s item_s s).
Proof.
  destruct item_p as [nbr props_p], item_s as [nbr' props_s]. cbn [fst snd].
  intros (Hfd & Hrows & Hinv) <- Hp.
  unfold check_neighbor, Store.check_neighbor. cbn [bind M_monad].
  rewrite (session_state_sim _ _ _ _ Hinv Hp). cbn [bind outcome_monad].
  destruct (py_get "session_state" (VStr "Unknown") props_p) as [raw|e];
    [|reflexivity].
  destruct (py_lower raw) as [state|e]; [|reflexivity].
  cbn [ret outcome_monad simres].
  destruct (String.eqb (if String.eqb state "established" then "Passed" else "Failed")
                       "Failed").
  - rewrite Hfd.
    destruct (record_failure_sim device nbr props_p props_s _ s Hinv Hp)
      as (s' & Hrun & Hinv' & _).
    rewrite Hrun. cbn [ret M_monad fst snd]. eexists. split; [reflexivity|].
    split; [reflexivity|]. split; [cbn; now rewrite Hrows | exact Hinv'].
  - cbn [ret M_monad fst snd]. eexists. split; [reflexivity|].
    split; [cbn; exact Hfd|]. split; [cbn; now rewrite Hrows | exact Hinv].
Qed.

Lemma check_vrf_sim device st_p st_s s item_p item_s :
  related st_p st_s s ->
  fst item_p = fst item_s ->
  repr h0 (snd item_p) (snd item_s) ->
  sim (check_vrf device st_p item_p) (Store.check_vrf device st_s item_s s).
Proof.
  destruct item_p as [vrf_name vrf_p], item_s as [vrf_name' vrf_s]. cbn [fst snd].
  intros (Hfd & Hrows & Hinv) <- Hp.
  unfold check_vrf, Store.check_vrf. cbn [bind M_monad outcome_monad].
  pose proof (get_or_new_sim "neighbor" vrf_p vrf_s _ s Hinv (or_introl Hp)) as Hget.
  destruct (py_get "neighbor" (VDict []) vrf_p) as [neighbors_p|e].
  - destruct Hget as (neighbors_s & s' & Hrun & Hheld & Hinv' & _). rewrite Hrun.
    apply (for_each_item_sim _ _ (check_neighbor_sim device vrf_name)); auto.
    split; [exact Hfd|]. split; [exact Hrows | exact Hinv'].
  - destruct Hget as (s' & Hrun). now rewrite Hrun.
Qed.

Lemma check_device_sim device st_p st_s s info_p info_s :
  related st_p st_s s ->
  repr h0 info_p info_s ->
  sim (check_snapshot device info_p st_p) (Store.check_device st_s (device, info_s) s).
Proof.
  intros (Hfd & Hrows & Hinv) Hp.
  unfold check_snapshot, Store.check_device. cbn [bind M_monad outcome_monad].
  pose proof (get_or_new_sim "instance" info_p info_s _ s Hinv (or_introl Hp)) as H1.
  destruct (py_get "instance" (VDict []) info_p) as [instance_p|e];
    [|destruct H1 as (s' & Hrun); now rewrite Hrun].
  destruct H1 as (instance_s & s1 & Hrun1 & Hheld1 & Hinv1 & _). rewrite Hrun1.
  pose proof (get_or_new_sim "default" instance_p instance_s _ s1 Hinv1 Hheld1) as H2.
  destruct (py_get "default" (VDict []) instance_p) as [default_p|e];
    [|destruct H2 as (s' & Hrun); now rewrite Hrun].
  destruct H2 as (default_s & s2 & Hrun2 & Hheld2 & Hinv2 & _). rewrite Hrun2.
  pose proof (get_or_new_sim "vrf" default_p default_s _ s2 Hinv2 Hheld2) as H3.
  destruct (py_get "vrf" (VDict []) default_p) as [vrfs_p|e];
    [|destruct H3 as (s' & Hrun); now rewrite Hrun].
  destruct H3 as (vrfs_s & s3 & Hrun3 & Hheld3 & Hinv3 & _). rewrite Hrun3.
  assert (Hrel3 : related st_p st_s s3).
  { split; [exact Hfd|]. split; [exact Hrows | exact Hinv3]. }
  pose proof (for_each_item_sim _ _ (check_vrf_sim device) vrfs_p vrfs_s
                st_p st_s s3 Hrel3 Hheld3) as Hloop.
  cbn [bind outcome_monad] in Hloop.
  destruct (py_items vrfs_p) as [vrfs|e]; cbn [simres] in Hloop |- *.
  - destruct (foldM (check_vrf device) vrfs st_p) as [st_p'|e]; cbn [simres] in Hloop |- *.
    + destruct Hloop as (st_s' & Hfst & Hrel').
      destruct (for_each_item vrfs_s (Store.check_vrf device) st_s s3) as [o s4].
      cbn [fst snd] in Hfst, Hrel'. subst o.
      exists st_s'. split; [reflexivity|]. exact Hrel'.
    + destruct (for_each_item vrfs_s (Store.check_vrf device) st_s s3) as [o s4].
      cbn [fst] in Hloop. now subst o.
  - destruct (for_each_item vrfs_s (Store.check_vrf device) st_s s3) as [o s4].
    cbn [fst] in Hloop. now subst o.
Qed.

(** The loop of [check_bgp] in the store [h0], against the loop over the
    values it holds. *)
Lemma check_bgp_loop_sim all_bgp_sessions sessions s :
  heap s = h0 ->
  fdr = length h0 ->
  repr h0 (VDict sessions) all_bgp_sessions ->
  sim (check_snapshots sessions (Locals [] []))
      (Store.check_bgp_loop all_bgp_sessions s).
Proof.
  intros Hs Hfdr Hp. unfold Store.check_bgp_loop, alloc. cbn [bind M_monad].
  rewrite Hs, <- Hfdr.
  apply (for_each_item_sim
           (fun st item => check_snapshot (fst item) (snd item) st)
           Store.check_device) with (p := VDict sessions).
  - intros st_p st_s s1 [device info_p] [device' info_s] Hrel Hk Hinfo.
    cbn [fst snd] in *. subst device'. now apply check_device_sim.
  - split; [reflexivity|]. split; [reflexivity|]. cbn [failed_dict heap].
    split; [|split; [lia|]].
    + intros r Hr. now apply nth_error_app1.
    + exists []. split; [subst fdr; apply nth_error_alloc_new|].
      split; constructor.
  - now left.
Qed.

End Sim.

(** Nothing of what the loop of [check_bgp] over values returns depends
    on the logging. *)
Lemma check_devices_outcome sessions : forall st w,
  fst (foldM check_device sessions st w) = check_snapshots sessions st.
Proof.
  induction sessions as [|[device info] sessions IH]; intros st w; [reflexivity|].
  unfold check_snapshots in *. cbn [foldM bind M_monad outcome_monad fst snd].
  unfold check_device at 1, lift. cbn [bind M_monad].
  destruct (check_snapshot device info st) as [st'|e]; [|reflexivity].
  cbn [log_info ret M_monad]. apply IH.
Qed.

Lemma check_bgp_loop_outcome w sessions :
  all_bgp_sessions w = Some sessions ->
  fst (check_bgp_loop w) = check_snapshots sessions (Locals [] []).
Proof.
  intros Hs. unfold check_bgp_loop, get_all_bgp_sessions. cbn [bind M_monad].
  rewrite Hs. apply check_devices_outcome.
Qed.

(** The two embeddings agree.  When the store holds the snapshots
    [sessions], the loop of [check_bgp] over the store and the loop over
    the values end the same way: both raise the same exception, or both
    return, with the same rows, and the dictionary [failed_dict] refers to
    holds the failure index computed over the values, device by device and
    address by address, each address with the attributes of the store the
    section started in. *)
Theorem store_agrees_with_values (w : world) (sessions : dict value)
    (all_bgp_sessions_ref : hvalue) (s : state) :
  all_bgp_sessions w = Some sessions ->
  repr (heap s) (VDict sessions) all_bgp_sessions_ref ->
  match fst (check_bgp_loop w) with
  | Return st =>
      exists st_s,
        fst (Store.check_bgp_loop all_bgp_sessions_ref s) = Return st_s
        /\ locals_held (heap s)
             (heap (snd (Store.check_bgp_loop all_bgp_sessions_ref s))) st st_s
  | Raise e => fst (Store.check_bgp_loop all_bgp_sessions_ref s) = Raise e
  end.
Proof.
  intros Hs Hp. rewrite (check_bgp_loop_outcome _ _ Hs).
  pose proof (check_bgp_loop_sim (heap s) (length (heap s)) all_bgp_sessions_ref
                sessions s eq_refl eq_refl Hp) as Hsim.
  destruct (check_snapshots sessions (Locals [] [])) as [st|e]; cbn [simres] in Hsim;
    [|exact Hsim].
  destruct Hsim as (st_s & Hfst & Hfd & Hrows & _ & _ & fd_s & Hidx & Hrel & _).
  exists st_s. split; [assumption|]. split; [assumption|]. split; [assumption|].
  exists fd_s. split; assumption.
Qed.

Section ValueInd.
Variable P : value -> Prop.
Hypothesis P_none : P VNone.
Hypothesis P_bool : forall b, P (VBool b).
Hypothesis P_int : forall z, P (VInt z).
Hypothesis P_str : forall s, P (VStr s).
Hypothesis P_list : forall l, Forall P l -> P (VList l).
Hypothesis P_dict : forall d, Forall (fun item => P (snd item)) d -> P (VDict d).

(** Induction on values that reaches the elements of lists and
    dictionaries. *)
Fixpoint value_ind' (v : value) : P v :=
  match v with
  | VNone => P_none
  | VBool b => P_bool b
  | VInt z => P_int z
  | VStr s => P_str s
  | VList l =>
      P_list l
        ((fix all (l : list value) : Forall P l :=
            match l with
            | [] => Forall_nil P
            | x :: l' => Forall_cons x (value_ind' x) (all l')
            end) l)
  | VDict d =>
      P_dict d
        ((fix all (d : list (string * value)) : Forall (fun item => P (snd item)) d :=
            match d with
            | [] => Forall_nil _
            | (k, x) :: d' =>
                Forall_cons (P := fun item => P (snd item)) (k, x) (value_ind' x) (all d')
            end) d)
  end.

End ValueInd.

(** A value held by a store is held by every store that has the same
    objects at the same references, whatever else it has. *)
Lemma repr_frame h h' :
  (forall r, r < length h -> nth_error h' r = nth_error h r) ->
  forall pv v, repr h pv v -> repr h' pv v.
Proof.
  intros Hframe.
  assert (Hat : forall r o, nth_error h r = Some o -> nth_error h' r = Some o).
  { intros r o Hr. rewrite Hframe; [assumption|]. apply nth_error_Some. congruence. }
  induction pv as [| | | |l IH|d IH] using value_ind'; intros v Hv;
    try exact Hv.
  - cbn [repr] in Hv |- *. destruct Hv as (r & hl & -> & Hr & Hall).
    exists r, hl. split; [reflexivity|]. split; [now apply Hat|].
    clear Hr. revert hl Hall. induction IH as [|p l Hp Hrest IHl];
      intros [|x hl]; auto.
    intros [Hx Hall]. split; [now apply Hp | now apply IHl].
  - apply repr_VDict in Hv as (r & hd & -> & Hr & Hitems).
    apply repr_VDict. exists r, hd. split; [reflexivity|]. split; [now apply Hat|].
    clear Hr. unfold repr_items in *. revert hd Hitems.
    induction IH as [|[k p] d Hp Hrest IHd]; intros hd Hitems;
      inversion Hitems as [|? b ? hd' [Hk Hx] Hrest']; subst; constructor.
    + split; [assumption|]. now apply Hp.
    + now apply IHd.
Qed.

(** The store [check_bgp] leaves still holds every value it held. *)
Lemma check_bgp_keeps_values all_bgp_sessions_ref s pv v :
  repr (heap s) pv v ->
  repr (heap (snd (Store.check_bgp all_bgp_sessions_ref s))) pv v.
Proof.
  apply repr_frame. intros r Hr.
  now apply check_bgp_frame.
Qed.

Lemma check_bgp_loop_keeps_values all_bgp_sessions_ref s pv v :
  repr (heap s) pv v ->
  repr (heap (snd (Store.check_bgp_loop all_bgp_sessions_ref s))) pv v.
Proof.
  apply repr_frame. intros r Hr.
  assert (Hinv : Store.Inv (heap s) (length (heap s)) (fun _ => True)
                   (heap (snd (Store.check_bgp_loop all_bgp_sessions_ref s)))).
  { apply check_bgp_loop_spec; auto. }
  now apply (proj1 Hinv).
Qed.

(** Two runs of the loop of [check_bgp] over the store, the second in the
    store the first left: both end as the loop over the values does, so
    they raise the same exception or return the same rows and hold the
    same failure index, each in a dictionary of its own. *)
Theorem store_check_bgp_loop_twice (w : world) (sessions : dict value)
    (all_bgp_sessions_ref : hvalue) (s : state) :
  all_bgp_sessions w = Some sessions ->
  repr (heap s) (VDict sessions) all_bgp_sessions_ref ->
  let run1 := Store.check_bgp_loop all_bgp_sessions_ref s in
  let run2 := Store.check_bgp_loop all_bgp_sessions_ref (snd run1) in
  match fst (check_bgp_loop w) with
  | Return st =>
      exists st1 st2,
        fst run1 = Return st1 /\ fst run2 = Return st2
        /\ locals_held (heap s) (heap (snd run1)) st st1
        /\ locals_held (heap (snd run1)) (heap (snd run2)) st st2
  | Raise e => fst run1 = Raise e /\ fst run2 = Raise e
  end.
Proof.
  intros Hs Hp run1 run2.
  pose proof (store_agrees_with_values w sessions all_bgp_sessions_ref s Hs Hp) as H1.
  pose proof (store_agrees_with_values w sessions all_bgp_sessions_ref (snd run1) Hs
                (check_bgp_loop_keeps_values _ _ _ _ Hp)) as H2.
  fold run1 in H1. fold run2 in H2.
  destruct (fst (check_bgp_loop w)) as [st|e]; [|now split].
  destruct H1 as (st1 & Hr1 & Hh1). destruct H2 as (st2 & Hr2 & Hh2).
  exists st1, st2. repeat split; auto; try apply Hh1; try apply Hh2.
Qed.

Ltac held :=
  repeat match goal with
         | |- exists _, _ => eexists
         | |- _ /\ _ => split
         | |- _ = _ => reflexivity
         | |- True => exact I
         | |- _ => progress cbn
         end.

Lemma example_sessions_held :
  repr (heap Store.example_state)
       (VDict [("R1", Examples.R1_established); ("R2", Examples.R2_idle)])
       (fst Store.example_sessions).
Proof. vm_compute. held. Qed.

Lemma store_agrees_with_values_example :
  exists st st_s,
    fst (check_bgp_loop
           (Examples.world_with
              [("R1", Examples.R1_established); ("R2", Examples.R2_idle)]))
    = Return st
    /\ fst (Store.check_bgp_loop (fst Store.example_sessions) Store.example_state)
       = Return st_s
    /\ Store.results_table st_s = results_table st
    /\ results_table st
       = [["default"; "10.0.0.1"; "Established"; "Passed"];
          ["default"; "10.0.0.2"; "Idle"; "Failed"]].
Proof.
  pose proof (store_agrees_with_values
                (Examples.world_with
                   [("R1", Examples.R1_established); ("R2", Examples.R2_idle)])
                _ _ _ eq_refl example_sessions_held) as H.
  destruct (fst (check_bgp_loop _)) as [st|e] eqn:E; [|vm_compute in E; discriminate].
  destruct H as (st_s & Hrun & Hrows & _).
  exists st, st_s. repeat split; auto.
  vm_compute in E. now injection E as <-.
Defined.

End StoreSim.
(* ================================================================= *)
(** ** More about [connect] *)

Open Scope list_scope.


(** X1.  When [connect()] succeeds on every device of the inventory (an
    empty inventory included), [connect] returns, [parameters['devices']]
    is the whole inventory in inventory order, [parameters['testbed']] is
    set, [connect()] has been called once on each device in that order, one
    banner per device has been logged, and nothing else has changed. *)
Theorem connect_hands_on_whole_inventory (testbed : list Device) (w : world) :
  (forall d, In d testbed -> connect_raises d = None) ->
  fst (connect testbed w) = Return tt
  /\ parameters_devices (snd (connect testbed w)) = Some testbed
  /\ parameters_testbed (snd (connect testbed w)) = Some testbed
  /\ connect_calls (snd (connect testbed w)) = connect_calls w ++ map name testbed
  /\ log (snd (connect testbed w)) = log w ++ map connect_banner testbed
  /\ learn_calls (snd (connect testbed w)) = learn_calls w
  /\ all_bgp_sessions (snd (connect testbed w)) = all_bgp_sessions w.
Proof.
  intros Hok. rewrite (connect_all_succeed testbed w Hok). cbn. repeat split.
Qed.

Lemma connect_hands_on_whole_inventory_witness :
  (forall d, In d [Examples3.R1; Examples3.R3] -> connect_raises d = None)
  /\ fst (connect [Examples3.R1; Examples3.R3] Examples3.fresh_world) = Return tt
  /\ parameters_devices (snd (connect [Examples3.R1; Examples3.R3] Examples3.fresh_world))
     = Some [Examples3.R1; Examples3.R3].
Proof.
  assert (Hok : forall d, In d [Examples3.R1; Examples3.R3] -> connect_raises d = None).
  { intros d [<- | [<- | []]]; reflexivity. }
  split; [exact Hok|].
  destruct (connect_hands_on_whole_inventory [Examples3.R1; Examples3.R3]
              Examples3.fresh_world Hok) as (H1 & H2 & _).
  split; assumption.
Defined.




(* ================================================================= *)
(** ** More about [check_bgp]: what the defaults of [get] do not cover *)

(** X4.  The defaults of the [get] calls cover a missing key only.  A
    level that is present but is not a dictionary -- the snapshot itself,
    the value under [instance], [default], [vrf] or [neighbor], a VRF, the
    attributes of a neighbour -- makes the lookups raise [AttributeError]
    (for [get], or for [items] when it is the dictionary to loop over), and
    so does a [session_state] that is present but is not a string (for
    [lower]). *)
Theorem present_level_must_be_a_dictionary (device : string) (st : locals) :
  (forall v, is_dict v = false ->
     check_snapshot device v st = attribute_error "get")
  /\ (forall d v,
        dict_get "instance" d = Some v -> is_dict v = false ->
        check_snapshot device (VDict d) st = attribute_error "get")
  /\ (forall d instance v,
        dict_get "instance" d = Some (VDict instance) ->
        dict_get "default" instance = Some v -> is_dict v = false ->
        check_snapshot device (VDict d) st = attribute_error "get")
  /\ (forall d instance default v,
        dict_get "instance" d = Some (VDict instance) ->
        dict_get "default" instance = Some (VDict default) ->
        dict_get "vrf" default = Some v -> is_dict v = false ->
        check_snapshot device (VDict d) st = attribute_error "items")
  /\ (forall vrf_name v, is_dict v = false ->
        check_vrf device st (vrf_name, v) = attribute_error "get")
  /\ (forall vrf_name d v,
        dict_get "neighbor" d = Some v -> is_dict v = false ->
        check_vrf device st (vrf_name, VDict d) = attribute_error "items")
  /\ (forall vrf_name nbr v, is_dict v = false ->
        check_neighbor device vrf_name st (nbr, v) = attribute_error "get")
  /\ (forall vrf_name nbr d v,
        dict_get "session_state" d = Some v -> is_str v = false ->
        check_neighbor device vrf_name st (nbr, VDict d) = attribute_error "lower").
Proof.
  repeat match goal with |- _ /\ _ => split end.
  - intros v Hv. destruct v; try discriminate; reflexivity.
  - intros d v Hd Hv. unfold check_snapshot. cbn [py_get bind outcome_monad].
    unfold get_default. rewrite Hd. destruct v; try discriminate; reflexivity.
  - intros d instance v Hd Hi Hv. unfold check_snapshot. cbn [py_get bind outcome_monad].
    unfold get_default. rewrite Hd. cbn [py_get]. unfold get_default. rewrite Hi.
    destruct v; try discriminate; reflexivity.
  - intros d instance default v Hd Hi Hf Hv. unfold check_snapshot.
    cbn [py_get bind outcome_monad]. unfold get_default. rewrite Hd.
    cbn [py_get]. unfold get_default. rewrite Hi.
    cbn [py_get]. unfold get_default. rewrite Hf.
    destruct v; try discriminate; reflexivity.
  - intros vrf_name v Hv. destruct v; try discriminate; reflexivity.
  - intros vrf_name d v Hd Hv. unfold check_vrf. cbn [py_get bind outcome_monad].
    unfold get_default. rewrite Hd. destruct v; try discriminate; reflexivity.
  - intros vrf_name nbr v Hv. destruct v; try discriminate; reflexivity.
  - intros vrf_name nbr d v Hd Hv. unfold check_neighbor.
    cbn [py_get bind outcome_monad]. unfold get_default. rewrite Hd.
    destruct v; try discriminate; reflexivity.
Qed.

Lemma present_level_must_be_a_dictionary_witness :
  check_snapshot "R1" instance_is_none (Locals [] []) = attribute_error "get"
  /\ check_neighbor "R1" "default" (Locals [] [])
       ("10.0.0.3", VDict [("session_state", VNone)])
     = attribute_error "lower".
Proof.
  destruct (present_level_must_be_a_dictionary "R1" (Locals [] []))
    as (_ & H2 & _ & _ & _ & _ & _ & H8).
  split.
  - apply (H2 [("instance", VNone)] VNone); reflexivity.
  - apply (H8 "default" "10.0.0.3" [("session_state", VNone)] VNone); reflexivity.
Defined.

(* ================================================================= *)
(** ** Exceptions of the loops *)

Lemma foldM_outcome_app {A B : Type} (f : B -> A -> outcome B) l1 l2 b :
  foldM f (l1 ++ l2) b
  = match foldM f l1 b with
    | Return b' => foldM f l2 b'
    | Raise e => Raise e
    end.
Proof.
  revert b. induction l1 as [|x l1 IH]; intros b; [reflexivity|].
  cbn [app foldM bind outcome_monad]. destruct (f b x); [apply IH | reflexivity].
Qed.

Lemma foldM_world_app {A B : Type} (f : B -> A -> M world B) l1 l2 b w :
  foldM f (l1 ++ l2) b w
  = match foldM f l1 b w with
    | (Return b', w') => foldM f l2 b' w'
    | (Raise e, w') => (Raise e, w')
    end.
Proof.
  revert b w. induction l1 as [|x l1 IH]; intros b w; [reflexivity|].
  cbn [app foldM bind M_monad]. destruct (f b x w) as [[b'|e] w']; [apply IH | reflexivity].
Qed.

Lemma steady_foldM {A B : Type} (f : B -> A -> outcome B) :
  steady f ->
  forall l, (exists e, forall b, foldM f l b = Raise e)
            \/ (forall b, exists b', foldM f l b = Return b').
Proof.
  intros Hf. induction l as [|x l IH].
  - right. intros b. now exists b.
  - destruct (Hf x) as [[e He] | Hret].
    + left. exists e. intros b. cbn [foldM bind outcome_monad]. now rewrite He.
    + destruct IH as [[e He] | IH].
      * left. exists e. intros b. cbn [foldM bind outcome_monad].
        destruct (Hret b) as [b' ->]. apply He.
      * right. intros b. cbn [foldM bind outcome_monad].
        destruct (Hret b) as [b' ->]. apply IH.
Qed.

Lemma check_neighbor_steady device vrf_name : steady (check_neighbor device vrf_name).
Proof.
  intros [nbr props]. unfold check_neighbor.
  destruct (py_get "session_state" (VStr "Unknown") props) as [raw|e];
    [|left; exists e; reflexivity].
  cbn [bind outcome_monad].
  destruct (py_lower raw) as [state|e]; [|left; exists e; reflexivity].
  right. intros b. eexists. reflexivity.
Qed.

Lemma check_vrf_steady device : steady (check_vrf device).
Proof.
  intros [vrf_name vrf_data]. unfold check_vrf.
  destruct (py_get "neighbor" (VDict []) vrf_data) as [neighbors|e];
    [|left; exists e; reflexivity].
  cbn [bind outcome_monad].
  destruct (py_items neighbors) as [nbrs|e]; [|left; exists e; reflexivity].
  apply steady_foldM, check_neighbor_steady.
Qed.

(** Whether the lookups and loops for a snapshot raise, and what, does
    not depend on the locals they start from. *)
Lemma check_snapshot_steady device bgp_info :
  (exists e, forall st, check_snapshot device bgp_info st = Raise e)
  \/ (forall st, exists st', check_snapshot device bgp_info st = Return st').
Proof.
  unfold check_snapshot.
  destruct (py_get "instance" (VDict []) bgp_info) as [instance|e];
    [|left; exists e; reflexivity].
  cbn [bind outcome_monad].
  destruct (py_get "default" (VDict []) instance) as [default|e];
    [|left; exists e; reflexivity].
  destruct (py_get "vrf" (VDict []) default) as [vrfs_dict|e];
    [|left; exists e; reflexivity].
  destruct (py_items vrfs_dict) as [vrfs|e]; [|left; exists e; reflexivity].
  apply steady_foldM, check_vrf_steady.
Qed.

Lemma check_snapshot_raise_any_locals device bgp_info st e :
  check_snapshot device bgp_info st = Raise e ->
  forall st', check_snapshot device bgp_info st' = Raise e.
Proof.
  intros H st'. destruct (check_snapshot_steady device bgp_info) as [[e' He] | Hret].
  - rewrite He in H. injection H as <-. apply He.
  - destruct (Hret st) as [st0 H0]. congruence.
Qed.

Lemma foldM_raises {A B : Type} (P : exn -> Prop) (f : B -> A -> outcome B) :
  (forall b x e, f b x = Raise e -> P e) ->
  forall l b e, foldM f l b = Raise e -> P e.
Proof.
  intros Hf. induction l as [|x l IH]; intros b e H; [discriminate|].
  cbn [foldM bind outcome_monad] in H. destruct (f b x) as [b'|e'] eqn:E.
  - eapply IH. eassumption.
  - injection H as <-. eapply Hf. eassumption.
Qed.

Lemma py_get_raises k default v e :
  py_get k default v = Raise e -> is_attribute_error e.
Proof. destruct v; cbn; intros [= <-]; eexists; reflexivity. Qed.

Lemma py_items_raises v e : py_items v = Raise e -> is_attribute_error e.
Proof. destruct v; cbn; intros [= <-]; eexists; reflexivity. Qed.

Lemma py_lower_raises v e : py_lower v = Raise e -> is_attribute_error e.
Proof. destruct v; cbn; intros [= <-]; eexists; reflexivity. Qed.

Lemma check_neighbor_raises device vrf_name st item e :
  check_neighbor device vrf_name st item = Raise e -> is_attribute_error e.
Proof.
  destruct item as [nbr props]. unfold check_neighbor.
  destruct (py_get "session_state" (VStr "Unknown") props) as [raw|e'] eqn:E1;
    cbn [bind outcome_monad].
  - destruct (py_lower raw) as [state|e'] eqn:E2; [discriminate|].
    intros [= <-]. eapply py_lower_raises. eassumption.
  - intros [= <-]. eapply py_get_raises. eassumption.
Qed.

Lemma check_vrf_raises device st item e :
  check_vrf device st item = Raise e -> is_attribute_error e.
Proof.
  destruct item as [vrf_name vrf_data]. unfold check_vrf.
  destruct (py_get "neighbor" (VDict []) vrf_data) as [neighbors|e'] eqn:E1;
    cbn [bind outcome_monad]; [|intros [= <-]; eapply py_get_raises; eassumption].
  destruct (py_items neighbors) as [nbrs|e'] eqn:E2;
    [|intros [= <-]; eapply py_items_raises; eassumption].
  apply foldM_raises. intros b x e0. apply check_neighbor_raises.
Qed.

(** The only exception the lookups and loops raise is [AttributeError]. *)
Lemma check_snapshot_raises device bgp_info st e :
  check_snapshot device bgp_info st = Raise e -> is_attribute_error e.
Proof.
  unfold check_snapshot.
  destruct (py_get "instance" (VDict []) bgp_info) as [instance|e'] eqn:E1;
    cbn [bind outcome_monad]; [|intros [= <-]; eapply py_get_raises; eassumption].
  destruct (py_get "default" (VDict []) instance) as [default|e'] eqn:E2;
    [|intros [= <-]; eapply py_get_raises; eassumption].
  destruct (py_get "vrf" (VDict []) default) as [vrfs_dict|e'] eqn:E3;
    [|intros [= <-]; eapply py_get_raises; eassumption].
  destruct (py_items vrfs_dict) as [vrfs|e'] eqn:E4;
    [|intros [= <-]; eapply py_items_raises; eassumption].
  apply foldM_raises. intros b x e0. apply check_vrf_raises.
Qed.

(** What the loop over the devices logs are [info] records, whatever the
    snapshots, and what it raises is an [AttributeError]. *)
Lemma check_devices_records sessions : forall st,
  exists o records,
    forallb is_info records = true
    /\ (forall e, o = Raise e -> is_attribute_error e)
    /\ forall w, foldM check_device sessions st w = (o, logged records w).
Proof.
  induction sessions as [|[device bgp_info] sessions IH]; intros st.
  - exists (Return st), []. repeat split; [discriminate|].
    intros w. simpl. now rewrite logged_nil.
  - destruct (check_snapshot device bgp_info st) as [st'|e] eqn:E.
    + destruct (IH st') as (o & r & Hinfo & Hattr & Hrun).
      exists o, ([Info (Text ("Device " ++ device ++ " BGP Neighbors:" ++ newline)%string);
                  Info (Tabulate (results_table st') table_headers "orgtbl")] ++ r).
      split; [exact Hinfo|]. split; [exact Hattr|].
      intros w. cbn [foldM bind M_monad]. unfold check_device at 1, lift.
      cbn [bind M_monad]. rewrite E. rewrite !log_info_logged. cbn [ret M_monad].
      rewrite Hrun, !logged_logged. reflexivity.
    + exists (Raise e), []. split; [reflexivity|]. split.
      * intros e' [= <-]. eapply check_snapshot_raises. eassumption.
      * intros w. cbn [foldM bind M_monad]. unfold check_device at 1, lift.
        cbn [bind M_monad]. rewrite E. now rewrite logged_nil.
Qed.

(** X5.  [check_bgp] always ends by raising: the [Passed] signal, the
    [Failed] signal, or an [AttributeError]; it never returns and its
    signals carry no [goto].  It changes nothing of the world but the log,
    to which it only appends: it calls no device and assigns no parameter
    and no attribute.  What it appends are [info] records, followed, in
    the [Failed] case and only then, by one [error] record with the dump
    of a non-empty failure index. *)
Theorem check_bgp_ends_by_verdict_or_attribute_error (w : world) :
  exists records,
    snd (check_bgp w) = logged records w
    /\ ((fst (check_bgp w)
         = Raise (Signal Passed "All BGP neighbors are established." [])
         /\ forallb is_info records = true)
        \/ (exists infos index,
              fst (check_bgp w)
              = Raise (Signal Failed "Some BGP neighbors are not established." [])
              /\ records = infos ++ [Error (JsonDumps index 3)]
              /\ forallb is_info infos = true
              /\ index <> [])
        \/ (exists attr,
              fst (check_bgp w) = Raise (PyException "AttributeError" attr)
              /\ forallb is_info records = true)).
Proof.
  unfold check_bgp, check_bgp_loop, get_all_bgp_sessions. cbn [bind M_monad].
  destruct (all_bgp_sessions w) as [sessions|] eqn:Hs.
  - destruct (check_devices_records sessions (Locals [] []))
      as (o & r & Hinfo & Hattr & Hrun).
    rewrite Hrun. destruct o as [st|e].
    + destruct (truthy (failed_dict st)) eqn:Ht.
      * rewrite log_error_logged. cbn [failed raise fst snd].
        rewrite logged_logged. eexists. split; [reflexivity|].
        right. left. exists r, (failed_dict st). repeat split; auto.
        now apply truthy_true.
      * cbn [passed raise fst snd]. exists r. split; [reflexivity|]. now left.
    + cbn [fst snd]. exists r. split; [reflexivity|]. right. right.
      destruct (Hattr e eq_refl) as [attr ->]. now exists attr.
  - exists []. cbn [fst snd]. rewrite logged_nil. split; [reflexivity|].
    right. right. now exists "all_bgp_sessions".
Qed.

(** X6.  A snapshot on which the lookups raise makes [check_bgp] raise
    that exception, an [AttributeError], when its device is reached:
    the tables of the well-formed devices before it have been logged, no
    table is logged for it or for any device after it, no dump is logged
    and no verdict is given. *)
Theorem check_bgp_error_cuts_the_run (w : world) (before after : dict value)
    (device : string) (bad : value) (e : exn) :
  all_bgp_sessions w = Some (before ++ (device, bad) :: after) ->
  Spec.wf_sessions before = true ->
  check_snapshot device bad (Locals [] []) = Raise e ->
  check_bgp w = (Raise e, logged (device_reports before []) w)
  /\ is_attribute_error e.
Proof.
  intros Hs Hwf Hbad. split; [|eapply check_snapshot_raises; eassumption].
  unfold check_bgp, check_bgp_loop, get_all_bgp_sessions. cbn [bind M_monad].
  rewrite Hs, foldM_world_app, (check_devices_wf before _ _ Hwf).
  cbn [foldM bind M_monad]. unfold check_device at 1, lift. cbn [bind M_monad].
  now rewrite (check_snapshot_raise_any_locals _ _ _ _ Hbad).
Qed.

Lemma check_bgp_error_cuts_the_run_witness :
  let sessions := [("R1", Examples.R1_established)] ++ ("R2", state_is_none)
                  :: [("R3", Examples.R2_idle)] in
  check_snapshot "R2" state_is_none (Locals [] []) = attribute_error "lower"
  /\ check_bgp (Examples.world_with sessions)
     = (attribute_error "lower",
        logged (device_reports [("R1", Examples.R1_established)] [])
               (Examples.world_with sessions)).
Proof.
  intros sessions. split; [reflexivity|].
  exact (proj1 (check_bgp_error_cuts_the_run (Examples.world_with sessions)
                  [("R1", Examples.R1_established)] [("R3", Examples.R2_idle)]
                  "R2" state_is_none _ eq_refl eq_refl eq_refl)).
Defined.

(* ================================================================= *)
(** ** The rows of the table and the verdict *)

Lemma lower_char_idem c : lower_char (lower_char c) = lower_char c.
Proof. destruct c as [[] [] [] [] [] [] [] []]; reflexivity. Qed.

Lemma upper_lower_char_E c :
  upper_char (lower_char c) = "E"%char <-> lower_char c = "e"%char.
Proof.
  destruct c as [[] [] [] [] [] [] [] []]; vm_compute;
    split; intros H; (reflexivity || discriminate H).
Qed.

Lemma lower_idem s : lower (lower s) = lower s.
Proof.
  induction s as [|c s IH]; [reflexivity|]. cbn [lower].
  now rewrite lower_char_idem, IH.
Qed.

(** The state shown in a row is [Established] exactly for the state the
    verdict rule accepts. *)
Lemma capitalize_lower_established s :
  capitalize (lower s) = "Established" <-> lower s = "established".
Proof.
  destruct s as [|c s]; cbn [lower capitalize]; [split; discriminate|].
  rewrite lower_idem. split; intros [= Hc Hs].
  - f_equal; [now apply upper_lower_char_E | assumption].
  - f_equal; [now apply upper_lower_char_E | assumption].
Qed.

Lemma verdict_cases props :
  (Spec.verdict props = "Passed" /\ lower (Spec.session_state props) = "established")
  \/ (Spec.verdict props = "Failed" /\ lower (Spec.session_state props) <> "established").
Proof.
  unfold Spec.verdict.
  destruct (String.eqb (lower (Spec.session_state props)) "established") eqn:E.
  - left. split; [reflexivity|]. now apply String.eqb_eq.
  - right. split; [reflexivity|]. now apply String.eqb_neq.
Qed.

Lemma in_rows_of_sessions sessions row :
  In row (rows_of_sessions sessions)
  <-> exists device info n,
        In (device, info) sessions /\ In n (Spec.neighbors_of info)
        /\ row = Spec.row_of n.
Proof.
  unfold rows_of_sessions. rewrite in_flat_map. split.
  - intros [[device info] [Hin Hrow]]. cbn [snd] in Hrow.
    apply in_map_iff in Hrow as [n [<- Hn]]. now exists device, info, n.
  - intros (device & info & n & Hin & Hn & ->). exists (device, info).
    split; [assumption|]. cbn [snd]. now apply in_map.
Qed.

Lemma length_rows_of_sessions sessions :
  length (rows_of_sessions sessions)
  = length (flat_map (fun item => Spec.neighbors_of (snd item)) sessions).
Proof.
  unfold rows_of_sessions. induction sessions as [|item sessions IH]; [reflexivity|].
  cbn [flat_map]. now rewrite !length_app, length_map, IH.
Qed.

(** X7.  On well-formed snapshots the table the loop of [check_bgp]
    leaves has one row per neighbour of the snapshots.  Every row has the
    four cells VRF, peer, state and result; the result is [Passed] or
    [Failed]; and the state cell reads [Established] exactly in the rows
    whose result is [Passed]. *)
Theorem rows_are_well_formed (w : world) (sessions : dict value) :
  all_bgp_sessions w = Some sessions ->
  Spec.wf_sessions sessions = true ->
  exists st w',
    check_bgp_loop w = (Return st, w')
    /\ length (results_table st)
       = length (flat_map (fun item => Spec.neighbors_of (snd item)) sessions)
    /\ forall row, In row (results_table st) ->
         exists vrf_name nbr state result,
           row = [vrf_name; nbr; state; result]
           /\ (result = "Passed" \/ result = "Failed")
           /\ (result = "Passed" <-> state = "Established").
Proof.
  intros Hs Hwf. eexists _, _. split; [exact (check_bgp_loop_wf _ _ Hs Hwf)|].
  cbn [results_table]. split; [apply length_rows_of_sessions|].
  intros row Hrow.
  apply in_rows_of_sessions in Hrow as (device & info & [[vrf_name nbr] props] & _ & _ & ->).
  exists vrf_name, nbr, (capitalize (lower (Spec.session_state props))),
         (Spec.verdict props).
  split; [reflexivity|]. rewrite capitalize_lower_established.
  destruct (verdict_cases props) as [[-> He] | [-> Hne]].
  - split; [now left | tauto].
  - split; [now right|]. split; [discriminate | contradiction].
Qed.

Lemma rows_are_well_formed_witness :
  let sessions := [("R1", Examples.R1_established); ("R2", Examples.R2_idle)] in
  all_bgp_sessions (Examples.world_with sessions) = Some sessions
  /\ Spec.wf_sessions sessions = true
  /\ exists st w',
       check_bgp_loop (Examples.world_with sessions) = (Return st, w')
       /\ length (results_table st) = 2.
Proof.
  intros sessions. split; [reflexivity|]. split; [reflexivity|].
  destruct (rows_are_well_formed (Examples.world_with sessions) sessions eq_refl eq_refl)
    as (st & w' & Hrun & Hlen & _).
  exists st, w'. split; assumption.
Defined.

Lemma result_cell_row_of n : result_cell (Spec.row_of n) = Spec.verdict (snd n).
Proof. destruct n as [[vrf_name nbr] props]. reflexivity. Qed.

Lemma failure_events_nil sessions :
  failure_events sessions = []
  <-> forall row, In row (rows_of_sessions sessions) -> result_cell row = "Passed".
Proof.
  split.
  - intros He row Hrow.
    apply in_rows_of_sessions in Hrow as (device & info & [[vrf_name nbr] props] & Hd & Hn & ->).
    rewrite result_cell_row_of. cbn [snd].
    destruct (verdict_cases props) as [[Hv _] | [Hv _]]; [assumption|]. exfalso.
    assert (Hin : In (device, nbr, props) (failure_events sessions))
      by (apply in_failure_events; eauto).
    rewrite He in Hin. exact Hin.
  - intros Hall. destruct (failure_events sessions) as [|[[device nbr] props] es] eqn:E;
      [reflexivity|]. exfalso.
    assert (Hin : In (device, nbr, props) (failure_events sessions))
      by (rewrite E; now left).
    apply in_failure_events in Hin as (info & vrf_name & Hd & Hn & Hv).
    assert (Hrow : In (Spec.row_of (vrf_name, nbr, props)) (rows_of_sessions sessions))
      by (apply in_rows_of_sessions; exists device, info, (vrf_name, nbr, props); auto).
    apply Hall in Hrow. rewrite result_cell_row_of in Hrow. cbn [snd] in Hrow.
    rewrite Hv in Hrow. discriminate.
Qed.

(** [check_bgp] on well-formed snapshots, by the failure index. *)
Lemma check_bgp_wf sessions w :
  all_bgp_sessions w = Some sessions ->
  Spec.wf_sessions sessions = true ->
  check_bgp w
  = if truthy (failures_of_sessions sessions [])
    then (Raise (Signal Failed "Some BGP neighbors are not established." []),
          logged [Error (JsonDumps (failures_of_sessions sessions []) 3)]
            (logged (device_reports sessions []) w))
    else (Raise (Signal Passed "All BGP neighbors are established." []),
          logged (device_reports sessions []) w).
Proof.
  intros Hs Hwf. unfold check_bgp. cbn [bind M_monad].
  rewrite (check_bgp_loop_wf _ _ Hs Hwf). cbn [failed_dict].
  destruct (truthy (failures_of_sessions sessions [])); [|reflexivity].
  now rewrite log_error_logged.
Qed.

(** X8.  On well-formed snapshots the verdict of [check_bgp] can be read
    off the table: the section ends [Passed] exactly when the result cell
    of every row of the table says [Passed] (in particular when the table
    is empty), and [Failed] exactly when some row says [Failed]. *)
Theorem passed_iff_every_row_passed (w : world) (sessions : dict value) :
  all_bgp_sessions w = Some sessions ->
  Spec.wf_sessions sessions = true ->
  exists st w',
    check_bgp_loop w = (Return st, w')
    /\ (fst (check_bgp w) = Raise (Signal Passed "All BGP neighbors are established." [])
        <-> forall row, In row (results_table st) -> result_cell row = "Passed")
    /\ (fst (check_bgp w)
        = Raise (Signal Failed "Some BGP neighbors are not established." [])
        <-> exists row, In row (results_table st) /\ result_cell row = "Failed").
Proof.
  intros Hs Hwf. eexists _, _. split; [exact (check_bgp_loop_wf _ _ Hs Hwf)|].
  cbn [results_table]. rewrite (check_bgp_wf _ _ Hs Hwf).
  rewrite <- failure_events_nil, <- failures_of_sessions_empty.
  destruct (failures_of_sessions sessions []) as [|entry fd] eqn:E; cbn [truthy fst].
  - split; [tauto|]. split; [discriminate|].
    intros (row & Hrow & Hcell). exfalso.
    assert (Hall : forall row, In row (rows_of_sessions sessions) -> result_cell row = "Passed").
    { apply failure_events_nil. apply failures_of_sessions_empty. exact E. }
    rewrite (Hall row Hrow) in Hcell. discriminate.
  - split; [split; discriminate|]. split; [intros _ | reflexivity].
    destruct (failure_events sessions) as [|[[device nbr] props] es] eqn:Ev.
    + apply failures_of_sessions_empty in Ev. congruence.
    + assert (Hin : In (device, nbr, props) (failure_events sessions))
        by (rewrite Ev; now left).
      apply in_failure_events in Hin as (info & vrf_name & Hd & Hn & Hv).
      exists (Spec.row_of (vrf_name, nbr, props)). split.
      * apply in_rows_of_sessions. exists device, info, (vrf_name, nbr, props). auto.
      * now rewrite result_cell_row_of.
Qed.

Lemma passed_iff_every_row_passed_witness :
  let sessions := [("R1", Examples.R1_established); ("R2", Examples.R2_idle)] in
  all_bgp_sessions (Examples.world_with sessions) = Some sessions
  /\ Spec.wf_sessions sessions = true
  /\ exists st w' row,
       check_bgp_loop (Examples.world_with sessions) = (Return st, w')
       /\ In row (results_table st) /\ result_cell row = "Failed".
Proof.
  intros sessions. split; [reflexivity|]. split; [reflexivity|].
  destruct (passed_iff_every_row_passed (Examples.world_with sessions) sessions
              eq_refl eq_refl) as (st & w' & Hrun & _ & Hfailed).
  destruct (proj1 Hfailed eq_refl) as (row & Hrow & Hcell).
  exists st, w', row. repeat split; assumption.
Defined.

Lemma length_device_reports sessions : forall rows,
  length (device_reports sessions rows) = 2 * length sessions.
Proof.
  induction sessions as [|[device info] sessions IH]; intros rows; [reflexivity|].
  cbn [device_reports length]. rewrite IH. lia.
Qed.

(** X16.  On well-formed snapshots the loop of [check_bgp] logs two
    records per device, in the order of the devices: the heading with the
    name of the device, then a table.  The table is the whole table as it
    stands at that point: it holds the rows of every device evaluated so
    far, in order, the rows of the device of the heading last. *)
Theorem tables_are_cumulative (w : world) (before after : dict value)
    (device : string) (info : value) :
  all_bgp_sessions w = Some (before ++ (device, info) :: after) ->
  Spec.wf_sessions (before ++ (device, info) :: after) = true ->
  exists st w' records,
    check_bgp_loop w = (Return st, w')
    /\ log w' = log w ++ records
    /\ length records = 2 * length (before ++ (device, info) :: after)
    /\ nth_error records (2 * length before)
       = Some (Info (Text ("Device " ++ device ++ " BGP Neighbors:" ++ newline)%string))
    /\ nth_error records (2 * length before + 1)
       = Some (Info (Tabulate
                       (rows_of_sessions before
                        ++ map Spec.row_of (Spec.neighbors_of info))
                       table_headers "orgtbl")).
Proof.
  intros Hs Hwf. eexists _, _, _. split; [exact (check_bgp_loop_wf _ _ Hs Hwf)|].
  split; [reflexivity|]. split; [apply length_device_reports|].
  rewrite device_reports_app. cbn [device_reports app].
  pose proof (length_device_reports before []) as Hlen.
  split.
  - rewrite nth_error_app2 by lia. rewrite Hlen, Nat.sub_diag. reflexivity.
  - rewrite nth_error_app2 by lia. rewrite Hlen.
    replace (2 * length before + 1 - 2 * length before) with 1 by lia. reflexivity.
Qed.

Lemma tables_are_cumulative_witness :
  let sessions := [("R1", Examples.R1_established)] ++ ("R2", Examples.R2_idle) :: [] in
  Spec.wf_sessions sessions = true
  /\ exists st w' records,
       check_bgp_loop (Examples.world_with sessions) = (Return st, w')
       /\ log w' = [] ++ records
       /\ nth_error records 3
          = Some (Info (Tabulate [["default"; "10.0.0.1"; "Established"; "Passed"];
                                  ["default"; "10.0.0.2"; "Idle"; "Failed"]]
                                 table_headers "orgtbl")).
Proof.
  intros sessions. split; [reflexivity|].
  destruct (tables_are_cumulative (Examples.world_with sessions)
              [("R1", Examples.R1_established)] [] "R2" Examples.R2_idle
              eq_refl eq_refl) as (st & w' & records & Hrun & Hlog & _ & _ & Htable).
  exists st, w', records. repeat split; assumption.
Defined.

(* ================================================================= *)
(** ** The shape of the failure index *)

Lemma record_events_NoDup es : forall fd,
  NoDup (keys fd) -> NoDup (keys (record_events es fd)).
Proof.
  induction es as [|e es IH]; intros fd H; [assumption|].
  unfold record_events in *. cbn [fold_left]. apply IH. now apply record_failure_NoDup.
Qed.

Lemma NoDup_keys_In_get {V : Type} (d : dict V) k v :
  NoDup (keys d) -> In (k, v) d -> dict_get k d = Some v.
Proof.
  induction d as [|[k' v'] d IH]; cbn; [tauto|].
  intros Hnd [[= -> ->] | Hin].
  - now rewrite String.eqb_refl.
  - apply NoDup_cons_iff in Hnd as [Hnotin Hnd].
    destruct (String.eqb k k') eqn:E; [|auto].
    apply String.eqb_eq in E. subst k'. exfalso. apply Hnotin.
    unfold keys. apply in_map_iff. now exists (k, v).
Qed.

Lemma keys_record_failure device nbr props fd :
  keys (record_failure device nbr props fd)
  = if in_dec string_dec device (keys fd) then keys fd else keys fd ++ [device].
Proof.
  unfold record_failure, setdefault.
  destruct (in_dec string_dec device (keys fd)) as [Hin | Hnin].
  - destruct (dict_get device fd) eqn:E; cbv beta iota.
    + now apply keys_dict_set_present.
    + apply dict_get_None in E. contradiction.
  - destruct (dict_get device fd) eqn:E; cbv beta iota.
    + exfalso. apply Hnin. apply dict_get_In_keys. eauto.
    + rewrite keys_dict_set_present.
      * now apply keys_dict_set_absent.
      * apply keys_dict_set. now left.
Qed.

Lemma keys_record_failures device ns : forall fd,
  keys (record_failures device ns fd)
  = if in_dec string_dec device (keys fd) then keys fd
    else if existsb Spec.failing ns then keys fd ++ [device] else keys fd.
Proof.
  induction ns as [|n ns IH]; intros fd.
  - cbn. now destruct (in_dec string_dec device (keys fd)).
  - unfold record_failures in *. cbn [fold_left existsb].
    destruct (Spec.failing n); cbn [orb]; [|apply IH].
    rewrite IH, keys_record_failure.
    destruct (in_dec string_dec device (keys fd)) as [Hin | Hnin].
    + now destruct (in_dec string_dec device (keys fd)).
    + destruct (in_dec string_dec device (keys fd ++ [device])) as [_ | Hn];
        [reflexivity|].
      exfalso. apply Hn. apply in_or_app. right. now left.
Qed.

Lemma keys_failures_of_sessions sessions : forall fd,
  NoDup (keys sessions) ->
  (forall k, In k (keys sessions) -> ~ In k (keys fd)) ->
  keys (failures_of_sessions sessions fd)
  = keys fd ++ map fst (filter has_failure sessions).
Proof.
  induction sessions as [|[device info] sessions IH]; intros fd Hnd Hfresh.
  - cbn. now rewrite app_nil_r.
  - cbn [keys map fst] in Hnd. apply NoDup_cons_iff in Hnd as [Hnotin Hnd].
    unfold failures_of_sessions in *. cbn [fold_left fst snd filter].
    rewrite IH; [|assumption|].
    + rewrite keys_record_failures.
      destruct (in_dec string_dec device (keys fd)) as [Hin | _].
      { exfalso. apply (Hfresh device); [now left | assumption]. }
      unfold has_failure at 2. cbn [snd].
      destruct (existsb Spec.failing (Spec.neighbors_of info)); [|reflexivity].
      cbn [map fst]. now rewrite <- app_assoc.
    + intros k Hk. rewrite keys_record_failures.
      assert (Hkfd : ~ In k (keys fd)) by (apply Hfresh; now right).
      assert (Hne : k <> device) by (intros ->; contradiction).
      destruct (in_dec string_dec device (keys fd)); [assumption|].
      destruct (existsb Spec.failing (Spec.neighbors_of info)); [|assumption].
      intros Hin. apply in_app_or in Hin as [Hin | [Heq | []]]; [contradiction|].
      now apply Hne.
Qed.

(** X9.  On well-formed snapshots the failure index the loop of
    [check_bgp] leaves is a proper dictionary of proper dictionaries: no
    device occurs twice, no address occurs twice under a device, and no
    device is listed with an empty dictionary.  When the devices of
    [all_bgp_sessions] are distinct, as the keys of a dictionary are, the
    devices of the index are the devices that have a failing neighbour, in
    the order of [all_bgp_sessions]. *)
Theorem failure_index_is_well_formed (w : world) (sessions : dict value) :
  all_bgp_sessions w = Some sessions ->
  Spec.wf_sessions sessions = true ->
  exists st w',
    check_bgp_loop w = (Return st, w')
    /\ NoDup (keys (failed_dict st))
    /\ (forall device inner, In (device, inner) (failed_dict st) ->
          inner <> [] /\ NoDup (keys inner))
    /\ (NoDup (keys sessions) ->
        keys (failed_dict st) = map fst (filter has_failure sessions)).
Proof.
  intros Hs Hwf. eexists _, _. split; [exact (check_bgp_loop_wf _ _ Hs Hwf)|].
  cbn [failed_dict].
  assert (Hnd : NoDup (keys (failures_of_sessions sessions []))).
  { rewrite failures_of_sessions_events. apply record_events_NoDup. constructor. }
  split; [exact Hnd|]. split.
  - intros device inner Hin.
    pose proof (NoDup_keys_In_get _ _ _ Hnd Hin) as Hget.
    rewrite failures_of_sessions_events in Hget.
    pose proof (record_events_inner device (failure_events sessions) []) as E.
    unfold get_default at 1 in E. rewrite Hget in E. cbn in E.
    assert (Hkey : In device (keys (record_events (failure_events sessions) [])))
      by (apply dict_get_In_keys; eauto).
    apply record_events_keys in Hkey as [[] | (nbr & props & Hev)].
    split.
    + intros Hempty.
      assert (Hn : In nbr (keys inner)).
      { rewrite E. apply assign_keys. right. now exists props. }
      rewrite Hempty in Hn. exact Hn.
    + rewrite E. apply assign_NoDup. constructor.
  - intros Hkeys. apply (keys_failures_of_sessions sessions [] Hkeys).
    intros k _ [].
Qed.

Lemma failure_index_is_well_formed_witness :
  let sessions := [("R1", Examples.R1_established); ("R2", Examples.R2_idle);
                   ("R3", Examples2.R1_two_vrfs)] in
  all_bgp_sessions (Examples.world_with sessions) = Some sessions
  /\ Spec.wf_sessions sessions = true
  /\ NoDup (keys sessions)
  /\ exists st w',
       check_bgp_loop (Examples.world_with sessions) = (Return st, w')
       /\ keys (failed_dict st) = ["R2"; "R3"].
Proof.
  intros sessions.
  assert (Hnd : NoDup (keys sessions)).
  { repeat constructor; cbn; intuition discriminate. }
  split; [reflexivity|]. split; [reflexivity|]. split; [exact Hnd|].
  destruct (failure_index_is_well_formed (Examples.world_with sessions) sessions
              eq_refl eq_refl) as (st & w' & Hrun & _ & _ & Hkeys).
  exists st, w'. split; [exact Hrun|]. now rewrite (Hkeys Hnd).
Defined.

(* ================================================================= *)
(** ** More about [learn_bgp] and the sections run one after another *)

Lemma collect_get_other devices k : forall sessions,
  (forall x, In x devices -> name x <> k) ->
  dict_get k (collect devices sessions) = dict_get k sessions.
Proof.
  induction devices as [|d devices IH]; intros sessions Hne; [reflexivity|].
  unfold collect in *. cbn [fold_left]. rewrite IH by (intros; apply Hne; now right).
  destruct (learns d); try reflexivity.
  apply dict_get_set_other. intros ->. now apply (Hne d (or_introl eq_refl)).
Qed.

Lemma collect_NoDup devices : forall sessions,
  NoDup (keys sessions) -> NoDup (keys (collect devices sessions)).
Proof.
  induction devices as [|d devices IH]; intros sessions H; [assumption|].
  unfold collect in *. cbn [fold_left]. apply IH.
  destruct (learns d); auto. now apply NoDup_keys_dict_set.
Qed.

Lemma collect_keys_all devices : forall sessions k,
  (forall d, In d devices -> exists info, learns d = LearnInfo info) ->
  In k (keys sessions) \/ In k (map name devices) ->
  In k (keys (collect devices sessions)).
Proof.
  induction devices as [|d devices IH]; intros sessions k Hok H.
  - destruct H as [H | []]. assumption.
  - unfold collect in *. cbn [fold_left]. destruct (Hok d (or_introl eq_refl)) as [info ->].
    apply IH; [intros; apply Hok; now right|].
    destruct H as [H | [<- | H]].
    + left. apply keys_dict_set. now right.
    + left. apply keys_dict_set. now left.
    + now right.
Qed.

(** Devices with distinct names: the dictionary has one item per device,
    in the order of the devices. *)
Lemma collect_sessions_of devices : forall sessions,
  (forall d, In d devices -> exists info, learns d = LearnInfo info) ->
  NoDup (map name devices) ->
  (forall d, In d devices -> ~ In (name d) (keys sessions)) ->
  collect devices sessions = sessions ++ sessions_of devices.
Proof.
  induction devices as [|d devices IH]; intros sessions Hok Hnd Hfresh.
  - cbn. now rewrite app_nil_r.
  - cbn [map] in Hnd. apply NoDup_cons_iff in Hnd as [Hnotin Hnd].
    unfold collect in *. cbn [fold_left sessions_of map].
    destruct (Hok d (or_introl eq_refl)) as [info Hinfo].
    unfold snapshot_of at 1. rewrite Hinfo.
    assert (Habsent : dict_get (name d) sessions = None).
    { apply dict_get_None. apply Hfresh. now left. }
    rewrite (StoreSim.dict_set_absent _ info _ Habsent).
    rewrite IH; [now rewrite <- app_assoc | intros; apply Hok; now right | assumption |].
    intros x Hx Hin. unfold keys in Hin. rewrite map_app in Hin.
    apply in_app_or in Hin as [Hin | [Heq | []]].
    + apply (Hfresh x); [now right | assumption].
    + cbn in Heq. apply Hnotin. rewrite Heq. now apply in_map.
Qed.

Lemma learn_device_raises d type msg w :
  learns d = LearnRaises type msg ->
  learn_device tt d w
  = (Raise (PyException type msg),
     World (log w ++ [learn_banner d]) (connect_calls w) (learn_calls w ++ [name d])
           (parameters_testbed w) (parameters_devices w) (all_bgp_sessions w)).
Proof.
  intros Hl. unfold learn_device, bgp_learn, log_info.
  cbn [bind M_monad]. cbn [log connect_calls learn_calls parameters_testbed
    parameters_devices all_bgp_sessions]. rewrite Hl. reflexivity.
Qed.

(** [learn_bgp] when every device yields a snapshot. *)
Lemma learn_bgp_all devices w :
  parameters_devices w = Some devices ->
  (forall d, In d devices -> exists info, learns d = LearnInfo info) ->
  learn_bgp w
  = (Return tt,
     World (log w ++ map learn_banner devices) (connect_calls w)
           (learn_calls w ++ map name devices)
           (parameters_testbed w) (parameters_devices w)
           (Some (collect devices []))).
Proof.
  intros Hp Hok. unfold learn_bgp, get_parameters_devices.
  cbn [bind M_monad set_all_bgp_sessions parameters_devices]. rewrite Hp.
  now rewrite (learn_devices_info devices []).
Qed.

(** [learn_bgp] up to the first device on which the library raises. *)
Lemma learn_bgp_raises before d after type msg w :
  parameters_devices w = Some (before ++ d :: after) ->
  (forall x, In x before -> exists info, learns x = LearnInfo info) ->
  learns d = LearnRaises type msg ->
  learn_bgp w
  = (Raise (PyException type msg),
     World (log w ++ map learn_banner (before ++ [d])) (connect_calls w)
           (learn_calls w ++ map name (before ++ [d]))
           (parameters_testbed w) (parameters_devices w)
           (Some (collect before []))).
Proof.
  intros Hp Hok Hd. unfold learn_bgp, get_parameters_devices.
  cbn [bind M_monad set_all_bgp_sessions parameters_devices]. rewrite Hp.
  rewrite foldM_world_app, (learn_devices_info before []) by auto.
  cbn [foldM bind M_monad]. rewrite (learn_device_raises _ _ _ _ Hd).
  cbn [log connect_calls learn_calls parameters_testbed parameters_devices
       all_bgp_sessions].
  rewrite !map_app, !app_assoc. reflexivity.
Qed.

(** The result of [check_bgp] never carries a [goto]. *)
Lemma check_bgp_goto_empty w :
  exists r reason, section_result (fst (check_bgp w)) = (r, reason, []).
Proof.
  unfold check_bgp, check_bgp_loop, get_all_bgp_sessions. cbn [bind M_monad].
  destruct (all_bgp_sessions w) as [sessions|]; [|cbn; eauto].
  destruct (check_devices_records sessions (Locals [] []))
    as (o & r & _ & Hattr & Hrun).
  rewrite Hrun. destruct o as [st|e].
  - destruct (truthy (failed_dict st)); cbn; eauto.
  - destruct (Hattr e eq_refl) as [attr ->]. cbn. eauto.
Qed.

(** X10.  When every device of [parameters['devices']] yields a
    snapshot, [learn_bgp] returns, having called [learn()] once on each
    device in order.  Whatever [all_bgp_sessions] held before, it now has
    exactly the names of the devices as keys, each once, and the name of a
    device gives back the snapshot of the last device that carries that
    name.  When the names are distinct the dictionary has one item per
    device, in the order of the devices. *)
Theorem learn_bgp_stores_every_snapshot (devices : list Device) (w : world) :
  parameters_devices w = Some devices ->
  (forall d, In d devices -> exists info, learns d = LearnInfo info) ->
  exists sessions,
    fst (learn_bgp w) = Return tt
    /\ all_bgp_sessions (snd (learn_bgp w)) = Some sessions
    /\ learn_calls (snd (learn_bgp w)) = learn_calls w ++ map name devices
    /\ (forall k, In k (keys sessions) <-> In k (map name devices))
    /\ NoDup (keys sessions)
    /\ (forall ds1 d ds2,
          devices = ds1 ++ d :: ds2 ->
          (forall x, In x ds2 -> name x <> name d) ->
          dict_get (name d) sessions = Some (snapshot_of d))
    /\ (NoDup (map name devices) -> sessions = sessions_of devices).
Proof.
  intros Hp Hok. exists (collect devices []).
  rewrite (learn_bgp_all devices w Hp Hok). cbn [fst snd all_bgp_sessions learn_calls].
  split; [reflexivity|]. split; [reflexivity|]. split; [reflexivity|].
  split; [|split; [|split]].
  - intros k. split.
    + intros H. apply collect_keys in H as [[] | H]. exact H.
    + intros H. apply collect_keys_all; auto.
  - apply collect_NoDup. constructor.
  - intros ds1 d ds2 -> Hlast.
    destruct (Hok d) as [info Hinfo]; [apply in_or_app; right; now left|].
    unfold collect. rewrite fold_left_app. cbn [fold_left]. rewrite Hinfo.
    fold (collect ds1 []). 
    change (fold_left _ ds2 ?s) with (collect ds2 s).
    rewrite collect_get_other by assumption.
    unfold snapshot_of. rewrite Hinfo. apply dict_get_set_same.
  - intros Hnd. apply (collect_sessions_of devices [] Hok Hnd). intros d _ [].
Qed.

Lemma learn_bgp_stores_every_snapshot_witness :
  let w := World [] [] [] None (Some [Examples3.R1; Examples3.R3])
                 (Some [("old", VNone)]) in
  parameters_devices w = Some [Examples3.R1; Examples3.R3]
  /\ exists sessions,
       all_bgp_sessions (snd (learn_bgp w)) = Some sessions
       /\ sessions = [("R1", Examples.R1_established); ("R3", Examples.R2_idle)].
Proof.
  intros w. split; [reflexivity|].
  destruct (learn_bgp_stores_every_snapshot [Examples3.R1; Examples3.R3] w eq_refl)
    as (sessions & _ & Hs & _ & _ & _ & _ & Hall).
  - intros d [<- | [<- | []]]; eexists; reflexivity.
  - exists sessions. split; [exact Hs|]. apply Hall.
    repeat constructor; cbn; intuition discriminate.
Defined.

(** X11.  An exception raised by the library while a device is learnt
    is not caught: [learn_bgp] ends by that exception, with the snapshots
    of the devices before it stored and no device after it asked.  Unlike
    the [goto] of a device without [info], this does not stop the
    testcase: [check_bgp] runs next, on the snapshots stored so far, and
    the testcase ends without [goto]. *)
Theorem learn_exception_does_not_stop_testcase (w : world) (before after : list Device)
    (d : Device) (type msg : string) :
  parameters_devices w = Some (before ++ d :: after) ->
  (forall x, In x before -> exists info, learns x = LearnInfo info) ->
  learns d = LearnRaises type msg ->
  exists wl r reason,
    learn_bgp w = (Raise (PyException type msg), wl)
    /\ all_bgp_sessions wl = Some (collect before [])
    /\ learn_calls wl = learn_calls w ++ map name before ++ [name d]
    /\ section_result (fst (check_bgp wl)) = (r, reason, [])
    /\ run_tests BGPNeighborsEstablished w
       = ([("learn_bgp", Errored, msg); ("check_bgp", r, reason)], [],
          snd (check_bgp wl)).
Proof.
  intros Hp Hok Hd. pose proof (learn_bgp_raises _ _ _ _ _ w Hp Hok Hd) as Hl.
  eexists. destruct (check_bgp_goto_empty
                       (World (log w ++ map learn_banner (before ++ [d])) (connect_calls w)
                              (learn_calls w ++ map name (before ++ [d]))
                              (parameters_testbed w) (parameters_devices w)
                              (Some (collect before [])))) as (r & reason & Hr).
  exists r, reason. split; [exact Hl|]. split; [reflexivity|].
  split; [cbn [learn_calls]; now rewrite map_app|]. split; [exact Hr|].
  unfold BGPNeighborsEstablished. cbn [run_tests]. rewrite Hl.
  cbn [section_result].
  destruct (check_bgp _) as [o wc] eqn:E. cbn [fst snd] in *. rewrite Hr. reflexivity.
Qed.

Lemma learn_exception_does_not_stop_testcase_witness :
  let w := World [] [] [] None (Some ([Examples3.R3] ++ R2_broken :: [Examples3.R1])) None in
  learns R2_broken = LearnRaises "SchemaError" "bad output"
  /\ exists w',
       run_tests BGPNeighborsEstablished w
       = ([("learn_bgp", Errored, "bad output");
           ("check_bgp", Failed, "Some BGP neighbors are not established.")], [], w')
       /\ learn_calls w' = ["R3"; "R2"].
Proof.
  intros w. split; [reflexivity|].
  destruct (learn_exception_does_not_stop_testcase w [Examples3.R3] [Examples3.R1]
              R2_broken "SchemaError" "bad output" eq_refl)
    as (wl & r & reason & Hl & _ & _ & Hr & Hrun).
  - intros x [<- | []]. eexists. reflexivity.
  - reflexivity.
  - vm_compute in Hl. injection Hl as <-.
    vm_compute in Hr. injection Hr as <- <-.
    eexists. split; [exact Hrun|]. reflexivity.
Defined.



Lemma filter_failing_nil ns :
  filter Spec.failing ns = [] <-> existsb Spec.failing ns = false.
Proof.
  induction ns as [|n ns IH]; cbn; [tauto|].
  destruct (Spec.failing n); cbn; [split; discriminate | exact IH].
Qed.

Lemma failure_events_has_failure sessions :
  failure_events sessions = [] <-> existsb has_failure sessions = false.
Proof.
  induction sessions as [|[device info] sessions IH]; cbn [failure_events flat_map existsb];
    [tauto|].
  fold (failure_events sessions). unfold has_failure at 1. cbn [fst snd].
  rewrite orb_false_iff, <- IH, <- filter_failing_nil. split.
  - intros H. apply app_eq_nil in H as [H1 H2]. split; [|assumption].
    now destruct (filter Spec.failing (Spec.neighbors_of info)).
  - intros [-> ->]. reflexivity.
Qed.

(** X13.  The three sections one after another on an inventory where
    every device connects and yields a well-formed snapshot, the names
    being distinct: [connect] hands the inventory to [learn_bgp], which
    returns with one snapshot per device, and [check_bgp] ends [Failed]
    when some device has a failing neighbour and [Passed] otherwise.  No
    section asks for a [goto], and [connect()] and [learn()] have each
    been called once per device, in inventory order. *)
Theorem healthy_inventory_runs_to_a_verdict (testbed : list Device) (w : world) :
  (forall d, In d testbed -> connect_raises d = None) ->
  (forall d, In d testbed -> exists info, learns d = LearnInfo info) ->
  NoDup (map name testbed) ->
  Spec.wf_sessions (sessions_of testbed) = true ->
  exists w',
    fst (connect testbed w) = Return tt
    /\ run_tests BGPNeighborsEstablished (snd (connect testbed w))
       = ([("learn_bgp", Passed, "");
           if existsb has_failure (sessions_of testbed)
           then ("check_bgp", Failed, "Some BGP neighbors are not established.")
           else ("check_bgp", Passed, "All BGP neighbors are established.")],
          [], w')
    /\ all_bgp_sessions w' = Some (sessions_of testbed)
    /\ connect_calls w' = connect_calls w ++ map name testbed
    /\ learn_calls w' = learn_calls w ++ map name testbed.
Proof.
  intros Hc Hl Hnd Hwf. rewrite (connect_all_succeed testbed w Hc). cbn [fst snd].
  set (w1 := World _ _ _ _ _ _).
  assert (Hlearn := learn_bgp_all testbed w1 eq_refl Hl).
  rewrite (collect_sessions_of testbed [] Hl Hnd) in Hlearn by (intros d _ []).
  cbn [app] in Hlearn.
  set (w2 := World _ _ _ _ _ _) in Hlearn.
  assert (Hcheck := check_bgp_wf (sessions_of testbed) w2 eq_refl Hwf).
  unfold BGPNeighborsEstablished. cbn [run_tests]. rewrite Hlearn.
  cbn [section_result]. rewrite Hcheck.
  destruct (failures_of_sessions (sessions_of testbed) []) as [|entry fd] eqn:E.
  - assert (He : existsb has_failure (sessions_of testbed) = false).
    { apply failure_events_has_failure. now apply failures_of_sessions_empty. }
    rewrite He. cbn. eexists. split; [reflexivity|]. split; [reflexivity|].
    cbn. auto.
  - assert (He : existsb has_failure (sessions_of testbed) = true).
    { destruct (existsb has_failure (sessions_of testbed)) eqn:Ex; [reflexivity|].
      apply failure_events_has_failure, failures_of_sessions_empty in Ex. congruence. }
    rewrite He. cbn. eexists. split; [reflexivity|]. split; [reflexivity|].
    cbn. auto.
Qed.

Lemma healthy_inventory_runs_to_a_verdict_witness :
  Spec.wf_sessions (sessions_of [Examples3.R1; Examples3.R3]) = true
  /\ exists w',
       run_tests BGPNeighborsEstablished
         (snd (connect [Examples3.R1; Examples3.R3] Examples3.fresh_world))
       = ([("learn_bgp", Passed, "");
           ("check_bgp", Failed, "Some BGP neighbors are not established.")], [], w')
       /\ all_bgp_sessions w'
          = Some [("R1", Examples.R1_established); ("R3", Examples.R2_idle)].
Proof.
  split; [reflexivity|].
  destruct (healthy_inventory_runs_to_a_verdict [Examples3.R1; Examples3.R3]
              Examples3.fresh_world) as (w' & _ & Hrun & Hs & _).
  - intros d [<- | [<- | []]]; reflexivity.
  - intros d [<- | [<- | []]]; eexists; reflexivity.
  - repeat constructor; cbn; intuition discriminate.
  - reflexivity.
  - exists w'. split; [exact Hrun | exact Hs].
Defined.

(** The devices of a list all yield a snapshot, or there is a first one
    that does not. *)
Lemma first_learn_failure (l : list Device) :
  (forall d, In d l -> exists info, learns d = LearnInfo info)
  \/ exists before d after,
       l = before ++ d :: after
       /\ (forall x, In x before -> exists info, learns x = LearnInfo info)
       /\ (learns d = LearnNothing \/ exists type msg, learns d = LearnRaises type msg).
Proof.
  induction l as [|d l IH]; [left; intros d []|].
  destruct (learns d) as [info| |type msg] eqn:E.
  - destruct IH as [Hok | (before & d' & after & -> & Hok & Hd')].
    + left. intros x [<- | Hx]; eauto.
    + right. exists (d :: before), d', after. repeat split; auto.
      intros x [<- | Hx]; eauto.
  - right. exists [], d, l. repeat split; auto. intros x [].
  - right. exists [], d, l. repeat split; eauto. intros x [].
Qed.

(** X15.  Whatever the devices and the world, [learn_bgp] ends in one of
    three ways: it returns, it ends [Failed] with the [goto] target
    [common_cleanup], or it ends by a Python exception.  It always leaves
    [all_bgp_sessions] assigned, with keys that are names of devices of
    [parameters['devices']]; it has called [learn()] on an initial part of
    those devices, in order and once per device, logging one banner per
    call; and it has changed no parameter and made no [connect()] call. *)
Theorem learn_bgp_outcomes (w : world) :
  (fst (learn_bgp w) = Return tt
   \/ (exists reason, fst (learn_bgp w) = Raise (Signal Failed reason ["common_cleanup"]))
   \/ (exists type msg, fst (learn_bgp w) = Raise (PyException type msg)))
  /\ (exists sessions,
        all_bgp_sessions (snd (learn_bgp w)) = Some sessions
        /\ forall k, In k (keys sessions) ->
             exists devices d,
               parameters_devices w = Some devices /\ In d devices /\ name d = k)
  /\ parameters_devices (snd (learn_bgp w)) = parameters_devices w
  /\ parameters_testbed (snd (learn_bgp w)) = parameters_testbed w
  /\ connect_calls (snd (learn_bgp w)) = connect_calls w
  /\ exists asked,
       learn_calls (snd (learn_bgp w)) = learn_calls w ++ map name asked
       /\ log (snd (learn_bgp w)) = log w ++ map learn_banner asked
       /\ forall devices, parameters_devices w = Some devices ->
            exists rest, devices = asked ++ rest.
Proof.
  assert (Hkeys : forall devices before rest,
            parameters_devices w = Some devices -> devices = before ++ rest ->
            forall k, In k (keys (collect before [])) ->
              exists devices d,
                parameters_devices w = Some devices /\ In d devices /\ name d = k).
  { intros devices before rest Hp -> k Hk. apply collect_keys in Hk as [[] | Hk].
    apply in_map_iff in Hk as (d & Hd & Hin). exists (before ++ rest), d.
    repeat split; auto. apply in_or_app. now left. }
  destruct (parameters_devices w) as [devices|] eqn:Hp.
  - destruct (first_learn_failure devices)
      as [Hok | (before & d & after & -> & Hok & [Hd | (type & msg & Hd)])].
    + rewrite (learn_bgp_all devices w Hp Hok). cbn [fst snd]. split; [now left|].
      cbn. repeat split; auto.
      * eexists. split; [reflexivity|].
        apply (Hkeys devices devices [] eq_refl). now rewrite app_nil_r.
      * exists devices. repeat split. intros ds [= <-]. exists []. now rewrite app_nil_r.
    + rewrite (learn_bgp_stops _ _ _ w Hp Hok Hd). cbn [fst snd].
      split; [right; left; eexists; reflexivity|].
      cbn. repeat split; auto.
      * eexists. split; [reflexivity|].
        apply (Hkeys _ before (d :: after) eq_refl eq_refl).
      * exists (before ++ [d]). repeat split. intros ds [= <-]. exists after.
        now rewrite <- app_assoc.
    + rewrite (learn_bgp_raises _ _ _ _ _ w Hp Hok Hd). cbn [fst snd].
      split; [right; right; eexists _, _; reflexivity|].
      cbn. repeat split; auto.
      * eexists. split; [reflexivity|].
        apply (Hkeys _ before (d :: after) eq_refl eq_refl).
      * exists (before ++ [d]). repeat split. intros ds [= <-]. exists after.
        now rewrite <- app_assoc.
  - unfold learn_bgp, get_parameters_devices.
    cbn [bind M_monad set_all_bgp_sessions parameters_devices]. rewrite Hp.
    cbn [fst snd]. split; [right; right; eexists _, _; reflexivity|].
    cbn. repeat split; auto.
    + exists []. split; [reflexivity|]. intros k [].
    + exists []. cbn. rewrite !app_nil_r. repeat split. discriminate.
Qed.

(* ================================================================= *)
(** ** The dictionaries of the failure index in the store *)

(** X14.  In a store that holds the snapshots, the loop of [check_bgp],
    when it returns, leaves [failed_dict] referring to a dictionary it has
    created, in which every device refers to a dictionary the section has
    created after it: none of them is an object of the store the section
    started in, and no two devices refer to the same dictionary. *)
Theorem failure_index_entries_are_separate (sessions : dict value)
    (all_bgp_sessions_ref : Store.hvalue) (s : Store.state) (st_s : Store.locals) :
  Store.repr (Store.heap s) (VDict sessions) all_bgp_sessions_ref ->
  fst (Store.check_bgp_loop all_bgp_sessions_ref s) = Return st_s ->
  exists fd_s,
    Store.failed_dict st_s = Store.HRef (length (Store.heap s))
    /\ nth_error (Store.heap (snd (Store.check_bgp_loop all_bgp_sessions_ref s)))
                 (length (Store.heap s)) = Some (Store.ODict fd_s)
    /\ NoDup (map snd fd_s)
    /\ forall device v, In (device, v) fd_s ->
         exists r inner,
           v = Store.HRef r /\ length (Store.heap s) < r
           /\ nth_error (Store.heap (snd (Store.check_bgp_loop all_bgp_sessions_ref s))) r
              = Some (Store.ODict inner).
Proof.
  intros Hp Hrun.
  pose proof (StoreSim.check_bgp_loop_sim (Store.heap s) (length (Store.heap s))
                all_bgp_sessions_ref sessions s eq_refl eq_refl Hp) as Hsim.
  destruct (check_snapshots sessions (Locals [] [])) as [st|e]; cbn [simres] in Hsim;
    [|congruence].
  destruct Hsim as (st_s' & Hfst & Hfd & _ & _ & _ & fd_s & Hidx & Hrel & Hnd).
  rewrite Hrun in Hfst. injection Hfst as <-.
  exists fd_s. repeat split; auto.
  intros device v Hin.
  destruct (StoreSim.Forall2_right _ _ _ _ Hrel Hin)
    as (a & _ & _ & r & inner & Hv & Hlt & Hr & _).
  cbn [snd] in Hv. exists r, inner. repeat split; auto.
Qed.

Lemma failure_index_entries_are_separate_witness :
  exists st_s fd_s,
    fst (Store.check_bgp_loop (fst Store.example_sessions) Store.example_state)
    = Return st_s
    /\ nth_error
         (Store.heap (snd (Store.check_bgp_loop (fst Store.example_sessions)
                             Store.example_state))) 15
       = Some (Store.ODict fd_s)
    /\ NoDup (map snd fd_s).
Proof.
  destruct (Store.check_bgp_loop (fst Store.example_sessions) Store.example_state)
    as [[st_s|e] s'] eqn:Hrun; [|vm_compute in Hrun; discriminate].
  assert (Hfst : fst (Store.check_bgp_loop (fst Store.example_sessions) Store.example_state)
                 = Return st_s) by now rewrite Hrun.
  destruct (failure_index_entries_are_separate _ _ _ st_s
              StoreSim.example_sessions_held Hfst) as (fd_s & _ & Hidx & Hnd & _).
  rewrite Hrun in Hidx. exists st_s, fd_s. repeat split; assumption.
Defined.
